(** * SEO agent front end: language detection, batch parsing, batch
      orchestration and domain-list exports

    A shallow embedding of the browser script of the SEO agent system
    ([detectLanguage], [parseSimpleList], [parseCSV], [processRequest],
    [processBatchRequest], [downloadToxicDomains],
    [downloadSuspiciousDomains]) together with the properties its
    specification states about them.

    JavaScript strings are sequences of UTF-16 code units.  The script
    stores its Cyrillic text (patterns, messages, templates) as UTF-8
    bytes; each such literal is written out here as the UTF-16 code
    units of that text, with the text in a comment. *)

From Stdlib Require Import List Bool Arith NArith ZArith QArith Lia.
From Stdlib Require Import Ascii String.
Import ListNotations.
Close Scope Q_scope.

Set Implicit Arguments.

(* ================================================================== *)
(** * JavaScript strings and the built-ins the script uses             *)
(* ================================================================== *)

Module Js.

(** A string is the list of its UTF-16 code units. *)
Definition code_unit := N.
Definition jsstring := list code_unit.

(** An ASCII literal of the script. *)
Definition lit (s : string) : jsstring :=
  List.map N_of_ascii (list_ascii_of_string s).
Arguments lit s%_string.

(** [a === b] on strings. *)
Fixpoint eqb (a b : jsstring) : bool :=
  match a, b with
  | [], [] => true
  | x :: a', y :: b' => N.eqb x y && eqb a' b'
  | _, _ => false
  end.

(** ToBoolean on a string: only the empty string is falsy. *)
Definition truthy (s : jsstring) : bool :=
  match s with [] => false | _ :: _ => true end.

(** ToBoolean on a value that is a string, [null] or [undefined]
    (what [FormData.get] and a missing property give). *)
Definition truthy_opt (v : option jsstring) : bool :=
  match v with Some s => truthy s | None => false end.

(** [a || b] where [a] may be missing and [b] is a string. *)
Definition or_else (a : option jsstring) (b : jsstring) : jsstring :=
  match a with
  | Some (c :: s) => c :: s
  | _ => b
  end.

(** WhiteSpace and LineTerminator code units: what [trim] strips and
    what [\s] matches. *)
Definition isWhiteSpace (c : code_unit) : bool :=
  ((9 <=? c) && (c <=? 13) || (c =? 32) || (c =? 160) || (c =? 5760)
   || (8192 <=? c) && (c <=? 8202) || (c =? 8232) || (c =? 8233)
   || (c =? 8239) || (c =? 8287) || (c =? 12288) || (c =? 65279))%N.

Fixpoint trimStart (s : jsstring) : jsstring :=
  match s with
  | [] => []
  | c :: t => if isWhiteSpace c then trimStart t else c :: t
  end.

Fixpoint trimEnd (s : jsstring) : jsstring :=
  match s with
  | [] => []
  | c :: t =>
      match trimEnd t with
      | [] => if isWhiteSpace c then [] else [c]
      | t' => c :: t'
      end
  end.

(** [s.trim()]. *)
Definition trim (s : jsstring) : jsstring := trimEnd (trimStart s).

(** [s.split(sep)] for a separator of one code unit; the empty string
    splits into one empty field. *)
Fixpoint split (sep : code_unit) (s : jsstring) : list jsstring :=
  match s with
  | [] => [[]]
  | c :: t =>
      if N.eqb c sep then [] :: split sep t
      else match split sep t with
           | h :: r => (c :: h) :: r
           | [] => [[c]]
           end
  end.

(** [fields.join(sep)]. *)
Fixpoint join (sep : jsstring) (fields : list jsstring) : jsstring :=
  match fields with
  | [] => []
  | [f] => f
  | f :: rest => f ++ sep ++ join sep rest
  end.

(** [s.startsWith(p)]. *)
Fixpoint startsWith (s p : jsstring) : bool :=
  match p, s with
  | [], _ => true
  | x :: p', y :: s' => N.eqb x y && startsWith s' p'
  | _ :: _, [] => false
  end.

(** [self.indexOf(x)] on an array of strings: the first index holding
    [x], if any. *)
Fixpoint indexOf (self : list jsstring) (x : jsstring) : option nat :=
  match self with
  | [] => None
  | y :: rest =>
      if eqb y x then Some 0
      else option_map S (indexOf rest x)
  end.

(** [arr.filter((x, index, self) => p x index self)]. *)
Fixpoint filter_from {A} (p : A -> nat -> bool) (i : nat) (l : list A)
  : list A :=
  match l with
  | [] => []
  | x :: rest =>
      if p x i then x :: filter_from p (S i) rest
      else filter_from p (S i) rest
  end.

Definition filter_indexed {A} (p : A -> nat -> list A -> bool)
    (l : list A) : list A :=
  filter_from (fun x i => p x i l) 0 l.

Definition newline : code_unit := 10%N.
Definition comma : code_unit := 44%N.
Definition slash : code_unit := 47%N.
Definition space : code_unit := 32%N.

End Js.

Import Js.

(* ================================================================== *)
(** * Case mapping and the regular expressions of the script           *)
(* ================================================================== *)

(** [String.prototype.toUpperCase] and [toLowerCase] follow the Unicode
    tables of the engine that runs the script; the development is
    parametric in them. *)
Class CaseMapping := {
  toUpperCase : jsstring -> jsstring;
  toLowerCase : jsstring -> jsstring
}.

(** The case pairs of Basic Latin and of the Russian and Ukrainian
    alphabets, code unit by code unit: the tables used for concrete
    runs. *)
Definition upper1 (c : code_unit) : code_unit :=
  (if (97 <=? c) && (c <=? 122) then c - 32
   else if (1072 <=? c) && (c <=? 1103) then c - 32
   else if (1104 <=? c) && (c <=? 1119) then c - 80
   else if c =? 1169 then 1168
   else c)%N.

Definition lower1 (c : code_unit) : code_unit :=
  (if (65 <=? c) && (c <=? 90) then c + 32
   else if (1040 <=? c) && (c <=? 1071) then c + 32
   else if (1024 <=? c) && (c <=? 1039) then c + 80
   else if c =? 1168 then 1169
   else c)%N.

#[export] Instance basic_case : CaseMapping := {
  toUpperCase := List.map upper1;
  toLowerCase := List.map lower1
}.

Module Re.
Section Patterns.
Context {cm : CaseMapping}.

(** Canonicalize of a pattern with the [i] flag and without the [u]
    flag: the upper case of the code unit when that is one code unit,
    except that a non-ASCII unit never folds to an ASCII one. *)
Definition Canonicalize (ch : code_unit) : code_unit :=
  match toUpperCase [ch] with
  | [cu] => if ((128 <=? ch) && (cu <? 128))%N then ch else cu
  | _ => ch
  end.

(** The code units [lo .. hi] of a class range. *)
Definition range (lo hi : code_unit) : list code_unit :=
  List.map (fun k => (lo + N.of_nat k)%N)
           (seq 0 (S (N.to_nat (hi - lo)))).

(** The members of [\s]. *)
Definition whiteSpaceChars : list code_unit :=
  (range 9 13 ++ [32; 160; 5760] ++ range 8192 8202
   ++ [8232; 8233; 8239; 8287; 12288; 65279])%N.

(** A character class under the [i] flag matches a code unit when
    some member has the same canonical form. *)
Definition class_i (members : list code_unit) (ch : code_unit) : bool :=
  existsb (fun a => N.eqb (Canonicalize a) (Canonicalize ch)) members.

(** [\w]: without the [u] flag the word characters are
    [A-Za-z0-9_] whatever the [i] flag. *)
Definition isWordChar (c : code_unit) : bool :=
  ((97 <=? c) && (c <=? 122) || (65 <=? c) && (c <=? 90)
   || (48 <=? c) && (c <=? 57) || (c =? 95))%N.

Definition wordSide (c : option code_unit) : bool :=
  match c with Some x => isWordChar x | None => false end.

(** [\b] between the code unit before the position (none at the
    start) and the one after it (none at the end). *)
Definition boundary (before after : option code_unit) : bool :=
  xorb (wordSide before) (wordSide after).

(** One alternative of [(w1|w2|...)\b] at the current position:
    the word, matched unit by unit under the [i] flag, then [\b]. *)
Fixpoint word_here (w : jsstring) (before : option code_unit)
    (text : jsstring) : bool :=
  match w with
  | [] => boundary before (hd_error text)
  | k :: w' =>
      match text with
      | c :: t =>
          N.eqb (Canonicalize k) (Canonicalize c)
          && word_here w' (Some c) t
      | [] => false
      end
  end.

(** [/\b(w1|w2|...)\b/i.test(text)]: some position and some
    alternative match. *)
Fixpoint words_i (ws : list jsstring) (before : option code_unit)
    (text : jsstring) : bool :=
  (boundary before (hd_error text)
   && existsb (fun w => word_here w before text) ws)
  || match text with
     | [] => false
     | c :: t => words_i ws (Some c) t
     end.

(** [/[...]/i.test(text)]: some code unit is in the class. *)
Definition some_in_class (members : list code_unit) (text : jsstring)
  : bool :=
  existsb (class_i members) text.

(** [/^[...]+$/i.test(text)]: at least one code unit and all of them
    in the class. *)
Definition all_in_class (members : list code_unit) (text : jsstring)
  : bool :=
  truthy text && forallb (class_i members) text.

End Patterns.
End Re.

(* ================================================================== *)
(** * Language detector                                                *)
(* ================================================================== *)

Inductive language := en | ru | uk.

Section LanguageDetector.
Context {cm : CaseMapping}.

Definition ukWords : list jsstring :=
  [ (* продаж *) [1087; 1088; 1086; 1076; 1072; 1078];
    (* купити *) [1082; 1091; 1087; 1080; 1090; 1080];
    (* послуги *) [1087; 1086; 1089; 1083; 1091; 1075; 1080];
    (* товар *) [1090; 1086; 1074; 1072; 1088];
    (* компанія *) [1082; 1086; 1084; 1087; 1072; 1085; 1110; 1103];
    (* бізнес *) [1073; 1110; 1079; 1085; 1077; 1089];
    (* вартість *) [1074; 1072; 1088; 1090; 1110; 1089; 1090; 1100];
    (* ціна *) [1094; 1110; 1085; 1072];
    (* замовити *) [1079; 1072; 1084; 1086; 1074; 1080; 1090; 1080];
    (* зв'язатися *)
    [1079; 1074; 39; 1103; 1079; 1072; 1090; 1080; 1089; 1103];
    (* допомога *) [1076; 1086; 1087; 1086; 1084; 1086; 1075; 1072];
    (* інформація *)
    [1110; 1085; 1092; 1086; 1088; 1084; 1072; 1094; 1110; 1103]
  ]%N.

Definition ruWords : list jsstring :=
  [ (* продажа *) [1087; 1088; 1086; 1076; 1072; 1078; 1072];
    (* купить *) [1082; 1091; 1087; 1080; 1090; 1100];
    (* услуги *) [1091; 1089; 1083; 1091; 1075; 1080];
    (* товар *) [1090; 1086; 1074; 1072; 1088];
    (* компания *) [1082; 1086; 1084; 1087; 1072; 1085; 1080; 1103];
    (* бизнес *) [1073; 1080; 1079; 1085; 1077; 1089];
    (* стоимость *)
    [1089; 1090; 1086; 1080; 1084; 1086; 1089; 1090; 1100];
    (* цена *) [1094; 1077; 1085; 1072];
    (* заказать *) [1079; 1072; 1082; 1072; 1079; 1072; 1090; 1100];
    (* связаться *)
    [1089; 1074; 1103; 1079; 1072; 1090; 1100; 1089; 1103];
    (* помощь *) [1087; 1086; 1084; 1086; 1097; 1100];
    (* информация *)
    [1080; 1085; 1092; 1086; 1088; 1084; 1072; 1094; 1080; 1103]
  ]%N.

Definition enWords : list jsstring :=
  List.map lit
    ["buy"; "sell"; "service"; "product"; "company"; "business";
     "price"; "order"; "contact"; "help"; "information"]%string.

(** [/[а-яєіїґ]/i] *)
Definition ukChars : jsstring -> bool :=
  Re.some_in_class (Re.range 1072 1103 ++ [1108; 1110; 1111; 1169])%N.
(** [/\b(продаж|...|інформація)\b/i] *)
Definition ukKeywords : jsstring -> bool := Re.words_i ukWords None.
(** [/[а-яё]/i] *)
Definition ruChars : jsstring -> bool :=
  Re.some_in_class (Re.range 1072 1103 ++ [1105])%N.
(** [/\b(продажа|...|информация)\b/i] *)
Definition ruKeywords : jsstring -> bool := Re.words_i ruWords None.
(** [/^[a-z\s]+$/i] *)
Definition enChars : jsstring -> bool :=
  Re.all_in_class (Re.range 97 122 ++ Re.whiteSpaceChars)%N.
(** [/\b(buy|...|information)\b/i] *)
Definition enKeywords : jsstring -> bool := Re.words_i enWords None.

Definition ukPatterns := [ukChars; ukKeywords].
Definition ruPatterns := [ruChars; ruKeywords].
Definition enPatterns := [enChars; enKeywords].

(** [for (const pattern of patterns) if (pattern.test(text)) score++] *)
Definition score (patterns : list (jsstring -> bool)) (text : jsstring)
  : nat :=
  fold_left
    (fun (sc : nat) (pattern : jsstring -> bool) =>
       if pattern text then S sc else sc)
    patterns 0.

(** [detectLanguage(text)]; [None] is an [undefined] or [null]
    argument.  The unused [textLower] is left out. *)
Definition detectLanguage (text : option jsstring) : language :=
  match text with
  | None => uk
  | Some [] => uk
  | Some text =>
      let ukScore := score ukPatterns text in
      let ruScore := score ruPatterns text in
      let enScore := score enPatterns text in
      if (0 <? enScore) && negb (ukChars text) && negb (ruChars text)
      then en
      else if ukScore <? ruScore then ru
      else if 0 <? ukScore then uk
      else uk
  end.

End LanguageDetector.

(* ================================================================== *)
(** * Batch item parser                                                *)
(* ================================================================== *)

(** The object a parser pushes for one input row.  [target_audience]
    is set only when the form value is non-empty. *)
Record WorkItem := {
  url : jsstring;
  topic : jsstring;
  keyword : jsstring;
  item_language : language;
  target_audience : option jsstring;
  user_query : jsstring
}.

(** ** The instruction templates (QUOTE stands for the double quote) *)

(** [Створи контент для ] *)
Definition t_content_for : jsstring :=
  [1057; 1090; 1074; 1086; 1088; 1080; 32; 1082; 1086; 1085; 1090;
   1077; 1085; 1090; 32; 1076; 1083; 1103; 32]%N.

(** [Створи тільки мета-теги (Title та Description) для ] *)
Definition t_meta_for : jsstring :=
  [1057; 1090; 1074; 1086; 1088; 1080; 32; 1090; 1110; 1083; 1100;
   1082; 1080; 32; 1084; 1077; 1090; 1072; 45; 1090; 1077; 1075; 1080;
   32; 40; 84; 105; 116; 108; 101; 32; 1090; 1072; 32; 68; 101; 115;
   99; 114; 105; 112; 116; 105; 111; 110; 41; 32; 1076; 1083; 1103;
   32]%N.

(** [ з ключовим словом QUOTE] *)
Definition t_with_keyword : jsstring :=
  [32; 1079; 32; 1082; 1083; 1102; 1095; 1086; 1074; 1080; 1084; 32;
   1089; 1083; 1086; 1074; 1086; 1084; 32; 34]%N.

(** [QUOTE для бренду ] *)
Definition t_for_brand : jsstring :=
  [34; 32; 1076; 1083; 1103; 32; 1073; 1088; 1077; 1085; 1076; 1091;
   32]%N.

(** [). Без генерації тексту контенту.] *)
Definition t_meta_tail : jsstring :=
  [41; 46; 32; 1041; 1077; 1079; 32; 1075; 1077; 1085; 1077; 1088;
   1072; 1094; 1110; 1111; 32; 1090; 1077; 1082; 1089; 1090; 1091; 32;
   1082; 1086; 1085; 1090; 1077; 1085; 1090; 1091; 46]%N.

(** [ Цільова аудиторія: ] *)
Definition t_audience : jsstring :=
  [32; 1062; 1110; 1083; 1100; 1086; 1074; 1072; 32; 1072; 1091; 1076;
   1080; 1090; 1086; 1088; 1110; 1103; 58; 32]%N.

(** [Згенеруй текст для ] *)
Definition t_generate_for : jsstring :=
  [1047; 1075; 1077; 1085; 1077; 1088; 1091; 1081; 32; 1090; 1077;
   1082; 1089; 1090; 32; 1076; 1083; 1103; 32]%N.

(** [ про ] *)
Definition t_about : jsstring :=
  [32; 1087; 1088; 1086; 32]%N.

(** [if (targetAudience) userQuery += ` Цільова аудиторія: ${targetAudience}.`] *)
Definition withAudience (userQuery targetAudience : jsstring) : jsstring :=
  if truthy targetAudience
  then userQuery ++ t_audience ++ targetAudience ++ lit "."
  else userQuery.

(** The content-generation ([chatgpt]) phrasing. *)
Definition chatgptQuery (u t brand business audience : jsstring)
  : jsstring :=
  withAudience
    (t_content_for ++ u ++ t_with_keyword ++ t ++ t_for_brand ++ brand
     ++ lit " (" ++ business ++ lit ")")
    audience.

(** The meta-tags-only ([meta_only]) phrasing. *)
Definition metaOnlyQuery (u t brand business audience : jsstring)
  : jsstring :=
  withAudience
    (t_meta_for ++ u ++ t_with_keyword ++ t ++ t_for_brand ++ brand
     ++ lit " (" ++ business ++ t_meta_tail)
    audience.

(** The default (auto mode) phrasing. *)
Definition autoQuery (u t : jsstring) : jsstring :=
  t_generate_for ++ u ++ t_about ++ t.

(** [arr.forEach((x, index) => ...)] over an accumulator. *)
Fixpoint forEach_from {A B : Type} (f : A -> nat -> B -> B) (index : nat)
    (arr : list A) (acc : B) : B :=
  match arr with
  | [] => acc
  | x :: rest => forEach_from f (S index) rest (f x index acc)
  end.

Section Parser.
Context {cm : CaseMapping}.

(** The class [a-zA-Zа-яА-Я0-9] (no flag): the units that
    [lastPart.replace(/[^a-zA-Zа-яА-Я0-9]/g, ' ')] keeps. *)
Definition keptInTopic (c : code_unit) : bool :=
  ((97 <=? c) && (c <=? 122) || (65 <=? c) && (c <=? 90)
   || (1072 <=? c) && (c <=? 1103) || (1040 <=? c) && (c <=? 1071)
   || (48 <=? c) && (c <=? 57))%N.

(** The topic derived from a URL when no keyword is given. *)
Definition derivedTopic (cleanUrl : jsstring) : jsstring :=
  let urlParts := split slash cleanUrl in
  let lastPart := last urlParts [] in
  let topic :=
    List.map (fun c => if keptInTopic c then c else space) lastPart in
  or_else (Some (trim topic)) (lit "Page").

(** The [pageData] object that [parseSimpleList] builds for the
    trimmed URL at [index]. *)
Definition simpleItem (keywords : list jsstring)
    (generationMode : jsstring) (brandName businessType : option jsstring)
    (targetAudience : jsstring)
    (cleanUrl : jsstring) (index : nat) : WorkItem :=
  let topic :=
    match nth_error keywords index with
    | Some k =>
        if truthy k && truthy (trim k) then trim k
        else derivedTopic cleanUrl
    | None => derivedTopic cleanUrl
    end in
  let detectedLanguage := detectLanguage (Some topic) in
  let userQuery :=
    if eqb generationMode (lit "chatgpt")
       && truthy_opt brandName && truthy_opt businessType
    then chatgptQuery cleanUrl topic (or_else brandName [])
                      (or_else businessType []) targetAudience
    else if eqb generationMode (lit "meta_only")
            && truthy_opt brandName && truthy_opt businessType
    then metaOnlyQuery cleanUrl topic (or_else brandName [])
                       (or_else businessType []) targetAudience
    else autoQuery cleanUrl topic in
  {| url := cleanUrl;
     topic := topic;
     keyword := topic;
     item_language := detectedLanguage;
     target_audience :=
       if truthy targetAudience then Some targetAudience else None;
     user_query := userQuery |}.

(** The body of [urls.forEach((url, index) => ...)]: the object is
    pushed when the trimmed URL is non-empty. *)
Definition simpleRow (keywords : list jsstring)
    (generationMode : jsstring) (brandName businessType : option jsstring)
    (targetAudience : jsstring)
    (url0 : jsstring) (index : nat) (data : list WorkItem)
  : list WorkItem :=
  let cleanUrl := trim url0 in
  if truthy cleanUrl
  then data ++ [simpleItem keywords generationMode brandName
                           businessType targetAudience cleanUrl index]
  else data.

(** [parseSimpleList(urlList, keywordsList, generationMode, brandName,
    businessType, targetAudience)]. *)
Definition parseSimpleList (urlList : jsstring)
    (keywordsList : option jsstring) (generationMode : jsstring)
    (brandName businessType : option jsstring)
    (targetAudience : jsstring) : list WorkItem :=
  let urls :=
    filter (fun u => truthy (trim u)) (split newline (trim urlList)) in
  let keywords :=
    if truthy_opt keywordsList
    then filter (fun k => truthy (trim k))
                (split newline (trim (or_else keywordsList [])))
    else [] in
  forEach_from
    (simpleRow keywords generationMode brandName businessType
               targetAudience)
    0 urls [].

(** The [pageData] object that [parseCSV] builds from the trimmed
    fields of a line. *)
Definition csvItem (generationMode : jsstring)
    (brandName businessType : option jsstring)
    (targetAudience : jsstring) (parts : list jsstring) : WorkItem :=
  let u := nth 0 parts [] in
  let t := nth 1 parts [] in
  let detectedLanguage := detectLanguage (Some t) in
  let pageBrandName :=
    or_else (nth_error parts 2) (or_else brandName (lit "Brand")) in
  let pageBusinessType :=
    or_else (nth_error parts 3) (or_else businessType (lit "general")) in
  let userQuery :=
    if eqb generationMode (lit "chatgpt") && (3 <=? List.length parts)
    then chatgptQuery u t pageBrandName pageBusinessType targetAudience
    else if eqb generationMode (lit "meta_only")
            && (3 <=? List.length parts)
    then metaOnlyQuery u t pageBrandName pageBusinessType targetAudience
    else autoQuery u t in
  {| url := u;
     topic := t;
     keyword := t;
     item_language := detectedLanguage;
     target_audience :=
       if truthy targetAudience then Some targetAudience else None;
     user_query := userQuery |}.

(** One turn of the loop of [parseCSV] on [lines[i]]: blank lines
    and the header are skipped, a line of at least two fields pushes
    its object. *)
Definition csvRow (generationMode : jsstring)
    (brandName businessType : option jsstring)
    (targetAudience : jsstring)
    (line0 : jsstring) (data : list WorkItem) : list WorkItem :=
  let line := trim line0 in
  if negb (truthy line) || startsWith line (lit "url,") then data
  else
    let parts := List.map trim (split comma line) in
    if 2 <=? List.length parts
    then data ++ [csvItem generationMode brandName businessType
                          targetAudience parts]
    else data.

(** [for (let i = 0; i < lines.length; i++) ...] *)
Fixpoint parseCSV_loop (generationMode : jsstring)
    (brandName businessType : option jsstring)
    (targetAudience : jsstring)
    (lines : list jsstring) (data : list WorkItem) : list WorkItem :=
  match lines with
  | [] => data
  | line0 :: rest =>
      parseCSV_loop generationMode brandName businessType targetAudience
        rest
        (csvRow generationMode brandName businessType targetAudience
                line0 data)
  end.

(** [parseCSV(csvText, generationMode, brandName, businessType,
    targetAudience)]. *)
Definition parseCSV (csvText : jsstring) (generationMode : jsstring)
    (brandName businessType : option jsstring)
    (targetAudience : jsstring) : list WorkItem :=
  parseCSV_loop generationMode brandName businessType targetAudience
    (split newline (trim csvText)) [].

End Parser.

(* ================================================================== *)
(** * Progress channel, HTTP submission and the batch orchestrator     *)
(* ================================================================== *)

(** A JSON value, as [response.json()] gives it.  A number is the
    double that was parsed, taken as a rational; the members of an
    object come in the order of the text. *)
#[warnings="-register-all"]
Inductive json :=
| JNull
| JBool (b : bool)
| JNumber (q : Q)
| JString (s : jsstring)
| JArray (items : list json)
| JObject (members : list (jsstring * json)).

(** The result of [POST /process]: whatever JSON value the body of the
    reply holds.  Nothing in the script checks its shape. *)
Definition ResultPayload : Type := json.

(** The own property [name] of a parsed object: of several members of
    one name the last one stands. *)
Fixpoint own (name : jsstring) (members : list (jsstring * json))
  : option json :=
  match members with
  | [] => None
  | (k, v) :: rest =>
      match own name rest with
      | Some later => Some later
      | None => if eqb k name then Some v else None
      end
  end.

(** [v.name] for a value [v] that is neither [null] nor [undefined]
    and a property name that the script reads from a result
    ([validation], [overall_score], [meta_tags], [title], ...): the
    own property of an object; booleans, numbers, strings and arrays
    have no property of these names.  [None] is [undefined]. *)
Definition member (v : json) (name : jsstring) : option json :=
  match v with
  | JObject members => own name members
  | _ => None
  end.

(** The truth value of what a property read gives. *)
Definition truthy_value (v : option json) : bool :=
  match v with
  | None | Some JNull => false
  | Some (JBool b) => b
  | Some (JNumber q) => negb (Qeq_bool q 0)
  | Some (JString s) => truthy s
  | Some (JArray _) | Some (JObject _) => true
  end.

(** What [v.outer && v.outer.inner ? v.outer.inner : other] selects
    for a [v] other than [null]: the inner value when the outer and
    the inner value are both truthy, and [None] when [other] is
    taken. *)
Definition nested (v : json) (outer inner : jsstring) : option json :=
  match member v outer with
  | Some o =>
      if truthy_value (Some o)
      then match member o inner with
           | Some i => if truthy_value (Some i) then Some i else None
           | None => None
           end
      else None
  | None => None
  end.

(** The conversion of a value to a primitive (for a comparison or in a
    template literal) throws a [TypeError]: for an object exactly
    when it has an own property [toString], which is never callable
    and hides [Object.prototype.toString], the inherited [valueOf]
    giving the object back; for an array, whose [toString] joins the
    strings of its elements, when the conversion of an element
    does. *)
Fixpoint toPrimitive_throws (v : json) : bool :=
  match v with
  | JObject members =>
      match own (lit "toString") members with
      | Some _ => true
      | None => false
      end
  | JArray items => existsb toPrimitive_throws items
  | _ => false
  end.

(** What one [fetch('/process', ...)] can come to: the promise rejects
    (network failure), or it resolves to a response with its [ok] flag
    and what [response.json()] gives, a rejection with its message or
    the result object. *)
Inductive fetch_reply :=
| NetworkFailure (message : jsstring)
| Response (ok : bool) (json : jsstring + ResultPayload).

(** An entry of [batchResults]: [{url, success: true, result}] or
    [{url, success: false, error}]. *)
Record outcome := {
  outcome_url : jsstring;
  success : bool;
  result : option ResultPayload;
  error : option jsstring
}.

(** The [data] object of a single request. *)
Record SingleData := {
  data_url : jsstring;
  data_topic : jsstring;
  data_keyword : option jsstring;
  data_target_audience : option jsstring;
  data_language : option language;
  data_user_query : jsstring
}.

(** The JSON body of a submission: the item or data object spread
    together with [session_id]. *)
Inductive request_body :=
| ItemBody (pageData : WorkItem) (session_id : jsstring)
| DataBody (data : SingleData) (session_id : jsstring).

Inductive log_kind := info | succeeded | failed | processing.

(** What a log line reports; the wording of the line is presentation
    and is not kept. *)
Inductive log_line :=
| TotalPages (total : nat)
| DelayBetweenPages (seconds : Z)
| BatchStarts (total : nat)
| ProcessingPage (pageNum total : nat) (u : jsstring)
| PageSucceeded (pageNum total : nat) (u : jsstring) (score : option Q)
| PageFailed (pageNum total : nat) (u errorMsg : jsstring)
| Waiting (seconds : Z)
| BatchFinished
| Summary (total ok bad : nat)
| Banner
| ProcessedCount (total : nat)
| SuccessCount (ok : nat)
| ErrorCount (bad : nat).

Inductive progress_label :=
| Starting
| CurrentPage (page : jsstring)
| Finished.

(** What the script does to the page. *)
Inductive ui_event :=
| ShowBatchPanels
| ClearLogs
| UpdateBatchProgress (current total : nat) (label : progress_label)
| AddBatchLog (kind : log_kind) (line : log_line)
| AddLogEntry (kind : log_kind) (line : log_line)
| DisplayBatchResults (batchResults : list outcome)
| ShowLoading
| HideLoading
| DisplayResults (r : ResultPayload).

(** What the script does to the outside world.  A WebSocket is named
    by the rank of its [new WebSocket] among all of them. *)
Inductive event :=
| Alert (message : jsstring)
| WsOpen (socket : nat) (session : jsstring)
| WsClose (socket : nat)
| Fetch (request : request_body)
| Sleep (milliseconds : Z)
| Ui (u : ui_event).

(** The environment of a run: the identifiers [generateSessionId]
    draws, in order, and the replies to the submissions, in order. *)
Record world := {
  session_ids : nat -> jsstring;
  replies : nat -> fetch_reply
}.

(** The globals [websocket], [sessionId] and [window.batchResults],
    the local array [batchResults] of the running batch, the counters
    of the environment, and the events so far (oldest first). *)
Record state := {
  websocket : option nat;
  sessionId : option jsstring;
  window_batchResults : option (list outcome);
  batchResults : list outcome;
  sockets_made : nat;
  ids_drawn : nat;
  fetches_made : nat;
  trace : list event
}.

Definition initial : state :=
  {| websocket := None; sessionId := None; window_batchResults := None;
     batchResults := []; sockets_made := 0; ids_drawn := 0;
     fetches_made := 0; trace := [] |}.

(** The form fields and page inputs [processBatchRequest] reads.
    [batchDelay] is [parseInt(formData.get('batchDelay'))], [None] for
    [NaN]; [csvFile] is the text of the selected file, [None] when no
    file is selected; [batchDataField] is the field named
    [batchData]. *)
Record FormData := {
  batchInputType : jsstring;
  batchDelay : option Z;
  urlList : option jsstring;
  keywordsList : option jsstring;
  batchBrandName : option jsstring;
  batchBusinessType : option jsstring;
  batchTargetAudience : option jsstring;
  csvFile : option jsstring;
  batchDataField : option jsstring
}.

(** A thrown [Error]. *)
Record js_error := { message : jsstring }.

(** [Ошибка обработки запроса] *)
Definition msg_request_failed : jsstring :=
  [1054; 1096; 1080; 1073; 1082; 1072; 32; 1086; 1073; 1088; 1072;
   1073; 1086; 1090; 1082; 1080; 32; 1079; 1072; 1087; 1088; 1086;
   1089; 1072]%N.

(** [Неизвестная ошибка] *)
Definition msg_unknown_error : jsstring :=
  [1053; 1077; 1080; 1079; 1074; 1077; 1089; 1090; 1085; 1072; 1103;
   32; 1086; 1096; 1080; 1073; 1082; 1072]%N.

(** The messages of the [TypeError]s that the reads of a result can
    throw; their wording is the engine's. *)
Definition msg_null_validation : jsstring :=
  lit "Cannot read properties of null (reading 'validation')".

Definition msg_undefined_validation : jsstring :=
  lit "Cannot read properties of undefined (reading 'validation')".

Definition msg_not_a_function (callee : jsstring) : jsstring :=
  callee ++ lit " is not a function".

Definition msg_not_primitive : jsstring :=
  lit "Cannot convert object to primitive value".

(** [Ошибка: ] *)
Definition msg_error_prefix : jsstring :=
  [1054; 1096; 1080; 1073; 1082; 1072; 58; 32]%N.

(** [Пожалуйста, введите список URL страниц] *)
Definition msg_no_url_list : jsstring :=
  [1055; 1086; 1078; 1072; 1083; 1091; 1081; 1089; 1090; 1072; 44; 32;
   1074; 1074; 1077; 1076; 1080; 1090; 1077; 32; 1089; 1087; 1080;
   1089; 1086; 1082; 32; 85; 82; 76; 32; 1089; 1090; 1088; 1072; 1085;
   1080; 1094]%N.

(** [Пожалуйста, выберите CSV файл] *)
Definition msg_no_csv_file : jsstring :=
  [1055; 1086; 1078; 1072; 1083; 1091; 1081; 1089; 1090; 1072; 44; 32;
   1074; 1099; 1073; 1077; 1088; 1080; 1090; 1077; 32; 67; 83; 86; 32;
   1092; 1072; 1081; 1083]%N.

(** [Пожалуйста, введите данные для пакетной обработки] *)
Definition msg_no_manual_text : jsstring :=
  [1055; 1086; 1078; 1072; 1083; 1091; 1081; 1089; 1090; 1072; 44; 32;
   1074; 1074; 1077; 1076; 1080; 1090; 1077; 32; 1076; 1072; 1085;
   1085; 1099; 1077; 32; 1076; 1083; 1103; 32; 1087; 1072; 1082; 1077;
   1090; 1085; 1086; 1081; 32; 1086; 1073; 1088; 1072; 1073; 1086;
   1090; 1082; 1080]%N.

(** [Не найдено данных для обработки] *)
Definition msg_nothing_to_process : jsstring :=
  [1053; 1077; 32; 1085; 1072; 1081; 1076; 1077; 1085; 1086; 32; 1076;
   1072; 1085; 1085; 1099; 1093; 32; 1076; 1083; 1103; 32; 1086; 1073;
   1088; 1072; 1073; 1086; 1090; 1082; 1080]%N.

(** ** A state monad with exceptions

    A computation runs from a state to a value or a thrown error, and
    the state it leaves; what was done before a throw stays done. *)
Definition M (A : Type) : Type := state -> (js_error + A) * state.

Definition ret {A} (a : A) : M A := fun s => (inr a, s).

Definition bind {A B} (m : M A) (k : A -> M B) : M B :=
  fun s =>
    match m s with
    | (inr a, s') => k a s'
    | (inl e, s') => (inl e, s')
    end.

Definition throw {A} (e : js_error) : M A := fun s => (inl e, s).

(** [try { body } catch (error) { handler }] *)
Definition try_catch {A} (body : M A) (handler : js_error -> M A) : M A :=
  fun s =>
    match body s with
    | (inr a, s') => (inr a, s')
    | (inl e, s') => handler e s'
    end.

(** [try { body } finally { cleanup }] *)
Definition try_finally {A} (body : M A) (cleanup : M unit) : M A :=
  fun s =>
    match body s with
    | (r, s') =>
        match cleanup s' with
        | (inr _, s'') => (r, s'')
        | (inl e, s'') => (inl e, s'')
        end
    end.

Declare Scope js_scope.
Delimit Scope js_scope with js.
Notation "x <- m ;; k" := (bind m (fun x => k))
  (at level 61, m at next level, right associativity) : js_scope.
Notation "m ;; k" := (bind m (fun _ => k))
  (at level 61, right associativity) : js_scope.
Open Scope js_scope.

Definition emit (e : event) : M unit :=
  fun s =>
    (inr tt,
     {| websocket := websocket s; sessionId := sessionId s;
        window_batchResults := window_batchResults s;
        batchResults := batchResults s;
        sockets_made := sockets_made s; ids_drawn := ids_drawn s;
        fetches_made := fetches_made s;
        trace := trace s ++ [e] |}).

Definition alert (msg : jsstring) : M unit := emit (Alert msg).
Definition ui (u : ui_event) : M unit := emit (Ui u).

Section Orchestrator.
Context {cm : CaseMapping}.
Variable w : world.

(** [generateSessionId()]: the next identifier of the environment. *)
Definition generateSessionId : M jsstring :=
  fun s =>
    (inr (session_ids w (ids_drawn s)),
     {| websocket := websocket s; sessionId := sessionId s;
        window_batchResults := window_batchResults s;
        batchResults := batchResults s;
        sockets_made := sockets_made s; ids_drawn := S (ids_drawn s);
        fetches_made := fetches_made s;
        trace := trace s |}).

(** [sessionId = v] *)
Definition set_sessionId (v : jsstring) : M unit :=
  fun s =>
    (inr tt,
     {| websocket := websocket s; sessionId := Some v;
        window_batchResults := window_batchResults s;
        batchResults := batchResults s;
        sockets_made := sockets_made s; ids_drawn := ids_drawn s;
        fetches_made := fetches_made s;
        trace := trace s |}).

(** [connectWebSocket(sessionId)]: [websocket = new WebSocket(wsUrl)]
    and the handlers; it does not wait for the connection. *)
Definition connectWebSocket (sid : jsstring) : M unit :=
  fun s =>
    (inr tt,
     {| websocket := Some (sockets_made s); sessionId := sessionId s;
        window_batchResults := window_batchResults s;
        batchResults := batchResults s;
        sockets_made := S (sockets_made s); ids_drawn := ids_drawn s;
        fetches_made := fetches_made s;
        trace := trace s ++ [WsOpen (sockets_made s) sid] |}).

(** [if (websocket) { websocket.close(); }] *)
Definition closeWebSocket : M unit :=
  fun s =>
    match websocket s with
    | Some socket => emit (WsClose socket) s
    | None => (inr tt, s)
    end.

(** [await fetch('/process', {method: 'POST', ..., body})]: the next
    reply of the environment; a network failure is thrown. *)
Definition fetch (request : request_body) : M (bool * (jsstring + ResultPayload)) :=
  fun s =>
    let s' :=
      {| websocket := websocket s; sessionId := sessionId s;
         window_batchResults := window_batchResults s;
         batchResults := batchResults s;
         sockets_made := sockets_made s; ids_drawn := ids_drawn s;
         fetches_made := S (fetches_made s);
         trace := trace s ++ [Fetch request] |} in
    match replies w (fetches_made s) with
    | NetworkFailure msg => (inl {| message := msg |}, s')
    | Response ok json => (inr (ok, json), s')
    end.

(** [await response.json()] *)
Definition response_json (response : bool * (jsstring + ResultPayload))
  : M ResultPayload :=
  match snd response with
  | inl msg => throw {| message := msg |}
  | inr r => ret r
  end.

(** [batchResults.push(o)] *)
Definition push (o : outcome) : M unit :=
  fun s =>
    (inr tt,
     {| websocket := websocket s; sessionId := sessionId s;
        window_batchResults := window_batchResults s;
        batchResults := batchResults s ++ [o];
        sockets_made := sockets_made s; ids_drawn := ids_drawn s;
        fetches_made := fetches_made s;
        trace := trace s |}).

(** [const batchResults = []] *)
Definition new_batchResults : M unit :=
  fun s =>
    (inr tt,
     {| websocket := websocket s; sessionId := sessionId s;
        window_batchResults := window_batchResults s;
        batchResults := [];
        sockets_made := sockets_made s; ids_drawn := ids_drawn s;
        fetches_made := fetches_made s;
        trace := trace s |}).

Definition get_batchResults : M (list outcome) :=
  fun s => (inr (batchResults s), s).

(** [x.toFixed(1)] for what a guarded read selected: a number has
    the method; any other truthy value has no callable [toFixed]. *)
Definition toFixed (callee : jsstring) (x : option json) : M unit :=
  match x with
  | Some (JNumber _) | None => ret tt
  | Some _ => throw {| message := msg_not_a_function callee |}
  end.

(** The conversion to a primitive of what a guarded read selected. *)
Definition toPrimitive (x : option json) : M unit :=
  match x with
  | Some v =>
      if toPrimitive_throws v
      then throw {| message := msg_not_primitive |}
      else ret tt
  | None => ret tt
  end.

(** The block that [displayBatchResults] renders for one entry.  For
    a success it reads the score, compares it with 80, prints it with
    [toFixed(1)], and interpolates the title, the word count, the
    heading, the description and the readability; each step can throw
    as the value it meets dictates.  The markup itself is
    presentation and is not kept. *)
Definition renderOutcome (item : outcome) : M unit :=
  if success item then
    match result item with
    | None => throw {| message := msg_undefined_validation |}
    | Some JNull => throw {| message := msg_null_validation |}
    | Some r =>
        let score := nested r (lit "validation") (lit "overall_score") in
        toPrimitive score ;;
        toFixed (lit "score.toFixed") score ;;
        toPrimitive (nested r (lit "meta_tags") (lit "title")) ;;
        toPrimitive (nested r (lit "content") (lit "word_count")) ;;
        toPrimitive (nested r (lit "meta_tags") (lit "h1")) ;;
        toPrimitive (nested r (lit "meta_tags") (lit "description")) ;;
        toFixed (lit "item.result.content.readability_score.toFixed")
                (nested r (lit "content") (lit "readability_score"))
    end
  else ret tt.

(** [batchResults.forEach((item, index) => ...)] *)
Fixpoint forEach (f : outcome -> M unit) (l : list outcome) : M unit :=
  match l with
  | [] => ret tt
  | item :: rest => f item ;; forEach f rest
  end.

(** [displayBatchResults(batchResults)]: builds the markup of all
    entries, then puts it on the page and keeps the list in
    [window.batchResults]; when an entry throws, the page and
    [window.batchResults] are left as they were. *)
Definition displayBatchResults (l : list outcome) : M unit :=
  forEach renderOutcome l ;;
  fun s =>
    (inr tt,
     {| websocket := websocket s; sessionId := sessionId s;
        window_batchResults := Some l;
        batchResults := batchResults s;
        sockets_made := sockets_made s; ids_drawn := ids_drawn s;
        fetches_made := fetches_made s;
        trace := trace s ++ [Ui (DisplayBatchResults l)] |}).

(** The score that a success line prints,
    [result.validation && result.validation.overall_score
     ? result.validation.overall_score.toFixed(1) : '0']:
    [None] stands for ['0'].  Reading [validation] of [null] throws,
    and so does [toFixed] on a truthy score that is not a number. *)
Definition shown_score (r : ResultPayload) : M (option Q) :=
  match r with
  | JNull => throw {| message := msg_null_validation |}
  | _ =>
      match nested r (lit "validation") (lit "overall_score") with
      | None => ret None
      | Some (JNumber q) => ret (Some q)
      | Some _ =>
          throw {| message :=
                     msg_not_a_function
                       (lit "result.validation.overall_score.toFixed") |}
      end
  end.

(** [pageData.url || pageData.topic] *)
Definition page_label (pageData : WorkItem) : progress_label :=
  CurrentPage (or_else (Some (url pageData)) (topic pageData)).

(** [processRequest(data)]: the single submission. *)
Definition processRequest (data : SingleData) : M unit :=
  sid <- generateSessionId ;;
  set_sessionId sid ;;
  connectWebSocket sid ;;
  ui ShowLoading ;;
  try_finally
    (try_catch
       (response <- fetch (DataBody data sid) ;;
        if negb (fst response)
        then throw {| message := msg_request_failed |}
        else
          r <- response_json response ;;
          ui (DisplayResults r))
       (fun error => alert (msg_error_prefix ++ message error)))
    (ui HideLoading ;;
     closeWebSocket).

(** The body of the [for] loop of [processBatchRequest] for
    [pageData = batchData[i]]. *)
Definition batchTurn (delay : Z) (total : nat) (i : nat)
    (pageData : WorkItem) : M unit :=
  let pageNum := i + 1 in
  ui (UpdateBatchProgress i total (page_label pageData)) ;;
  ui (AddBatchLog processing
        (ProcessingPage pageNum total (url pageData))) ;;
  ui (AddLogEntry info
        (ProcessingPage pageNum total (url pageData))) ;;
  try_catch
    (sid <- generateSessionId ;;
     set_sessionId sid ;;
     connectWebSocket sid ;;
     response <- fetch (ItemBody pageData sid) ;;
     if negb (fst response)
     then throw {| message := msg_request_failed |}
     else
       r <- response_json response ;;
       push {| outcome_url := url pageData; success := true;
               result := Some r; error := None |} ;;
       score <- shown_score r ;;
       ui (AddBatchLog succeeded
             (PageSucceeded pageNum total (url pageData) score)) ;;
       score <- shown_score r ;;
       ui (AddLogEntry succeeded
             (PageSucceeded pageNum total (url pageData) score)) ;;
       closeWebSocket)
    (fun error =>
       let errorMsg :=
         or_else (Some (message error)) msg_unknown_error in
       push {| outcome_url := url pageData; success := false;
               result := None; error := Some errorMsg |} ;;
       ui (AddBatchLog failed
             (PageFailed pageNum total (url pageData) errorMsg)) ;;
       ui (AddLogEntry failed
             (PageFailed pageNum total (url pageData) errorMsg))) ;;
  ui (UpdateBatchProgress pageNum total (page_label pageData)) ;;
  if i <? total - 1
  then ui (AddBatchLog info (Waiting delay)) ;;
       emit (Sleep (delay * 1000))
  else ret tt.

(** [for (let i = 0; i < batchData.length; i++) { ... }] from index
    [i] on, [rest] being the items from [i]. *)
Fixpoint batchLoop (delay : Z) (total : nat) (i : nat)
    (rest : list WorkItem) : M unit :=
  match rest with
  | [] => ret tt
  | pageData :: rest' =>
      batchTurn delay total i pageData ;;
      batchLoop delay total (S i) rest'
  end.

Definition count_if (p : outcome -> bool) (l : list outcome) : nat :=
  List.length (filter p l).

(** [processBatchRequest] from the emptiness check of [batchData]
    on. *)
Definition runBatch (delay : Z) (batchData : list WorkItem) : M unit :=
  let total := List.length batchData in
  if total =? 0 then alert msg_nothing_to_process
  else
    ui ShowBatchPanels ;;
    ui ClearLogs ;;
    ui (UpdateBatchProgress 0 total Starting) ;;
    ui (AddBatchLog info (TotalPages total)) ;;
    ui (AddBatchLog info (DelayBetweenPages delay)) ;;
    ui (AddLogEntry info (BatchStarts total)) ;;
    new_batchResults ;;
    batchLoop delay total 0 batchData ;;
    ui (UpdateBatchProgress total total Finished) ;;
    ui (AddBatchLog succeeded BatchFinished) ;;
    l <- get_batchResults ;;
    ui (AddBatchLog info
          (Summary (List.length l) (count_if success l)
                   (count_if (fun r => negb (success r)) l))) ;;
    ui (AddLogEntry succeeded Banner) ;;
    ui (AddLogEntry info (ProcessedCount (List.length l))) ;;
    ui (AddLogEntry succeeded (SuccessCount (count_if success l))) ;;
    ui (AddLogEntry failed
          (ErrorCount (count_if (fun r => negb (success r)) l))) ;;
    displayBatchResults l.

(** [processBatchRequest(formData, generationMode)]. *)
Definition processBatchRequest (formData : FormData)
    (generationMode : jsstring) : M unit :=
  let delay :=
    match batchDelay formData with
    | Some 0%Z | None => 2%Z
    | Some d => d
    end in
  let brandName := batchBrandName formData in
  let businessType := batchBusinessType formData in
  let targetAudience := or_else (batchTargetAudience formData) [] in
  if eqb (batchInputType formData) (lit "simple") then
    if negb (truthy_opt (urlList formData)) then alert msg_no_url_list
    else
      runBatch delay
        (parseSimpleList (or_else (urlList formData) [])
           (keywordsList formData) generationMode brandName
           businessType targetAudience)
  else if eqb (batchInputType formData) (lit "csv") then
    match csvFile formData with
    | None => alert msg_no_csv_file
    | Some csvText =>
        runBatch delay
          (parseCSV csvText generationMode brandName businessType
                    targetAudience)
    end
  else
    if negb (truthy_opt (batchDataField formData))
    then alert msg_no_manual_text
    else
      runBatch delay
        (parseCSV (or_else (batchDataField formData) [])
                  generationMode brandName businessType targetAudience).

End Orchestrator.

(* ================================================================== *)
(** * Domain-list exports                                              *)
(* ================================================================== *)

(** [link.risk_score] as the JSON of the analysis carries it. *)
Inductive score_value :=
| Undefined
| Null
| Num (q : Q).

(** An entry of [currentLinkDetails]; a missing [domain] or
    [recommendation] is [None]. *)
Record LinkDetail := {
  domain : option jsstring;
  recommendation : option jsstring;
  risk_score : score_value
}.

(** What an export function ends in: an alert, or the download of a
    text file with the given content. *)
Inductive export_result :=
| ExportAlert (message : jsstring)
| Download (content : jsstring).

(** [Нет данных для скачивания] *)
Definition msg_no_download_data : jsstring :=
  [1053; 1077; 1090; 32; 1076; 1072; 1085; 1085; 1099; 1093; 32; 1076;
   1083; 1103; 32; 1089; 1082; 1072; 1095; 1080; 1074; 1072; 1085;
   1080; 1103]%N.


(** [Подозрительные домены не найдены] *)
Definition msg_no_suspicious : jsstring :=
  [1055; 1086; 1076; 1086; 1079; 1088; 1080; 1090; 1077; 1083; 1100;
   1085; 1099; 1077; 32; 1076; 1086; 1084; 1077; 1085; 1099; 32; 1085;
   1077; 32; 1085; 1072; 1081; 1076; 1077; 1085; 1099]%N.


(** [# Подозрительные домены (рекомендуется проверить вручную)] and a
    line feed *)
Definition suspicious_header : jsstring :=
  [35; 32; 1055; 1086; 1076; 1086; 1079; 1088; 1080; 1090; 1077; 1083;
   1100; 1085; 1099; 1077; 32; 1076; 1086; 1084; 1077; 1085; 1099; 32;
   40; 1088; 1077; 1082; 1086; 1084; 1077; 1085; 1076; 1091; 1077;
   1090; 1089; 1103; 32; 1087; 1088; 1086; 1074; 1077; 1088; 1080;
   1090; 1100; 32; 1074; 1088; 1091; 1095; 1085; 1091; 1102; 41;
   10]%N.

(** [.filter(domain => domain)] on the mapped domains: the non-empty
    strings stay. *)
Fixpoint filter_truthy (l : list (option jsstring)) : list jsstring :=
  match l with
  | [] => []
  | Some (c :: s) :: rest => (c :: s) :: filter_truthy rest
  | _ :: rest => filter_truthy rest
  end.

(** [.filter((domain, index, self) => self.indexOf(domain) === index)] *)
Definition unique (l : list jsstring) : list jsstring :=
  filter_indexed
    (fun d index self =>
       match indexOf self d with
       | Some first => first =? index
       | None => false
       end)
    l.

(** [domains.map(domain => `domain:${domain}`).join('\n')] *)
Definition domain_lines (domains : list jsstring) : jsstring :=
  join [newline] (List.map (fun d => lit "domain:" ++ d) domains).

Section Exports.
Context {cm : CaseMapping}.

(** [(link.recommendation || '').toLowerCase()] *)
Definition recommendationOf (link : LinkDetail) : jsstring :=
  toLowerCase (or_else (recommendation link) []).

(** The filter of [downloadToxicDomains]. *)
Definition isToxic (link : LinkDetail) : bool :=
  eqb (recommendationOf link) (lit "disavow")
  || match risk_score link with
     | Num q => Qle_bool 50 q
     | Undefined | Null => false
     end.

(** The filter of [downloadSuspiciousDomains]. *)
Definition isSuspicious (link : LinkDetail) : bool :=
  let riskScore :=
    match risk_score link with
    | Num q => q
    | Undefined | Null => 0%Q
    end in
  eqb (recommendationOf link) (lit "attention")
  || (negb (eqb (recommendationOf link) (lit "disavow"))
      && Qle_bool 30 riskScore && negb (Qle_bool 50 riskScore)).

Definition toxicDomains (currentLinkDetails : list LinkDetail)
  : list jsstring :=
  unique (filter_truthy
            (List.map domain (filter isToxic currentLinkDetails))).

Definition suspiciousDomains (currentLinkDetails : list LinkDetail)
  : list jsstring :=
  unique (filter_truthy
            (List.map domain (filter isSuspicious currentLinkDetails))).


(** [window.downloadSuspiciousDomains]. *)
Definition downloadSuspiciousDomains
    (currentLinkDetails : option (list LinkDetail)) : export_result :=
  match currentLinkDetails with
  | None | Some [] => ExportAlert msg_no_download_data
  | Some links =>
      if List.length (suspiciousDomains links) =? 0
      then ExportAlert msg_no_suspicious
      else Download (suspicious_header
                     ++ domain_lines (suspiciousDomains links))
  end.

End Exports.

(* ================================================================== *)
(** * The combined export and the domain counts of the result page     *)
(* ================================================================== *)



(** [set.add(x)] on a [Set] of strings kept in insertion order. *)
Definition set_add (x : jsstring) (set : list jsstring) : list jsstring :=
  if existsb (eqb x) set then set else set ++ [x].

Section MoreExports.
Context {cm : CaseMapping}.

(** [link.risk_score !== undefined && link.risk_score !== null ?
    link.risk_score : 0] *)
Definition riskScoreOf (link : LinkDetail) : Q :=
  match risk_score link with
  | Num q => q
  | Undefined | Null => 0%Q
  end.

(** The filter of [downloadToxicAndSuspiciousDomains]. *)
Definition isToxicOrSuspicious (link : LinkDetail) : bool :=
  eqb (recommendationOf link) (lit "disavow")
  || eqb (recommendationOf link) (lit "attention")
  || Qle_bool 30 (riskScoreOf link).

Definition toxicAndSuspiciousDomains (currentLinkDetails : list LinkDetail)
  : list jsstring :=
  unique (filter_truthy
            (List.map domain
                      (filter isToxicOrSuspicious currentLinkDetails))).


(** The body of [analyzedLinks.link_details.forEach(link => ...)] in
    [displayResults], on the pair of [toxicDomainsSet] and
    [suspiciousDomainsSet]. *)
Definition recountStep (sets : list jsstring * list jsstring)
    (link : LinkDetail) : list jsstring * list jsstring :=
  let recommendation := recommendationOf link in
  let riskScore := riskScoreOf link in
  let d := toLowerCase (or_else (domain link) []) in
  if truthy d then
    if eqb recommendation (lit "disavow") || Qle_bool 50 riskScore
    then (set_add d (fst sets), snd sets)
    else if eqb recommendation (lit "attention")
            || (Qle_bool 30 riskScore && negb (Qle_bool 50 riskScore))
    then (fst sets, set_add d (snd sets))
    else sets
  else sets.

(** The two sets [displayResults] builds from [link_details] (an
    absent or empty list leaves both empty). *)
Definition recountSets (link_details : list LinkDetail)
  : list jsstring * list jsstring :=
  fold_left recountStep link_details ([], []).

(** [toxicDomainsCount] and [suspiciousDomainsCount]. *)
Definition recountDomains (link_details : list LinkDetail) : nat * nat :=
  (List.length (fst (recountSets link_details)),
   List.length (snd (recountSets link_details))).

End MoreExports.

(* ================================================================== *)
(** * The submit listener of the form                                  *)
(* ================================================================== *)

(** [Будь ласка, заповніть URL та тему сторінки] *)
Definition msg_fill_url_and_topic : jsstring :=
  [1041; 1091; 1076; 1100; 32; 1083; 1072; 1089; 1082; 1072; 44; 32;
   1079; 1072; 1087; 1086; 1074; 1085; 1110; 1090; 1100; 32; 85; 82;
   76; 32; 1090; 1072; 32; 1090; 1077; 1084; 1091; 32; 1089; 1090;
   1086; 1088; 1110; 1085; 1082; 1080]%N.

(** [Будь ласка, заповніть обов'язкові поля: H1 ключове слово, Назва
    бренду та Тип бізнесу] *)
Definition msg_fill_required : jsstring :=
  [1041; 1091; 1076; 1100; 32; 1083; 1072; 1089; 1082; 1072; 44; 32;
   1079; 1072; 1087; 1086; 1074; 1085; 1110; 1090; 1100; 32; 1086;
   1073; 1086; 1074; 39; 1103; 1079; 1082; 1086; 1074; 1110; 32; 1087;
   1086; 1083; 1103; 58; 32; 72; 49; 32; 1082; 1083; 1102; 1095; 1086;
   1074; 1077; 32; 1089; 1083; 1086; 1074; 1086; 44; 32; 1053; 1072;
   1079; 1074; 1072; 32; 1073; 1088; 1077; 1085; 1076; 1091; 32; 1090;
   1072; 32; 1058; 1080; 1087; 32; 1073; 1110; 1079; 1085; 1077; 1089;
   1091]%N.

(** The message of the [TypeError] that reading [toLowerCase] of
    [null] throws; its wording is the engine's. *)
Definition msg_null_toLowerCase : jsstring :=
  lit "Cannot read properties of null (reading 'toLowerCase')".

(** [s.replace(/\s+/g, '-')]: every maximal run of white space becomes
    one hyphen.  [inRun] tells that the unit before was white space. *)
Fixpoint replaceSpaceRuns (inRun : bool) (s : jsstring) : jsstring :=
  match s with
  | [] => []
  | c :: t =>
      if isWhiteSpace c
      then if inRun then replaceSpaceRuns true t
           else 45%N :: replaceSpaceRuns true t
      else c :: replaceSpaceRuns false t
  end.

(** The fields the submit listener reads, each as [formData.get]
    gives it, and the fields of the batch mode. *)
Record SubmitForm := {
  f_generationMode : jsstring;
  f_processingMode : jsstring;
  f_url : option jsstring;
  f_topic : option jsstring;
  f_h1Keyword : option jsstring;
  f_brandName : option jsstring;
  f_businessType : option jsstring;
  f_targetAudience : option jsstring;
  f_chatgptUrl : option jsstring;
  f_batch : FormData
}.

Section SubmitListener.
Context {cm : CaseMapping}.
Variable w : world.

(** [`https://example.com/${h1Keyword.toLowerCase().replace(/\s+/g, '-')}`] *)
Definition defaultUrl (h1Keyword : jsstring) : jsstring :=
  lit "https://example.com/"
  ++ replaceSpaceRuns false (toLowerCase h1Keyword).

(** [formData.get('chatgptUrl') || `https://example.com/...`]: the
    right operand is evaluated, and can throw, only when the field is
    missing or empty. *)
Definition chatgptUrlOrDefault (f : SubmitForm) : M jsstring :=
  if truthy_opt (f_chatgptUrl f)
  then ret (or_else (f_chatgptUrl f) [])
  else match f_h1Keyword f with
       | Some h1Keyword => ret (defaultUrl h1Keyword)
       | None => throw {| message := msg_null_toLowerCase |}
       end.

(** The [meta_only] branch and the last branch of the listener; they
    differ in the instruction template only. *)
Definition brandedSubmit
    (template : jsstring -> jsstring -> jsstring -> jsstring -> jsstring
                -> jsstring)
    (f : SubmitForm) : M unit :=
  let targetAudience := or_else (f_targetAudience f) [] in
  u <- chatgptUrlOrDefault f ;;
  if negb (truthy_opt (f_h1Keyword f))
     || negb (truthy_opt (f_brandName f))
     || negb (truthy_opt (f_businessType f))
  then alert msg_fill_required
  else
    let h1Keyword := or_else (f_h1Keyword f) [] in
    let detectedLanguage := detectLanguage (Some h1Keyword) in
    processRequest w
      {| data_url := u;
         data_topic := h1Keyword;
         data_keyword := Some h1Keyword;
         data_target_audience := Some targetAudience;
         data_language := Some detectedLanguage;
         data_user_query :=
           template u h1Keyword (or_else (f_brandName f) [])
                    (or_else (f_businessType f) []) targetAudience |}.

(** The submit listener that [initializeFormHandler] installs on the
    form. *)
Definition seoFormSubmit (f : SubmitForm) : M unit :=
  let generationMode := f_generationMode f in
  if eqb (f_processingMode f) (lit "batch")
     && negb (eqb generationMode (lit "link_analysis"))
  then processBatchRequest w (f_batch f) generationMode
  else if eqb generationMode (lit "auto") then
    if negb (truthy_opt (f_url f)) || negb (truthy_opt (f_topic f))
    then alert msg_fill_url_and_topic
    else
      let u := or_else (f_url f) [] in
      let t := or_else (f_topic f) [] in
      processRequest w
        {| data_url := u;
           data_topic := t;
           data_keyword := None;
           data_target_audience := None;
           data_language := None;
           data_user_query := autoQuery u t |}
  else if eqb generationMode (lit "link_analysis") then ret tt
  else if eqb generationMode (lit "meta_only")
  then brandedSubmit metaOnlyQuery f
  else brandedSubmit chatgptQuery f.

End SubmitListener.

(* ================================================================== *)
(** * The mode toggles of the form                                     *)
(* ================================================================== *)

(** The blocks of the form whose [style.display] the toggles set, by
    their element ids. *)
Inductive element :=
| autoModeFields
| chatgptSingleFields
| batchBusinessFields
| linkBuilderFields
| batchModeFields
| singlePageFields
| simpleInputField
| keywordsInputField
| csvUploadField
| manualInputField.

Definition element_eqb (a b : element) : bool :=
  match a, b with
  | autoModeFields, autoModeFields
  | chatgptSingleFields, chatgptSingleFields
  | batchBusinessFields, batchBusinessFields
  | linkBuilderFields, linkBuilderFields
  | batchModeFields, batchModeFields
  | singlePageFields, singlePageFields
  | simpleInputField, simpleInputField
  | keywordsInputField, keywordsInputField
  | csvUploadField, csvUploadField
  | manualInputField, manualInputField => true
  | _, _ => false
  end.

(** The page as the toggles see it, all its blocks being present: the
    values of the two selects, the value of the checked
    [batchInputType] radio, and for every block whether its display
    is [block] ([true]) or [none] ([false]). *)
Record Page := {
  generationMode_value : jsstring;
  processingMode_value : jsstring;
  batchInputType_checked : jsstring;
  displayed : element -> bool
}.

(** [e.style.display = 'block'] for [true], [= 'none'] for [false]. *)
Definition set_display (e : element) (b : bool) (page : Page) : Page :=
  {| generationMode_value := generationMode_value page;
     processingMode_value := processingMode_value page;
     batchInputType_checked := batchInputType_checked page;
     displayed := fun x => if element_eqb x e then b else displayed page x |}.

Definition show (e : element) : Page -> Page := set_display e true.
Definition hide (e : element) : Page -> Page := set_display e false.

(** Statements in sequence, first to last. *)
Fixpoint do_all (steps : list (Page -> Page)) (page : Page) : Page :=
  match steps with
  | [] => page
  | step :: rest => do_all rest (step page)
  end.

(** [toggleGenerationMode()]. *)
Definition toggleGenerationMode (page : Page) : Page :=
  let mode := generationMode_value page in
  let processingMode := processingMode_value page in
  let page :=
    do_all [hide autoModeFields; hide chatgptSingleFields;
            hide linkBuilderFields; hide batchModeFields] page in
  if eqb processingMode (lit "single") then
    if eqb mode (lit "auto") then
      do_all [show autoModeFields; hide chatgptSingleFields;
              hide linkBuilderFields] page
    else if eqb mode (lit "meta_only") then
      do_all [hide autoModeFields; show chatgptSingleFields;
              hide linkBuilderFields] page
    else if eqb mode (lit "link_analysis") then
      do_all [hide autoModeFields; hide chatgptSingleFields;
              show linkBuilderFields] page
    else
      do_all [hide autoModeFields; show chatgptSingleFields;
              hide linkBuilderFields] page
  else if eqb processingMode (lit "batch") then
    let page :=
      if eqb mode (lit "chatgpt") || eqb mode (lit "meta_only")
      then show batchBusinessFields page
      else hide batchBusinessFields page in
    if eqb mode (lit "link_analysis") then
      do_all [hide batchModeFields; show linkBuilderFields;
              hide simpleInputField; hide keywordsInputField;
              hide csvUploadField; hide manualInputField] page
    else
      do_all [show batchModeFields; hide linkBuilderFields] page
  else page.

(** [toggleBatchInput()]. *)
Definition toggleBatchInput (page : Page) : Page :=
  if eqb (generationMode_value page) (lit "link_analysis") then page
  else
    let inputType := batchInputType_checked page in
    let page :=
      do_all [hide simpleInputField; hide keywordsInputField;
              hide csvUploadField; hide manualInputField] page in
    let page :=
      if eqb inputType (lit "simple")
      then do_all [show simpleInputField; show keywordsInputField] page
      else if eqb inputType (lit "csv") then show csvUploadField page
      else show manualInputField page in
    toggleGenerationMode page.

(** [toggleProcessingMode()]. *)
Definition toggleProcessingMode (page : Page) : Page :=
  let mode := processingMode_value page in
  let generationMode := generationMode_value page in
  if eqb mode (lit "single") then
    toggleGenerationMode
      (do_all [show singlePageFields; hide batchModeFields] page)
  else
    let page := hide singlePageFields page in
    let page :=
      if eqb generationMode (lit "link_analysis") then
        do_all [hide batchModeFields; show linkBuilderFields;
                hide simpleInputField; hide keywordsInputField;
                hide csvUploadField; hide manualInputField] page
      else
        do_all [show batchModeFields; hide linkBuilderFields] page in
    toggleBatchInput
      (do_all [hide autoModeFields; hide chatgptSingleFields] page).

(* ================================================================== *)
(** * Vocabulary of the statements                                     *)
(* ================================================================== *)

Unset Implicit Arguments.

(** The code units of a text written here in UTF-8: one unit for a
    character of one, two or three bytes. *)
Fixpoint utf16 (s : string) : jsstring :=
  match s with
  | EmptyString => []
  | String a rest =>
      let b := N_of_ascii a in
      if (b <? 128)%N then b :: utf16 rest
      else if (b <? 224)%N then
        match rest with
        | String a2 rest' =>
            ((b mod 32) * 64 + N_of_ascii a2 mod 64)%N :: utf16 rest'
        | EmptyString => [b]
        end
      else
        match rest with
        | String a2 (String a3 rest') =>
            ((b mod 16) * 4096 + (N_of_ascii a2 mod 64) * 64
             + N_of_ascii a3 mod 64)%N :: utf16 rest'
        | _ => [b]
        end
  end.
Arguments utf16 s%_string.

(** The double quote. *)
Definition quote : jsstring := [34%N].

(** The trimmed non-blank lines of a text, in order. *)
Definition clean (lines : list jsstring) : list jsstring :=
  filter truthy (List.map trim lines).

Definition nonBlankLines (text : jsstring) : list jsstring :=
  clean (split newline text).

(** A string of white space only. *)
Definition blank (s : jsstring) : bool := forallb isWhiteSpace s.

(** The number of patterns of a set that match a text. *)
Definition matches (patterns : list (jsstring -> bool)) (text : jsstring)
  : nat :=
  List.length (filter (fun pattern => pattern text) patterns).

(** A link that carries no tag: its lower-cased recommendation is
    neither [disavow] nor [attention]. *)
Definition untagged {cm : CaseMapping} (link : LinkDetail) : Prop :=
  recommendationOf link <> lit "disavow"
  /\ recommendationOf link <> lit "attention".

(** No other entry of the list carries the domain of [link]. *)
Definition sole_carrier (links : list LinkDetail) (link : LinkDetail)
  : Prop :=
  forall other, In other links -> domain other = domain link ->
                other = link.

(** A link of score 49.9 without recommendation, and one tagged
    [Disavow] with a score of 40. *)
Definition link_49_9 : LinkDetail :=
  {| domain := Some (lit "b.com"); recommendation := None;
     risk_score := Num (499 # 10) |}.

Definition link_disavow_40 : LinkDetail :=
  {| domain := Some (lit "a.com"); recommendation := Some (lit "Disavow");
     risk_score := Num (40 # 1) |}.

(** A trimmed line that [parseCSV] turns into an item: not blank, not
    starting with the header token, at least two fields. *)
Definition accepted (line : jsstring) : bool :=
  truthy line && negb (startsWith line (lit "url,"))
  && (2 <=? List.length (split comma line)).

(** The trimmed comma-separated fields of a line. *)
Definition fields (line : jsstring) : list jsstring :=
  List.map trim (split comma line).

(** The first candidate that is present and non-empty, else the
    default. *)
Fixpoint firstNonEmpty (candidates : list (option jsstring))
    (default : jsstring) : jsstring :=
  match candidates with
  | [] => default
  | Some (c :: s) :: _ => c :: s
  | _ :: rest => firstNonEmpty rest default
  end.

(** A text from its lines. *)
Definition text_of (lines : list jsstring) : jsstring :=
  join [newline] lines.

(** The topic of the URL at line [i] when keywords are taken by line
    position: the trimmed [i]-th line of the keyword list when that
    line is not blank, the derived topic otherwise. *)
Definition topic_by_line_position {cm : CaseMapping}
    (keywordLines : list jsstring) (i : nat) (cleanUrl : jsstring)
  : jsstring :=
  match nth_error keywordLines i with
  | Some k => if truthy (trim k) then trim k else derivedTopic cleanUrl
  | None => derivedTopic cleanUrl
  end.

(** The sample lists of the statements on [parseSimpleList]: three
    URLs, and three keyword lines of which the middle one is blank. *)
Definition three_urls : jsstring :=
  text_of [lit "https://x.com/u1"; lit "https://x.com/u2";
           lit "https://x.com/u3"].

Definition keywords_with_gap : jsstring :=
  text_of [lit "k1"; []; lit "k3"].

(** A CSV text: the header, a line of two fields, a line of four
    fields with an empty brand, a line without comma. *)
Definition sample_csv : jsstring :=
  text_of [lit "url,topic"; lit "https://a.com,Shoes";
           lit "https://b.com,Hats,,retail"; lit "no-comma"].

(** What a batch records for an item, given the reply to its
    submission: the result on an accepted and parsed reply, and
    otherwise a failure with the message of the error (the fixed
    message on a non-success HTTP status). *)
Definition outcome_of (item : WorkItem) (reply : fetch_reply) : outcome :=
  let failure msg :=
    {| outcome_url := url item; success := false; result := None;
       error := Some (match msg with
                      | [] => msg_unknown_error
                      | _ => msg
                      end) |} in
  match reply with
  | NetworkFailure msg => failure msg
  | Response false _ => failure msg_request_failed
  | Response true (inl msg) => failure msg
  | Response true (inr r) =>
      {| outcome_url := url item; success := true; result := Some r;
         error := None |}
  end.

(** The outcomes of the items [rest] when their submissions are the
    [k]-th and following ones of the environment. *)
Definition outcomes_from (w : world) (k : nat) (rest : list WorkItem)
  : list outcome :=
  List.map (fun p => outcome_of (snd p) (replies w (fst p)))
           (combine (seq k (List.length rest)) rest).

(** The items submitted in a trace, in order. *)
Fixpoint submitted (tr : list event) : list WorkItem :=
  match tr with
  | [] => []
  | Fetch (ItemBody item _) :: tr' => item :: submitted tr'
  | _ :: tr' => submitted tr'
  end.

(** The sockets opened and the sockets closed in a trace, in order. *)
Fixpoint opened (tr : list event) : list nat :=
  match tr with
  | [] => []
  | WsOpen socket _ :: tr' => socket :: opened tr'
  | _ :: tr' => opened tr'
  end.

Fixpoint closed (tr : list event) : list nat :=
  match tr with
  | [] => []
  | WsClose socket :: tr' => socket :: closed tr'
  | _ :: tr' => closed tr'
  end.

(** The required input of the selected batch mode is missing. *)
Definition required_input_missing (formData : FormData) : bool :=
  if eqb (batchInputType formData) (lit "simple")
  then negb (truthy_opt (urlList formData))
  else if eqb (batchInputType formData) (lit "csv")
  then match csvFile formData with None => true | Some _ => false end
  else negb (truthy_opt (batchDataField formData)).

(** The items parsed from the input of the selected batch mode. *)
Definition parsedItems {cm : CaseMapping} (formData : FormData)
    (generationMode : jsstring) : list WorkItem :=
  let brandName := batchBrandName formData in
  let businessType := batchBusinessType formData in
  let targetAudience := or_else (batchTargetAudience formData) [] in
  if eqb (batchInputType formData) (lit "simple")
  then parseSimpleList (or_else (urlList formData) [])
         (keywordsList formData) generationMode brandName businessType
         targetAudience
  else if eqb (batchInputType formData) (lit "csv")
  then parseCSV (or_else (csvFile formData) []) generationMode brandName
         businessType targetAudience
  else parseCSV (or_else (batchDataField formData) []) generationMode
         brandName businessType targetAudience.

(** Of the channels [sockets], opened one per outcome, those whose
    item succeeded. *)
Definition channels_of_successes (sockets : list nat)
    (outcomes : list outcome) : list nat :=
  List.map fst (filter (fun p => success (snd p)) (combine sockets outcomes)).

(** A result whose success line can be written: it is not [null], and
    its [validation.overall_score], when [validation] and the score
    are both truthy, is a number. *)
Definition scored (r : ResultPayload) : bool :=
  match r with
  | JNull => false
  | _ =>
      match nested r (lit "validation") (lit "overall_score") with
      | Some (JNumber _) | None => true
      | Some _ => false
      end
  end.

(** The score printed for a result, [None] for the literal zero. *)
Definition printed_score (r : ResultPayload) : option Q :=
  match nested r (lit "validation") (lit "overall_score") with
  | Some (JNumber q) => Some q
  | _ => None
  end.

(** The message of the [TypeError] that the success line of a result
    without score raises. *)
Definition score_error (r : ResultPayload) : jsstring :=
  match r with
  | JNull => msg_null_validation
  | _ => msg_not_a_function (lit "result.validation.overall_score.toFixed")
  end.

(** A reply that is accepted and whose body parses. *)
Definition accepted_reply (reply : fetch_reply) : option ResultPayload :=
  match reply with
  | Response true (inr r) => Some r
  | _ => None
  end.

(** An accepted reply whose result has no score line: the turn of its
    item throws after the success was recorded. *)
Definition spoiled (reply : fetch_reply) : bool :=
  match accepted_reply reply with
  | Some r => negb (scored r)
  | None => false
  end.

Definition is_accepted (reply : fetch_reply) : bool :=
  match accepted_reply reply with
  | Some _ => true
  | None => false
  end.

(** The turn of the item reaches the end of its [try] block. *)
Definition finished (reply : fetch_reply) : bool :=
  is_accepted reply && negb (spoiled reply).

(** All that a batch records for an item: the entry of its reply, and
    after a success without score line a failure entry as well. *)
Definition outcomes_of (item : WorkItem) (reply : fetch_reply)
  : list outcome :=
  outcome_of item reply
  :: match accepted_reply reply with
     | Some r =>
         if scored r then []
         else [{| outcome_url := url item; success := false;
                  result := None; error := Some (score_error r) |}]
     | None => []
     end.

(** The replies to the [n] submissions from the [k]-th on. *)
Definition replies_from (w : world) (k n : nat) : list fetch_reply :=
  List.map (replies w) (seq k n).

Definition all_outcomes_from (w : world) (k : nat) (rest : list WorkItem)
  : list outcome :=
  List.concat (List.map (fun p => outcomes_of (snd p) (replies w (fst p)))
                   (combine (seq k (List.length rest)) rest)).

(** Of the channels [sockets], opened one per reply, those whose turn
    reached the end of its [try] block. *)
Definition channels_of_finished (sockets : list nat)
    (rs : list fetch_reply) : list nat :=
  List.map fst (filter (fun p => finished (snd p)) (combine sockets rs)).

(** The submissions and the waits of a trace, in order. *)
Inductive beat :=
| Submission
| Pause (milliseconds : Z).

Fixpoint beats (tr : list event) : list beat :=
  match tr with
  | [] => []
  | Fetch _ :: tr' => Submission :: beats tr'
  | Sleep ms :: tr' => Pause ms :: beats tr'
  | _ :: tr' => beats tr'
  end.

(** [n] submissions with a wait between every two of them, and none
    after the last. *)
Fixpoint paced (ms : Z) (n : nat) : list beat :=
  match n with
  | 0 => []
  | S n' =>
      Submission
      :: match n' with
         | 0 => []
         | S _ => Pause ms :: paced ms n'
         end
  end.

(** Environments whose replies are accepted but hold no result
    object: the body [null], and a score given as a string. *)
Definition null_replies : world :=
  {| session_ids := fun _ => lit "session_abc";
     replies := fun _ => Response true (inr JNull) |}.

Definition text_score : ResultPayload :=
  JObject [(lit "validation",
            JObject [(lit "overall_score", JString (lit "87.5"))])].

Definition text_score_replies : world :=
  {| session_ids := fun _ => lit "session_abc";
     replies := fun _ => Response true (inr text_score) |}.

(** An environment in which no submission reaches the server. *)
Definition network_down : world :=
  {| session_ids := fun _ => lit "session_abc";
     replies := fun _ => NetworkFailure (lit "Failed to fetch") |}.

(** A form in simple-list mode with the given URL list and no other
    field filled in. *)
Definition simple_form (urlText : jsstring) : FormData :=
  {| batchInputType := lit "simple"; batchDelay := None;
     urlList := Some urlText; keywordsList := None;
     batchBrandName := None; batchBusinessType := None;
     batchTargetAudience := None; csvFile := None;
     batchDataField := None |}.

Definition empty_result : ResultPayload := JObject [].

(** An environment in which every submission is answered with a
    non-success HTTP status, and one in which only the second is. *)
Definition all_rejected : world :=
  {| session_ids := fun _ => lit "session_abc";
     replies := fun _ => Response false (inl []) |}.

Definition second_rejected : world :=
  {| session_ids := fun _ => lit "session_abc";
     replies := fun k => if k =? 1 then Response false (inl [])
                         else Response true (inr empty_result) |}.

(** An environment whose first reply is accepted with the body
    [null], every later one with an empty result object. *)
Definition first_null : world :=
  {| session_ids := fun _ => lit "session_abc";
     replies := fun k => if k =? 0 then Response true (inr JNull)
                         else Response true (inr empty_result) |}.

Definition one_request : SingleData :=
  {| data_url := lit "https://x.com/u1"; data_topic := lit "u1";
     data_keyword := None; data_target_audience := None;
     data_language := None;
     data_user_query := autoQuery (lit "https://x.com/u1") (lit "u1") |}.

(** The delays slept in a trace, in milliseconds, in order. *)
Fixpoint sleeps (tr : list event) : list Z :=
  match tr with
  | [] => []
  | Sleep ms :: tr' => ms :: sleeps tr'
  | _ :: tr' => sleeps tr'
  end.

(** The session identifiers of the channels opened in a trace, and
    those carried by the submissions of a trace, in order. *)
Fixpoint channel_sessions (tr : list event) : list jsstring :=
  match tr with
  | [] => []
  | WsOpen _ sid :: tr' => sid :: channel_sessions tr'
  | _ :: tr' => channel_sessions tr'
  end.

Fixpoint request_sessions (tr : list event) : list jsstring :=
  match tr with
  | [] => []
  | Fetch (ItemBody _ sid) :: tr' => sid :: request_sessions tr'
  | Fetch (DataBody _ sid) :: tr' => sid :: request_sessions tr'
  | _ :: tr' => request_sessions tr'
  end.

(** The totals of the summary lines of the batch log in a trace. *)
Fixpoint summaries (tr : list event) : list (nat * nat * nat) :=
  match tr with
  | [] => []
  | Ui (AddBatchLog _ (Summary total ok bad)) :: tr' =>
      (total, ok, bad) :: summaries tr'
  | _ :: tr' => summaries tr'
  end.

(** The alerts of a trace and its submissions of single requests, in
    order. *)
Fixpoint alerts (tr : list event) : list jsstring :=
  match tr with
  | [] => []
  | Alert msg :: tr' => msg :: alerts tr'
  | _ :: tr' => alerts tr'
  end.

Fixpoint single_requests (tr : list event) : list SingleData :=
  match tr with
  | [] => []
  | Fetch (DataBody data _) :: tr' => data :: single_requests tr'
  | _ :: tr' => single_requests tr'
  end.

(** The delay between items that [processBatchRequest] takes from the
    form: two seconds when the field does not parse or is zero. *)
Definition delay_seconds (formData : FormData) : Z :=
  match batchDelay formData with
  | Some d => if (d =? 0)%Z then 2%Z else d
  | None => 2%Z
  end.


(** Upper-casing keeps ASCII within ASCII, as the Unicode tables do;
    the canonical form of an ASCII code unit is then ASCII. *)
Definition ascii_upper_closed (cm : CaseMapping) : Prop :=
  forall c, (c < 128)%N -> (Re.Canonicalize c < 128)%N.

(** A form in the single processing mode with the given generation
    mode and keyword fields, every other field missing. *)
Definition single_form (mode : jsstring)
    (h1Keyword brandName businessType : option jsstring) : SubmitForm :=
  {| f_generationMode := mode; f_processingMode := lit "single";
     f_url := None; f_topic := None; f_h1Keyword := h1Keyword;
     f_brandName := brandName; f_businessType := businessType;
     f_targetAudience := None; f_chatgptUrl := None;
     f_batch := simple_form [] |}.

(** A text without white space. *)
Definition spaceless (s : jsstring) : bool :=
  forallb (fun c => negb (isWhiteSpace c)) s.

(** A text cut at its runs of white space: a first word, then every
    run with the word that follows it.  The words hold no white
    space, the runs hold nothing else and are not empty, and no word
    but the first and the last is empty. *)
Definition spelled (first : jsstring) (rest : list (jsstring * jsstring))
  : jsstring :=
  first ++ List.concat (List.map (fun rw => fst rw ++ snd rw) rest).

Fixpoint runs_and_words (rest : list (jsstring * jsstring)) : bool :=
  match rest with
  | [] => true
  | (run, word) :: rest' =>
      truthy run && blank run && spaceless word
      && (truthy word || match rest' with [] => true | _ :: _ => false end)
      && runs_and_words rest'
  end.

Definition cut_at_runs (first : jsstring)
    (rest : list (jsstring * jsstring)) : bool :=
  spaceless first && runs_and_words rest.

(** The words of a text cut at its runs, with one hyphen for every
    run. *)
Definition hyphenated (first : jsstring)
    (rest : list (jsstring * jsstring)) : jsstring :=
  first ++ List.concat (List.map (fun rw => 45%N :: snd rw) rest).

(** A page with the given selections on which every block is hidden. *)
Definition hidden_page (generationMode processingMode inputType : jsstring)
    : Page :=
  {| generationMode_value := generationMode;
     processingMode_value := processingMode;
     batchInputType_checked := inputType;
     displayed := fun _ => false |}.

(* ================================================================== *)
(** * Facts about the string built-ins                                 *)
(* ================================================================== *)

Section StringFacts.

Lemma eqb_eq (a b : jsstring) : eqb a b = true <-> a = b.
Proof.
  revert b; induction a as [|x a IH]; intros [|y b]; simpl;
    try (split; [discriminate | discriminate]); try tauto.
  rewrite andb_true_iff, N.eqb_eq, IH.
  split; [intros [-> ->]; reflexivity | intros [= -> ->]; auto].
Qed.

Lemma eqb_refl (a : jsstring) : eqb a a = true.
Proof. apply eqb_eq; reflexivity. Qed.

Lemma eqb_neq (a b : jsstring) : eqb a b = false <-> a <> b.
Proof.
  rewrite <- eqb_eq. destruct (eqb a b); split; congruence.
Qed.

Lemma truthy_true (s : jsstring) : truthy s = true <-> s <> [].
Proof. destruct s; simpl; split; congruence. Qed.

Lemma trimStart_blank s : blank s = true -> trimStart s = [].
Proof.
  induction s as [|c s IH]; simpl; auto.
  intros H; apply andb_true_iff in H as [-> H]; auto.
Qed.

Lemma trimEnd_blank s : blank s = true -> trimEnd s = [].
Proof.
  induction s as [|c s IH]; simpl; auto.
  intros H; apply andb_true_iff in H as [Hc H].
  rewrite (IH H), Hc; reflexivity.
Qed.

Lemma trimEnd_app_blank s r :
  blank r = true -> trimEnd (s ++ r) = trimEnd s.
Proof.
  intros Hr; induction s as [|c s IH]; simpl.
  - apply trimEnd_blank; assumption.
  - rewrite IH; reflexivity.
Qed.

Lemma trimEnd_split s : exists r, blank r = true /\ s = trimEnd s ++ r.
Proof.
  induction s as [|c s (r & Hr & E)]; simpl.
  - exists []; auto.
  - destruct (trimEnd s) as [|x t] eqn:T.
    + destruct (isWhiteSpace c) eqn:Hc.
      * exists (c :: r); simpl in *; rewrite Hc, Hr; subst; auto.
      * exists r; simpl in *; split; [assumption | congruence].
    + exists r; split; [assumption|].
      simpl in *; congruence.
Qed.

Lemma trim_blank s : blank s = true -> trim s = [].
Proof. intros H; unfold trim; rewrite trimStart_blank; auto. Qed.

Lemma trim_space_cons c s :
  isWhiteSpace c = true -> trim (c :: s) = trim s.
Proof. intros H; unfold trim; simpl; rewrite H; reflexivity. Qed.

Lemma trim_app_blank s r : blank r = true -> trim (s ++ r) = trim s.
Proof.
  intros Hr; unfold trim; induction s as [|c s IH]; simpl.
  - rewrite trimStart_blank; auto.
  - destruct (isWhiteSpace c); auto.
    change (c :: s ++ r) with ((c :: s) ++ r).
    apply trimEnd_app_blank; assumption.
Qed.

Lemma split_cons sep s : exists h t, split sep s = h :: t.
Proof.
  induction s as [|c s (h & t & E)]; simpl; eauto.
  destruct (N.eqb c sep); rewrite ?E; eauto.
Qed.

Lemma clean_cons h t :
  clean (h :: t) = if truthy (trim h) then trim h :: clean t else clean t.
Proof. reflexivity. Qed.

Lemma clean_split_space_cons c s :
  isWhiteSpace c = true ->
  clean (split newline (c :: s)) = clean (split newline s).
Proof.
  intros Hc; simpl.
  destruct (N.eqb c newline).
  - reflexivity.
  - destruct (split_cons newline s) as (h & t & ->).
    rewrite !clean_cons, (trim_space_cons _ _ Hc); reflexivity.
Qed.

Lemma clean_split_trimStart s :
  clean (split newline (trimStart s)) = clean (split newline s).
Proof.
  induction s as [|c s IH]; simpl trimStart; auto.
  destruct (isWhiteSpace c) eqn:Hc; auto.
  rewrite IH; symmetry; apply clean_split_space_cons; assumption.
Qed.

Lemma split_blank q :
  blank q = true ->
  forall h t, split newline q = h :: t ->
              blank h = true /\ clean t = [].
Proof.
  induction q as [|c q IH]; simpl; intros Hq h t E.
  - injection E as <- <-; auto.
  - apply andb_true_iff in Hq as [Hc Hq].
    destruct (split_cons newline q) as (h' & t' & E').
    destruct (IH Hq _ _ E') as [Hh Ht].
    rewrite E' in E.
    destruct (N.eqb c newline); injection E as <- <-.
    + split; auto.
      rewrite clean_cons, (trim_blank _ Hh); assumption.
    + split; auto. simpl; rewrite Hc; assumption.
Qed.

Lemma split_app_blank q s :
  blank q = true ->
  forall h t h1 t1,
    split newline s = h :: t ->
    split newline (s ++ q) = h1 :: t1 ->
    (exists r, blank r = true /\ h1 = h ++ r) /\ clean t1 = clean t.
Proof.
  intros Hq; induction s as [|c s IH]; intros h t h1 t1 E E1.
  - simpl in *. injection E as <- <-.
    destruct (split_blank _ Hq _ _ E1) as [Hh Ht].
    split; [exists h1; auto | assumption].
  - simpl in E, E1.
    destruct (split_cons newline s) as (a & b & Ea).
    destruct (split_cons newline (s ++ q)) as (a1 & b1 & Ea1).
    destruct (IH _ _ _ _ Ea Ea1) as [(r & Hr & ->) Hb].
    rewrite Ea in E; rewrite Ea1 in E1.
    destruct (N.eqb c newline);
      injection E as <- <-; injection E1 as <- <-.
    + split; [exists []; auto|].
      rewrite !clean_cons, (trim_app_blank _ _ Hr), Hb; reflexivity.
    + split; [exists r; auto | assumption].
Qed.

Lemma clean_split_app_blank q s :
  blank q = true ->
  clean (split newline (s ++ q)) = clean (split newline s).
Proof.
  intros Hq.
  destruct (split_cons newline s) as (h & t & E).
  destruct (split_cons newline (s ++ q)) as (h1 & t1 & E1).
  destruct (split_app_blank _ _ Hq _ _ _ _ E E1) as [(r & Hr & ->) Ht].
  rewrite E, E1, !clean_cons, (trim_app_blank _ _ Hr), Ht; reflexivity.
Qed.

(** Trimming a text first does not change its trimmed non-blank
    lines. *)
Lemma nonBlankLines_trim s : nonBlankLines (trim s) = nonBlankLines s.
Proof.
  unfold nonBlankLines, trim.
  destruct (trimEnd_split (trimStart s)) as (r & Hr & E).
  transitivity (clean (split newline (trimStart s)));
    [| apply clean_split_trimStart].
  rewrite <- (clean_split_app_blank r (trimEnd (trimStart s)) Hr), <- E.
  reflexivity.
Qed.

Lemma clean_filter_map (l : list jsstring) :
  List.map trim (filter (fun u => truthy (trim u)) l) = clean l.
Proof.
  unfold clean; induction l as [|x l IH]; simpl; auto.
  destruct (truthy (trim x)); simpl; rewrite IH; reflexivity.
Qed.

End StringFacts.

(* ================================================================== *)
(** * The language detector                                            *)
(* ================================================================== *)

Section LanguageFacts.
Context {cm : CaseMapping}.

Lemma score_from (patterns : list (jsstring -> bool)) text n :
  fold_left
    (fun (sc : nat) (pattern : jsstring -> bool) =>
       if pattern text then S sc else sc)
    patterns n
  = n + matches patterns text.
Proof.
  unfold matches; revert n.
  induction patterns as [|p ps IH]; intros n; simpl.
  - lia.
  - rewrite IH; destruct (p text); simpl; lia.
Qed.

Lemma score_matches patterns text :
  score patterns text = matches patterns text.
Proof. unfold score; rewrite score_from; reflexivity. Qed.

Lemma en_matched text :
  (0 <? matches enPatterns text) = (enChars text || enKeywords text).
Proof.
  unfold matches, enPatterns; simpl.
  destruct (enChars text), (enKeywords text); reflexivity.
Qed.

(** C8. For an undefined (or null) text and for the empty text,
    [detectLanguage] answers [uk]. *)
Theorem detectLanguage_empty_or_undefined :
  detectLanguage None = uk /\ detectLanguage (Some []) = uk.
Proof. split; reflexivity. Qed.

(** C6. For a non-empty text the decision goes in this order: [en]
    when at least one English pattern matches and neither the
    Ukrainian nor the Russian character-range pattern does;
    otherwise [ru] when more Russian than Ukrainian patterns match;
    otherwise [uk], whether the Ukrainian score is positive or
    not. *)
Theorem detectLanguage_decision_order (text : jsstring) :
  text <> [] ->
  let english :=
    (enChars text || enKeywords text)
    && negb (ukChars text) && negb (ruChars text) in
  let ukScore := matches ukPatterns text in
  let ruScore := matches ruPatterns text in
  (english = true -> detectLanguage (Some text) = en)
  /\ (english = false -> ukScore < ruScore ->
      detectLanguage (Some text) = ru)
  /\ (english = false -> ~ ukScore < ruScore -> 0 < ukScore ->
      detectLanguage (Some text) = uk)
  /\ (english = false -> ~ ukScore < ruScore -> ukScore = 0 ->
      detectLanguage (Some text) = uk).
Proof.
  intros Hne english ukScore ruScore.
  assert (E : detectLanguage (Some text)
              = if english then en
                else if ukScore <? ruScore then ru
                else if 0 <? ukScore then uk else uk).
  { unfold detectLanguage.
    destruct text as [|c text']; [congruence|].
    rewrite !score_matches, en_matched. reflexivity. }
  rewrite E; clear E.
  repeat split; intros H; rewrite H; [reflexivity | ..].
  - intros Hlt; apply Nat.ltb_lt in Hlt; rewrite Hlt; reflexivity.
  - intros Hge _; apply Nat.ltb_nlt in Hge; rewrite Hge.
    destruct (0 <? ukScore); reflexivity.
  - intros Hge _; apply Nat.ltb_nlt in Hge; rewrite Hge.
    destruct (0 <? ukScore); reflexivity.
Qed.

End LanguageFacts.

(** An English keyword in Latin letters: the first branch decides. *)
Lemma detectLanguage_decision_order_witness :
  lit "buy shoes" <> [] /\ detectLanguage (Some (lit "buy shoes")) = en.
Proof.
  split; [discriminate|].
  apply (detectLanguage_decision_order (lit "buy shoes")).
  - discriminate.
  - vm_compute; reflexivity.
Defined.

(* ================================================================== *)
(** * The domain-list exports                                          *)
(* ================================================================== *)

Section ExportFacts.
Context {cm : CaseMapping}.

Lemma filter_from_incl {A} (p : A -> nat -> bool) i l x :
  In x (filter_from p i l) -> In x l.
Proof.
  revert i; induction l as [|y l IH]; simpl; intros i H; auto.
  destruct (p y i); [destruct H as [H|H]|]; eauto.
Qed.

Lemma filter_from_app {A} (p : A -> nat -> bool) i l1 l2 :
  filter_from p i (l1 ++ l2)
  = filter_from p i l1 ++ filter_from p (i + List.length l1) l2.
Proof.
  revert i; induction l1 as [|y l1 IH]; simpl; intros i.
  - rewrite Nat.add_0_r; reflexivity.
  - rewrite IH, <- Nat.add_succ_comm.
    destruct (p y i); reflexivity.
Qed.

Lemma first_occurrence (d : jsstring) l :
  In d l -> exists pre post, l = pre ++ d :: post /\ ~ In d pre.
Proof.
  induction l as [|y l IH]; simpl; [tauto|].
  intros H. destruct (eqb y d) eqn:E.
  - apply eqb_eq in E; subst y. exists [], l; simpl; auto.
  - apply eqb_neq in E.
    destruct H as [H|H]; [congruence|].
    destruct (IH H) as (pre & post & -> & Hn).
    exists (y :: pre), post; simpl; split; [reflexivity|].
    intros [H'|H']; auto.
Qed.

Lemma indexOf_first d pre post :
  ~ In d pre -> indexOf (pre ++ d :: post) d = Some (List.length pre).
Proof.
  induction pre as [|y pre IH]; simpl; intros Hn.
  - rewrite eqb_refl; reflexivity.
  - destruct (eqb y d) eqn:E.
    + apply eqb_eq in E; tauto.
    + rewrite IH by tauto; reflexivity.
Qed.

(** Removing duplicates keeps exactly the members. *)
Lemma unique_In d l : In d (unique l) <-> In d l.
Proof.
  unfold unique, filter_indexed; split.
  - apply filter_from_incl.
  - intros H. destruct (first_occurrence d l H) as (pre & post & E & Hn).
    set (p := fun (x : jsstring) (i : nat) =>
                match indexOf l x with
                | Some first => first =? i
                | None => false
                end).
    assert (Hp : p d (List.length pre) = true).
    { unfold p; rewrite E, (indexOf_first _ _ _ Hn).
      apply Nat.eqb_refl. }
    rewrite E, filter_from_app; simpl.
    apply in_or_app; right.
    rewrite Hp; simpl; auto.
Qed.

Lemma filter_truthy_In d l :
  In d (filter_truthy l) <-> d <> [] /\ In (Some d) l.
Proof.
  induction l as [|[[|c s]|] l IH]; simpl; try tauto.
  - rewrite IH; split; [tauto|].
    intros [Hd [H|H]]; [congruence | tauto].
  - rewrite IH; split.
    + intros [<-|[Hd H]]; [split; [discriminate | auto] | tauto].
    + intros [Hd [H|H]]; [left; congruence | tauto].
  - rewrite IH; split; [tauto|].
    intros [Hd [H|H]]; [discriminate | tauto].
Qed.

(** A domain is exported exactly when it is non-empty and some link
    that carries it passes the filter. *)
Lemma exported_iff (p : LinkDetail -> bool) links d :
  In d (unique (filter_truthy (List.map domain (filter p links))))
  <-> d <> [] /\ exists link,
        In link links /\ domain link = Some d /\ p link = true.
Proof.
  rewrite unique_In, filter_truthy_In, in_map_iff.
  split; intros [Hd (link & H1 & H2)]; split; auto; exists link.
  - apply filter_In in H2; tauto.
  - rewrite filter_In; tauto.
Qed.

Lemma toxic_iff links d :
  In d (toxicDomains links)
  <-> d <> [] /\ exists link,
        In link links /\ domain link = Some d /\ isToxic link = true.
Proof. apply exported_iff. Qed.

Lemma suspicious_iff links d :
  In d (suspiciousDomains links)
  <-> d <> [] /\ exists link,
        In link links /\ domain link = Some d
        /\ isSuspicious link = true.
Proof. apply exported_iff. Qed.

Lemma Qle_bool_false a b : Qle_bool a b = false <-> (b < a)%Q.
Proof.
  split; intros H.
  - apply Qnot_le_lt; intros Hle.
    apply Qle_bool_iff in Hle; congruence.
  - destruct (Qle_bool a b) eqn:E; auto.
    apply Qle_bool_iff in E; apply Qlt_not_le in H; tauto.
Qed.

Lemma isToxic_untagged link :
  untagged link ->
  isToxic link
  = match risk_score link with
    | Num q => Qle_bool 50 q
    | _ => false
    end.
Proof.
  intros [H _]; unfold isToxic.
  apply eqb_neq in H; rewrite H; reflexivity.
Qed.

Lemma isSuspicious_untagged link :
  untagged link ->
  isSuspicious link
  = match risk_score link with
    | Num q => Qle_bool 30 q && negb (Qle_bool 50 q)
    | _ => false
    end.
Proof.
  intros [H1 H2]; unfold isSuspicious.
  apply eqb_neq in H1, H2; rewrite H1, H2; simpl.
  destruct (risk_score link); reflexivity.
Qed.

End ExportFacts.

Section RiskClassification.
Context {cm : CaseMapping}.

Lemma sole_carrier_forces links link d (p : LinkDetail -> bool) :
  sole_carrier links link -> domain link = Some d -> p link = false ->
  ~ (exists l, In l links /\ domain l = Some d /\ p l = true).
Proof.
  intros Hs Hd Hp (l & Hin & Hl & Hpl).
  rewrite (Hs l Hin) in Hpl by congruence. congruence.
Qed.

(** C2, as amended.  For a link of the list with a non-empty domain:
    tagged [disavow], the domain is in the toxic export whatever the
    score; with a score of at least 50 it is in the toxic export;
    with a score from 30 to under 50 and no [disavow] tag it is in
    the suspicious export, and so it is at 49.9 without a tag, where
    it stays out of the toxic export; with a score under 30 and no
    tag it is in neither export.  (Exclusion is stated for a domain
    that no other entry of the list carries.) *)
Theorem risk_classification links link d :
  In link links -> domain link = Some d -> d <> [] ->
  (recommendationOf link = lit "disavow" -> In d (toxicDomains links))
  /\ (forall q, risk_score link = Num q -> (50 <= q)%Q ->
       In d (toxicDomains links))
  /\ (forall q, risk_score link = Num q -> (30 <= q)%Q -> (q < 50)%Q ->
       recommendationOf link <> lit "disavow" ->
       In d (suspiciousDomains links))
  /\ (risk_score link = Num (499 # 10) -> untagged link ->
       In d (suspiciousDomains links)
       /\ (sole_carrier links link -> ~ In d (toxicDomains links)))
  /\ (forall q, risk_score link = Num q -> (q < 30)%Q ->
       untagged link -> sole_carrier links link ->
       ~ In d (toxicDomains links) /\ ~ In d (suspiciousDomains links)).
Proof.
  intros Hin Hd Hne.
  assert (T : isToxic link = true -> In d (toxicDomains links)).
  { intros H; apply toxic_iff; split; eauto. }
  assert (S : isSuspicious link = true -> In d (suspiciousDomains links)).
  { intros H; apply suspicious_iff; split; eauto. }
  assert (S30 : forall q, risk_score link = Num q -> (30 <= q)%Q ->
                (q < 50)%Q -> recommendationOf link <> lit "disavow" ->
                isSuspicious link = true).
  { intros q Hq H30 H50 Hr. unfold isSuspicious; rewrite Hq.
    apply eqb_neq in Hr; rewrite Hr.
    apply Qle_bool_iff in H30; rewrite H30.
    apply Qle_bool_false in H50; rewrite H50.
    apply orb_true_r. }
  split; [|split; [|split; [|split]]].
  - intros H; apply T; unfold isToxic.
    rewrite H, eqb_refl; reflexivity.
  - intros q Hq H50; apply T; unfold isToxic; rewrite Hq.
    apply Qle_bool_iff in H50; rewrite H50; apply orb_true_r.
  - intros q Hq H30 H50 Hr; apply S; eauto.
  - intros Hq Hu; split.
    + apply S, (S30 (499 # 10)%Q); auto; try (apply Hu).
      * discriminate.
      * reflexivity.
    + intros Hs Ht; apply toxic_iff in Ht as [_ Ht].
      revert Ht; apply (sole_carrier_forces links link d); auto.
      rewrite (isToxic_untagged _ Hu), Hq; reflexivity.
  - intros q Hq H30 Hu Hs; split; intros Ht.
    + apply toxic_iff in Ht as [_ Ht].
      revert Ht; apply (sole_carrier_forces links link d); auto.
      rewrite (isToxic_untagged _ Hu), Hq.
      apply Qle_bool_false.
      apply Qlt_trans with (y := 30%Q); [assumption | reflexivity].
    + apply suspicious_iff in Ht as [_ Ht].
      revert Ht; apply (sole_carrier_forces links link d); auto.
      rewrite (isSuspicious_untagged _ Hu), Hq.
      apply Qle_bool_false in H30; rewrite H30; reflexivity.
Qed.

(** C10. A link whose lower-cased recommendation is [disavow] never
    passes the filter of the suspicious export, whatever its score,
    so it is not among the selected links and a domain that only
    such links carry is not in the suspicious export; its non-empty
    domain is in the toxic export. *)
Theorem disavow_never_suspicious links link :
  recommendationOf link = lit "disavow" ->
  isSuspicious link = false
  /\ ~ In link (filter isSuspicious links)
  /\ (forall d, domain link = Some d ->
       (forall other, In other links -> domain other = Some d ->
                      recommendationOf other = lit "disavow") ->
       ~ In d (suspiciousDomains links))
  /\ (forall d, In link links -> domain link = Some d -> d <> [] ->
       In d (toxicDomains links)).
Proof.
  intros H.
  assert (N : forall l, recommendationOf l = lit "disavow" ->
                        isSuspicious l = false).
  { intros l Hl; unfold isSuspicious; rewrite Hl; reflexivity. }
  repeat split.
  - apply N; assumption.
  - rewrite filter_In; intros [_ Hs]; rewrite (N _ H) in Hs; discriminate.
  - intros d Hd Hall Hs.
    apply suspicious_iff in Hs as (_ & l & Hin & Hl & Hs).
    rewrite (N l (Hall l Hin Hl)) in Hs; discriminate.
  - intros d Hin Hd Hne; apply toxic_iff; split; auto.
    exists link; repeat split; auto.
    unfold isToxic; rewrite H; reflexivity.
Qed.

End RiskClassification.

(** C2, as stated, fails at a score of 49.9 without a tag: the domain
    is not left out of both exports, the suspicious export downloads
    it. *)
Lemma score_49_9_is_exported_as_suspicious :
  untagged link_49_9
  /\ downloadSuspiciousDomains (Some [link_49_9])
     = Download (suspicious_header ++ lit "domain:b.com")
  /\ ~ (~ In (lit "b.com") (toxicDomains [link_49_9])
        /\ ~ In (lit "b.com") (suspiciousDomains [link_49_9])).
Proof.
  split; [split; discriminate|].
  split; [reflexivity|].
  intros [_ H]; apply H; vm_compute; auto.
Qed.

Lemma risk_classification_witness :
  In (lit "b.com") (suspiciousDomains [link_49_9])
  /\ ~ In (lit "b.com") (toxicDomains [link_49_9]).
Proof.
  assert (H : In link_49_9 [link_49_9]) by (left; reflexivity).
  assert (Hd : domain link_49_9 = Some (lit "b.com")) by reflexivity.
  assert (Hne : lit "b.com" <> []) by discriminate.
  destruct (risk_classification [link_49_9] link_49_9 (lit "b.com")
              H Hd Hne) as (_ & _ & _ & H49 & _).
  destruct (H49 eq_refl) as [Hs Ht].
  - split; discriminate.
  - split; [exact Hs|].
    apply Ht. intros other [<-|[]] _; reflexivity.
Defined.

Lemma disavow_never_suspicious_witness :
  isSuspicious link_disavow_40 = false
  /\ In (lit "a.com") (toxicDomains [link_disavow_40]).
Proof.
  assert (H : recommendationOf link_disavow_40 = lit "disavow")
    by (vm_compute; reflexivity).
  destruct (disavow_never_suspicious [link_disavow_40] link_disavow_40 H)
    as (Hs & _ & _ & Ht).
  split; [exact Hs|].
  apply Ht; [left; reflexivity | reflexivity | discriminate].
Defined.

(* ================================================================== *)
(** * The batch item parser                                            *)
(* ================================================================== *)

Section ParserFacts.
Context {cm : CaseMapping}.
Variables (generationMode : jsstring)
          (brandName businessType : option jsstring)
          (targetAudience : jsstring).

(** The instructions, as texts. *)
Lemma autoQuery_text u t :
  autoQuery u t = utf16 "Згенеруй текст для " ++ u ++ utf16 " про " ++ t.
Proof. reflexivity. Qed.

Lemma chatgptQuery_text u t brand business audience :
  chatgptQuery u t brand business audience
  = utf16 "Створи контент для " ++ u
    ++ utf16 " з ключовим словом " ++ quote ++ t ++ quote
    ++ utf16 " для бренду " ++ brand
    ++ lit " (" ++ business ++ lit ")"
    ++ match audience with
       | [] => []
       | _ :: _ => utf16 " Цільова аудиторія: " ++ audience ++ lit "."
       end.
Proof.
  unfold chatgptQuery, withAudience; destruct audience as [|c a];
    cbn [truthy]; rewrite <- ?app_assoc; reflexivity.
Qed.

Lemma metaOnlyQuery_text u t brand business audience :
  metaOnlyQuery u t brand business audience
  = utf16 "Створи тільки мета-теги (Title та Description) для " ++ u
    ++ utf16 " з ключовим словом " ++ quote ++ t ++ quote
    ++ utf16 " для бренду " ++ brand
    ++ lit " (" ++ business
    ++ utf16 "). Без генерації тексту контенту."
    ++ match audience with
       | [] => []
       | _ :: _ => utf16 " Цільова аудиторія: " ++ audience ++ lit "."
       end.
Proof.
  unfold metaOnlyQuery, withAudience; destruct audience as [|c a];
    cbn [truthy]; rewrite <- ?app_assoc; reflexivity.
Qed.

Lemma accepted_truthy line : accepted line = true -> truthy line = true.
Proof.
  unfold accepted; intros H.
  apply andb_true_iff in H as [H _]; apply andb_true_iff in H as [H _].
  assumption.
Qed.

Lemma filter_accepted_clean lines :
  filter accepted (clean lines) = filter accepted (List.map trim lines).
Proof.
  unfold clean; induction (List.map trim lines) as [|x l IH]; simpl; auto.
  destruct (truthy x) eqn:T; simpl; rewrite IH; auto.
  destruct (accepted x) eqn:A; auto.
  apply accepted_truthy in A; congruence.
Qed.

(** The accepted lines of a text are those of the trimmed text. *)
Lemma accepted_lines_trim text :
  filter accepted (List.map trim (split newline (trim text)))
  = filter accepted (List.map trim (split newline text)).
Proof.
  rewrite <- !filter_accepted_clean.
  change (filter accepted (nonBlankLines (trim text))
          = filter accepted (nonBlankLines text)).
  rewrite nonBlankLines_trim; reflexivity.
Qed.

Lemma csvRow_accepted line0 data :
  csvRow generationMode brandName businessType targetAudience line0 data
  = if accepted (trim line0)
    then data ++ [csvItem generationMode brandName businessType
                          targetAudience (fields (trim line0))]
    else data.
Proof.
  unfold csvRow, accepted, fields.
  destruct (truthy (trim line0)); simpl; auto.
  destruct (startsWith (trim line0) (lit "url,")); simpl; auto.
  rewrite length_map; reflexivity.
Qed.

Lemma parseCSV_loop_rows lines data :
  parseCSV_loop generationMode brandName businessType targetAudience
                lines data
  = data ++ List.map (fun line =>
                        csvItem generationMode brandName businessType
                                targetAudience (fields line))
                     (filter accepted (List.map trim lines)).
Proof.
  revert data; induction lines as [|l lines IH]; intros data; simpl.
  - rewrite app_nil_r; reflexivity.
  - rewrite IH, csvRow_accepted.
    destruct (accepted (trim l)); simpl; auto.
    rewrite <- app_assoc; reflexivity.
Qed.

(** [parseCSV] builds one object per accepted line of the text, in
    line order. *)
Lemma parseCSV_rows csvText :
  parseCSV csvText generationMode brandName businessType targetAudience
  = List.map (fun line =>
                csvItem generationMode brandName businessType
                        targetAudience (fields line))
             (filter accepted (List.map trim (split newline csvText))).
Proof.
  unfold parseCSV; rewrite parseCSV_loop_rows, accepted_lines_trim.
  reflexivity.
Qed.

(** C5. [parseCSV] returns one item per trimmed non-blank line that
    does not start with the token [url,] and has at least two
    comma-separated fields, in line order, with the first two
    trimmed fields as URL and topic; every other line gives
    nothing. *)
Theorem parseCSV_one_item_per_accepted_line csvText :
  let items :=
    parseCSV csvText generationMode brandName businessType
             targetAudience in
  let lines :=
    filter accepted (List.map trim (split newline csvText)) in
  List.map (fun item => (url item, topic item)) items
  = List.map (fun line => (nth 0 (fields line) [], nth 1 (fields line) []))
             lines
  /\ List.length items = List.length lines.
Proof.
  intros items lines; unfold items, lines.
  rewrite parseCSV_rows, map_map, length_map; split; reflexivity.
Qed.

(** C9. An accepted line of exactly two fields gets the default
    (auto mode) instruction, built from its URL and topic alone,
    whatever the generation mode and the form values; the brand
    phrasings of the [chatgpt] and [meta_only] modes come only with
    at least three fields, where an empty row field falls back to the
    form value and then to [Brand] and [general]. *)
Theorem parseCSV_instruction csvText i line :
  nth_error (filter accepted (List.map trim (split newline csvText))) i
  = Some line ->
  exists item,
    nth_error (parseCSV csvText generationMode brandName businessType
                        targetAudience) i = Some item
    /\ let fs := fields line in
       let u := nth 0 fs [] in
       let t := nth 1 fs [] in
       let brand :=
         firstNonEmpty [nth_error fs 2; brandName] (lit "Brand") in
       let business :=
         firstNonEmpty [nth_error fs 3; businessType] (lit "general") in
       let audience :=
         match targetAudience with
         | [] => []
         | _ :: _ =>
             utf16 " Цільова аудиторія: " ++ targetAudience ++ lit "."
         end in
       let default :=
         utf16 "Згенеруй текст для " ++ u ++ utf16 " про " ++ t in
       (List.length fs = 2 -> user_query item = default)
       /\ (3 <= List.length fs -> generationMode = lit "chatgpt" ->
           user_query item
           = utf16 "Створи контент для " ++ u
             ++ utf16 " з ключовим словом " ++ quote ++ t ++ quote
             ++ utf16 " для бренду " ++ brand
             ++ lit " (" ++ business ++ lit ")" ++ audience)
       /\ (3 <= List.length fs -> generationMode = lit "meta_only" ->
           user_query item
           = utf16 "Створи тільки мета-теги (Title та Description) для "
             ++ u
             ++ utf16 " з ключовим словом " ++ quote ++ t ++ quote
             ++ utf16 " для бренду " ++ brand
             ++ lit " (" ++ business
             ++ utf16 "). Без генерації тексту контенту." ++ audience)
       /\ (generationMode <> lit "chatgpt" ->
           generationMode <> lit "meta_only" ->
           user_query item = default).
Proof.
  intros Hline.
  rewrite parseCSV_rows.
  eexists; split; [apply map_nth_error; exact Hline|].
  assert (F : forall a b c,
             or_else a (or_else b c) = firstNonEmpty [a; b] c).
  { intros [[|x a]|] [[|y b]|] c; reflexivity. }
  cbv zeta; unfold csvItem; cbn [user_query]; rewrite !F.
  rewrite autoQuery_text, chatgptQuery_text, metaOnlyQuery_text.
  split; [|split; [|split]].
  - intros H2; rewrite H2.
    replace (3 <=? 2) with false by reflexivity.
    rewrite !andb_false_r; reflexivity.
  - intros H3 E. apply Nat.leb_le in H3; rewrite H3, E.
    reflexivity.
  - intros H3 E. apply Nat.leb_le in H3; rewrite H3, E.
    reflexivity.
  - intros H1 H2. apply eqb_neq in H1, H2; rewrite H1, H2.
    reflexivity.
Qed.

(** ** The simple list *)

Lemma forEach_simpleRow keywords urls :
  Forall (fun u => truthy (trim u) = true) urls ->
  forall i acc,
    forEach_from
      (simpleRow keywords generationMode brandName businessType
                 targetAudience) i urls acc
    = acc ++ List.map (fun p => simpleItem keywords generationMode brandName businessType
                   targetAudience (trim (snd p)) (fst p))
                      (combine (seq i (List.length urls)) urls).
Proof.
  induction 1 as [|u urls Hu _ IH]; intros i acc; simpl.
  - rewrite app_nil_r; reflexivity.
  - rewrite IH; unfold simpleRow; rewrite Hu, <- app_assoc; reflexivity.
Qed.

Lemma nth_error_indexed {A B} (f : nat * A -> B) (l : list A) i k :
  nth_error (List.map f (combine (seq i (List.length l)) l)) k
  = option_map (fun x => f (i + k, x)) (nth_error l k).
Proof.
  revert i k; induction l as [|x l IH]; intros i [|k]; simpl; auto.
  - rewrite Nat.add_0_r; reflexivity.
  - rewrite IH, Nat.add_succ_comm; reflexivity.
Qed.

Lemma map_url_indexed keywords (l : list jsstring) i :
  List.map url
    (List.map (fun p => simpleItem keywords generationMode brandName businessType
                   targetAudience (trim (snd p)) (fst p))
              (combine (seq i (List.length l)) l))
  = List.map trim l.
Proof.
  revert i; induction l as [|x l IH]; intros i; simpl; auto.
  rewrite IH; reflexivity.
Qed.

Lemma nonblank_filtered (l : list jsstring) :
  Forall (fun u => truthy (trim u) = true)
         (filter (fun u => truthy (trim u)) l).
Proof. apply Forall_forall; intros x H; apply filter_In in H; tauto. Qed.

(** The keywords the parser indexes, trimmed, are the trimmed
    non-blank lines of the keyword list. *)
Lemma keywords_trimmed keywordsList :
  List.map trim
    (if truthy_opt keywordsList
     then filter (fun k => truthy (trim k))
                 (split newline (trim (or_else keywordsList [])))
     else [])
  = nonBlankLines (or_else keywordsList []).
Proof.
  destruct keywordsList as [[|c k]|]; try reflexivity.
  cbn [truthy_opt truthy].
  rewrite clean_filter_map.
  apply nonBlankLines_trim.
Qed.

Lemma derivedTopic_nonempty u : derivedTopic u <> [].
Proof.
  unfold derivedTopic, or_else.
  destruct (trim _); discriminate.
Qed.

Lemma trim_nonempty k : truthy (trim k) = true -> truthy k = true.
Proof. destruct k; [discriminate | reflexivity]. Qed.

(** With the trimmed non-blank lines of the URL list and of the
    keyword list, each numbered in order:
    [parseSimpleList] returns one item per URL, in order; the item
    of URL [i] has keyword [i] as topic when the keyword list has
    more than [i] non-blank lines, and otherwise the topic derived
    from the last path segment of the URL, where every code unit
    outside [a-z], [A-Z], [0-9] and the Cyrillic range U+0410 to
    U+044F becomes a space, the result is trimmed and, when empty,
    replaced by [Page]; the topic is never empty. *)
Theorem parseSimpleList_items urlList keywordsList :
  let urls := nonBlankLines urlList in
  let keywords := nonBlankLines (or_else keywordsList []) in
  let items :=
    parseSimpleList urlList keywordsList generationMode brandName
                    businessType targetAudience in
  List.map url items = urls
  /\ List.length items = List.length urls
  /\ (forall i u,
        nth_error urls i = Some u ->
        exists item,
          nth_error items i = Some item
          /\ url item = u
          /\ topic item <> []
          /\ (forall k, nth_error keywords i = Some k -> topic item = k)
          /\ (nth_error keywords i = None ->
              topic item = derivedTopic u))
  /\ (forall u,
        derivedTopic u
        = match trim (List.map
                        (fun c => if keptInTopic c then c else space)
                        (last (split slash u) [])) with
          | [] => lit "Page"
          | t => t
          end).
Proof.
  intros urls keywords items.
  set (urls0 := filter (fun u => truthy (trim u))
                       (split newline (trim urlList))).
  set (kws0 := if truthy_opt keywordsList
               then filter (fun k => truthy (trim k))
                      (split newline (trim (or_else keywordsList [])))
               else []).
  assert (Eu : List.map trim urls0 = urls).
  { unfold urls0, urls; rewrite clean_filter_map.
    apply nonBlankLines_trim. }
  assert (Ek : List.map trim kws0 = keywords)
    by apply keywords_trimmed.
  assert (Hk : Forall (fun k => truthy (trim k) = true) kws0).
  { unfold kws0; destruct (truthy_opt keywordsList);
      [apply nonblank_filtered | constructor]. }
  assert (Ei : items
               = List.map
                   (fun p => simpleItem kws0 generationMode brandName businessType
                     targetAudience (trim (snd p)) (fst p))
                   (combine (seq 0 (List.length urls0)) urls0)).
  { unfold items, parseSimpleList; fold urls0; fold kws0.
    rewrite forEach_simpleRow by apply nonblank_filtered.
    reflexivity. }
  assert (Em : List.map url items = urls).
  { rewrite Ei, map_url_indexed; exact Eu. }
  split; [exact Em|].
  split; [rewrite <- Em, length_map; reflexivity|].
  split.
  - intros i u Hu.
    rewrite <- Eu, nth_error_map in Hu.
    destruct (nth_error urls0 i) as [u0|] eqn:Hu0; [|discriminate].
    injection Hu as <-.
    exists (simpleItem kws0 generationMode brandName businessType
                      targetAudience (trim u0) i).
    split; [rewrite Ei, nth_error_indexed, Hu0; reflexivity|].
    split; [reflexivity|].
    unfold simpleItem; cbn [topic].
    rewrite <- Ek, nth_error_map.
    destruct (nth_error kws0 i) as [k|] eqn:Hki; cbn [option_map].
    + assert (Tk : truthy (trim k) = true).
      { apply nth_error_In in Hki.
        rewrite Forall_forall in Hk; auto. }
      rewrite Tk, (trim_nonempty _ Tk); cbn [andb].
      split; [apply truthy_true; assumption|].
      split; [congruence | discriminate].
    + split; [apply derivedTopic_nonempty|].
      split; [discriminate | reflexivity].
  - intros u; unfold derivedTopic, or_else.
    destruct (trim _); reflexivity.
Qed.

End ParserFacts.

(** C3 at a URL whose last path segment is a Ukrainian word: the
    letter U+0457 of the word is replaced by a space, as every
    Cyrillic letter outside U+0410 to U+044F is, and a segment of such
    letters alone gives the topic [Page]; the character class of the
    language detector lists the letter beside the same range. *)
Theorem ukrainian_letters_are_cut_from_topics :
  List.map topic
    (parseSimpleList (utf16 "https://site.ua/київ") None (lit "auto")
                     None None [])
  = [utf16 "ки в"]
  /\ List.map topic
       (parseSimpleList (utf16 "https://site.ua/її") None (lit "auto")
                        None None [])
     = [lit "Page"]
  /\ ukChars (utf16 "ї") = true.
Proof. vm_compute; repeat split; reflexivity. Qed.

(** When the keyword list has a blank line between keywords, the
    keyword after the gap moves up to the URL of the gap and the last
    URL gets a derived topic: blank lines are dropped before keywords
    are numbered, so a keyword is not taken by its line position. *)
Lemma blank_keyword_line_shifts_topics :
  let items :=
    parseSimpleList three_urls (Some keywords_with_gap) (lit "auto")
                    None None [] in
  List.map topic items = [lit "k1"; lit "k3"; lit "u3"]
  /\ ~ (forall i u item,
          nth_error (split newline three_urls) i = Some u ->
          nth_error items i = Some item ->
          topic item
          = topic_by_line_position (split newline keywords_with_gap) i
                                   (trim u)).
Proof.
  split; [vm_compute; reflexivity|].
  intros H.
  specialize (H 1 (lit "https://x.com/u2")
                {| url := lit "https://x.com/u2"; topic := lit "k3";
                   keyword := lit "k3"; item_language := uk;
                   target_audience := None;
                   user_query :=
                     autoQuery (lit "https://x.com/u2") (lit "k3") |}).
  vm_compute in H.
  specialize (H eq_refl eq_refl); discriminate H.
Qed.

Lemma parseCSV_instruction_witness :
  exists item,
    nth_error (parseCSV sample_csv (lit "chatgpt") (Some (lit "Acme"))
                        (Some (lit "shop")) []) 0 = Some item
    /\ user_query item
       = utf16 "Згенеруй текст для https://a.com про Shoes".
Proof.
  assert (H : nth_error
                (filter accepted
                        (List.map trim (split newline sample_csv))) 0
              = Some (lit "https://a.com,Shoes"))
    by (vm_compute; reflexivity).
  destruct (parseCSV_instruction (lit "chatgpt") (Some (lit "Acme"))
              (Some (lit "shop")) [] sample_csv 0 _ H)
    as (item & Hi & H2 & _).
  exists item; split; [exact Hi|].
  etransitivity; [apply H2; vm_compute; reflexivity|].
  vm_compute; reflexivity.
Defined.

(* ================================================================== *)
(** * The batch orchestrator                                           *)
(* ================================================================== *)

Section TraceFacts.

Lemma submitted_app a b : submitted (a ++ b) = submitted a ++ submitted b.
Proof.
  induction a as [|[| | |[]| |] a IH]; simpl; auto.
  rewrite IH; reflexivity.
Qed.

Lemma opened_app a b : opened (a ++ b) = opened a ++ opened b.
Proof.
  induction a as [|[] a IH]; simpl; auto.
  rewrite IH; reflexivity.
Qed.

Lemma closed_app a b : closed (a ++ b) = closed a ++ closed b.
Proof.
  induction a as [|[] a IH]; simpl; auto.
  rewrite IH; reflexivity.
Qed.

End TraceFacts.

Create Rewrite HintDb trace_db.
#[export] Hint Rewrite submitted_app opened_app closed_app app_nil_r
  : trace_db.

Ltac run_script :=
  cbv beta iota zeta delta
    [bind try_catch try_finally ui alert emit ret throw
     generateSessionId set_sessionId connectWebSocket closeWebSocket
     fetch response_json push new_batchResults get_batchResults
     websocket sessionId window_batchResults
     batchResults sockets_made ids_drawn fetches_made trace
     fst snd negb message].

Section OrchestratorFacts.
Context {cm : CaseMapping}.
Variable w : world.

(** The success line is written for a scored result and throws for
    any other; it leaves the state as it is. *)
Lemma shown_score_run r s :
  shown_score r s
  = if scored r then (inr (printed_score r), s)
    else (inl {| message := score_error r |}, s).
Proof.
  unfold shown_score, scored, printed_score, score_error.
  destruct r; try reflexivity;
    match goal with
    | |- context [nested ?v ?a ?b] => destruct (nested v a b) as [[]|]
    end; reflexivity.
Qed.

(** Rendering an entry touches nothing: the markup is put on the page
    after all entries are rendered. *)
Lemma bind_frame {A B} (m : M A) (k : A -> M B) :
  (forall s, exists r, m s = (r, s)) ->
  (forall a s, exists r, k a s = (r, s)) ->
  forall s, exists r, bind m k s = (r, s).
Proof.
  intros Hm Hk s; unfold bind.
  destruct (Hm s) as ([e|a] & ->); [eexists; reflexivity | apply Hk].
Qed.

Lemma toPrimitive_frame x s : exists r, toPrimitive x s = (r, s).
Proof.
  unfold toPrimitive; destruct x as [v|]; [|eexists; reflexivity].
  destruct (toPrimitive_throws v); eexists; reflexivity.
Qed.

Lemma toFixed_frame callee x s : exists r, toFixed callee x s = (r, s).
Proof.
  unfold toFixed; destruct x as [[]|]; eexists; reflexivity.
Qed.

Lemma renderOutcome_frame item s : exists r, renderOutcome item s = (r, s).
Proof.
  unfold renderOutcome.
  destruct (success item); [|eexists; reflexivity].
  destruct (result item) as [r|]; [|eexists; reflexivity].
  assert (H : exists x,
             (toPrimitive
                (nested r (lit "validation") (lit "overall_score")) ;;
              toFixed (lit "score.toFixed")
                (nested r (lit "validation") (lit "overall_score")) ;;
              toPrimitive (nested r (lit "meta_tags") (lit "title")) ;;
              toPrimitive (nested r (lit "content") (lit "word_count")) ;;
              toPrimitive (nested r (lit "meta_tags") (lit "h1")) ;;
              toPrimitive (nested r (lit "meta_tags") (lit "description")) ;;
              toFixed (lit "item.result.content.readability_score.toFixed")
                (nested r (lit "content") (lit "readability_score"))) s
             = (x, s)).
  { revert s.
    repeat (apply bind_frame;
            [intros s; apply toPrimitive_frame || apply toFixed_frame
            |intros _]).
    intros s; apply toFixed_frame. }
  destruct r; try exact H; eexists; reflexivity.
Qed.

Lemma forEach_frame l s : exists r, forEach renderOutcome l s = (r, s).
Proof.
  revert s; induction l as [|item l IH]; intros s.
  - eexists; reflexivity.
  - cbn [forEach]; apply bind_frame.
    + intros s0; apply renderOutcome_frame.
    + intros _; exact IH.
Qed.

(** [displayBatchResults] either throws and leaves everything as it
    was, or shows the list and keeps it. *)
Lemma displayBatchResults_run l s :
  (exists e, displayBatchResults l s = (inl e, s))
  \/ displayBatchResults l s
     = (inr tt,
        {| websocket := websocket s; sessionId := sessionId s;
           window_batchResults := Some l;
           batchResults := batchResults s;
           sockets_made := sockets_made s; ids_drawn := ids_drawn s;
           fetches_made := fetches_made s;
           trace := trace s ++ [Ui (DisplayBatchResults l)] |}).
Proof.
  unfold displayBatchResults, bind.
  destruct (forEach_frame l s) as ([e|[]] & ->).
  - left; exists e; reflexivity.
  - right; reflexivity.
Qed.

(** One turn of the loop: it ends normally whatever the reply, adds
    the entries of its item to the list, has submitted the item on a
    fresh channel, and has closed that channel only when its [try]
    block reached its end. *)
Lemma batchTurn_run delay total i item s :
  exists s',
    batchTurn w delay total i item s = (inr tt, s')
    /\ batchResults s'
       = batchResults s
         ++ outcomes_of item (replies w (fetches_made s))
    /\ fetches_made s' = S (fetches_made s)
    /\ sockets_made s' = S (sockets_made s)
    /\ window_batchResults s' = window_batchResults s
    /\ submitted (trace s') = submitted (trace s) ++ [item]
    /\ opened (trace s') = opened (trace s) ++ [sockets_made s]
    /\ closed (trace s')
       = closed (trace s)
         ++ (if finished (replies w (fetches_made s))
             then [sockets_made s] else []).
Proof.
  destruct s as [ws sid wbr br sm ids fm tr].
  unfold batchTurn, outcomes_of, finished, is_accepted, spoiled,
    outcome_of, accepted_reply.
  destruct (i <? total - 1); run_script;
    destruct (replies w fm) as [m|[|] [m|r]]; run_script;
    rewrite ?shown_score_run;
    try (destruct (scored r) eqn:Sc; run_script;
         rewrite ?shown_score_run, ?Sc; run_script);
    eexists; (split; [reflexivity|]);
    cbn -[scored printed_score score_error];
    autorewrite with trace_db; cbn -[scored printed_score score_error];
    rewrite <- ?app_assoc;
    repeat split; try reflexivity;
    try (destruct m; reflexivity);
    destruct r; reflexivity.
Qed.

Lemma all_outcomes_from_cons k item rest :
  all_outcomes_from w k (item :: rest)
  = outcomes_of item (replies w k) ++ all_outcomes_from w (S k) rest.
Proof. reflexivity. Qed.

Lemma outcomes_from_cons k item rest :
  outcomes_from w k (item :: rest)
  = outcome_of item (replies w k) :: outcomes_from w (S k) rest.
Proof. reflexivity. Qed.

Lemma channels_cons k r sockets rs :
  channels_of_finished (k :: sockets) (r :: rs)
  = (if finished r then [k] else [])
    ++ channels_of_finished sockets rs.
Proof.
  unfold channels_of_finished; simpl.
  destruct (finished r); reflexivity.
Qed.

(** The loop from any index: it ends normally and every remaining
    item gets its turn, in order, whatever the replies. *)
Lemma batchLoop_run delay total rest :
  forall i s,
  exists s',
    batchLoop w delay total i rest s = (inr tt, s')
    /\ batchResults s'
       = batchResults s ++ all_outcomes_from w (fetches_made s) rest
    /\ fetches_made s' = fetches_made s + List.length rest
    /\ sockets_made s' = sockets_made s + List.length rest
    /\ window_batchResults s' = window_batchResults s
    /\ submitted (trace s') = submitted (trace s) ++ rest
    /\ opened (trace s')
       = opened (trace s) ++ seq (sockets_made s) (List.length rest)
    /\ closed (trace s')
       = closed (trace s)
         ++ channels_of_finished
              (seq (sockets_made s) (List.length rest))
              (replies_from w (fetches_made s) (List.length rest)).
Proof.
  induction rest as [|item rest IH]; intros i s.
  - exists s; cbn; autorewrite with trace_db.
    rewrite !Nat.add_0_r; repeat split; reflexivity.
  - destruct (batchTurn_run delay total i item s)
      as (s1 & E1 & R1 & F1 & K1 & W1 & S1 & O1 & C1).
    destruct (IH (S i) s1) as (s2 & E2 & R2 & F2 & K2 & W2 & S2 & O2 & C2).
    exists s2.
    split; [cbn [batchLoop]; unfold bind; rewrite E1; exact E2|].
    rewrite R2, F2, K2, W2, S2, O2, C2, R1, F1, K1, W1, S1, O1, C1.
    rewrite all_outcomes_from_cons.
    unfold replies_from.
    cbn [List.length seq List.map]; rewrite channels_cons, <- !app_assoc.
    repeat split; try reflexivity; lia.
Qed.

(** A batch of at least one item: what it leaves, whether or not the
    final rendering throws. *)
Lemma runBatch_run delay items s :
  items <> [] ->
  let s' := snd (runBatch w delay items s) in
  batchResults s' = all_outcomes_from w (fetches_made s) items
  /\ submitted (trace s') = submitted (trace s) ++ items
  /\ opened (trace s')
     = opened (trace s) ++ seq (sockets_made s) (List.length items)
  /\ closed (trace s')
     = closed (trace s)
       ++ channels_of_finished
            (seq (sockets_made s) (List.length items))
            (replies_from w (fetches_made s) (List.length items)).
Proof.
  intros Hne; unfold runBatch.
  destruct (List.length items =? 0) eqn:E0.
  { apply Nat.eqb_eq, length_zero_iff_nil in E0; contradiction. }
  destruct s as [ws sid wbr br sm ids fm tr].
  run_script.
  match goal with
  | |- context [batchLoop w ?d ?t ?i ?r ?s0] =>
      destruct (batchLoop_run d t r i s0)
        as (s1 & E1 & R1 & F1 & K1 & W1 & S1 & O1 & C1)
  end.
  rewrite E1; destruct s1 as [ws1 sid1 wbr1 br1 sm1 ids1 fm1 tr1].
  cbn in R1, S1, O1, C1; subst br1.
  run_script.
  match goal with
  | |- context [displayBatchResults ?l ?st] =>
      destruct (displayBatchResults_run l st) as [[e E]|E]; rewrite E
  end;
    cbn; autorewrite with trace_db; cbn; rewrite S1, O1, C1;
    autorewrite with trace_db; cbn; autorewrite with trace_db;
    repeat split; reflexivity.
Qed.

(** With its input present, [processBatchRequest] runs the batch on
    the parsed items. *)
Lemma processBatchRequest_starts formData generationMode :
  required_input_missing formData = false ->
  exists delay,
    processBatchRequest w formData generationMode
    = runBatch w delay (parsedItems formData generationMode).
Proof.
  unfold required_input_missing, processBatchRequest, parsedItems.
  intros H; eexists.
  destruct (eqb (batchInputType formData) (lit "simple")).
  - apply negb_false_iff in H; rewrite H; reflexivity.
  - destruct (eqb (batchInputType formData) (lit "csv")).
    + destruct (csvFile formData) as [[|c t]|]; try discriminate;
        reflexivity.
    + apply negb_false_iff in H; rewrite H; reflexivity.
Qed.

Lemma nth_error_outcomes k items i item :
  nth_error items i = Some item ->
  nth_error (outcomes_from w k items) i
  = Some (outcome_of item (replies w (k + i))).
Proof.
  intros H; unfold outcomes_from.
  rewrite nth_error_indexed, H; reflexivity.
Qed.

(** When every accepted reply of the batch holds a scored result,
    every item leaves one entry. *)
Lemma all_outcomes_scored k items :
  (forall i r, i < List.length items ->
               accepted_reply (replies w (k + i)) = Some r ->
               scored r = true) ->
  all_outcomes_from w k items = outcomes_from w k items.
Proof.
  revert k; induction items as [|item items IH]; intros k H.
  - reflexivity.
  - rewrite all_outcomes_from_cons, outcomes_from_cons, IH.
    + unfold outcomes_of.
      destruct (accepted_reply (replies w k)) as [r|] eqn:A;
        [|reflexivity].
      rewrite (H 0 r); [reflexivity | cbn; lia |].
      rewrite Nat.add_0_r; exact A.
    + intros i r Hi HA; apply (H (S i)); [cbn; lia|].
      rewrite Nat.add_succ_r; exact HA.
Qed.

(** On a batch of N parsed items whose accepted replies hold scored
    results, [processBatchRequest] submits every item once, in index
    order and whatever the earlier replies, and leaves exactly one
    outcome per item: the list has length N, outcome [i] belongs to
    item [i], and a network failure, a non-success HTTP status or a
    body that does not parse makes it a failure carrying the error
    message, while an accepted reply makes it a success with the
    result. *)
Lemma batch_one_outcome_per_item formData generationMode s items :
  required_input_missing formData = false ->
  parsedItems formData generationMode = items ->
  items <> [] ->
  (forall i r, i < List.length items ->
               accepted_reply (replies w (fetches_made s + i)) = Some r ->
               scored r = true) ->
  let s' := snd (processBatchRequest w formData generationMode s) in
  submitted (trace s') = submitted (trace s) ++ items
  /\ List.length (batchResults s') = List.length items
  /\ forall i item,
       nth_error items i = Some item ->
       let reply := replies w (fetches_made s + i) in
       exists o,
         nth_error (batchResults s') i = Some o
         /\ outcome_url o = url item
         /\ (forall msg, reply = NetworkFailure msg ->
             success o = false /\ (msg <> [] -> error o = Some msg))
         /\ (forall b, reply = Response false b ->
             success o = false /\ error o = Some msg_request_failed)
         /\ (forall msg, reply = Response true (inl msg) ->
             success o = false /\ (msg <> [] -> error o = Some msg))
         /\ (forall r, reply = Response true (inr r) ->
             success o = true /\ result o = Some r).
Proof.
  intros Hin Hitems Hne Hscored s'; unfold s'.
  destruct (processBatchRequest_starts formData generationMode Hin)
    as (delay & ->).
  rewrite Hitems.
  destruct (runBatch_run delay items s Hne) as (R & S & _ & _).
  rewrite (all_outcomes_scored _ _ Hscored) in R.
  split; [exact S|].
  split; [rewrite R; unfold outcomes_from;
          rewrite length_map, length_combine, length_seq;
          apply Nat.min_id|].
  intros i item Hi; cbv zeta.
  exists (outcome_of item (replies w (fetches_made s + i))).
  split; [rewrite R; apply nth_error_outcomes; exact Hi|].
  split; [unfold outcome_of;
          destruct (replies w (fetches_made s + i)) as [m|[|] [m|r]];
          reflexivity|].
  split; [|split; [|split]].
  - intros [|c m] ->; (split; [reflexivity|]); intros Hm;
      [congruence | reflexivity].
  - intros b ->; split; reflexivity.
  - intros [|c m] ->; (split; [reflexivity|]); intros Hm;
      [congruence | reflexivity].
  - intros r ->; split; reflexivity.
Qed.

(** C7. When the required input is missing or nothing is parsed
    from it, [processBatchRequest] shows one alert and returns:
    nothing else happens, no channel is opened, nothing is
    submitted and no outcome is recorded. *)
Theorem preflight_stop formData generationMode s :
  required_input_missing formData = true
  \/ parsedItems formData generationMode = [] ->
  exists msg s',
    processBatchRequest w formData generationMode s = (inr tt, s')
    /\ trace s' = trace s ++ [Alert msg]
    /\ batchResults s' = batchResults s
    /\ window_batchResults s' = window_batchResults s
    /\ websocket s' = websocket s
    /\ sockets_made s' = sockets_made s
    /\ fetches_made s' = fetches_made s.
Proof.
  assert (A : forall msg,
             exists m s',
               alert msg s = (inr tt, s')
               /\ trace s' = trace s ++ [Alert m]
               /\ batchResults s' = batchResults s
               /\ window_batchResults s' = window_batchResults s
               /\ websocket s' = websocket s
               /\ sockets_made s' = sockets_made s
               /\ fetches_made s' = fetches_made s).
  { intros msg; exists msg; eexists; split; [reflexivity|].
    cbn; repeat split; reflexivity. }
  destruct (required_input_missing formData) eqn:M.
  - intros _; revert M.
    unfold required_input_missing, processBatchRequest.
    destruct (eqb (batchInputType formData) (lit "simple")).
    + intros ->; apply A.
    + destruct (eqb (batchInputType formData) (lit "csv")).
      * destruct (csvFile formData); [discriminate | intros _; apply A].
      * intros ->; apply A.
  - intros [H|H]; [discriminate|].
    destruct (processBatchRequest_starts formData generationMode M)
      as (delay & ->).
    rewrite H; apply A.
Qed.

(** In a batch the channels closed are exactly those of the items
    whose [try] block reached its end: the channel of an item whose
    submission failed stays open. *)
Lemma batch_channels_closed_on_success_only formData generationMode s :
  required_input_missing formData = false ->
  parsedItems formData generationMode <> [] ->
  let items := parsedItems formData generationMode in
  let s' := snd (processBatchRequest w formData generationMode s) in
  opened (trace s')
  = opened (trace s) ++ seq (sockets_made s) (List.length items)
  /\ closed (trace s')
     = closed (trace s)
       ++ channels_of_finished
            (seq (sockets_made s) (List.length items))
            (replies_from w (fetches_made s) (List.length items)).
Proof.
  intros Hin Hne items s'; unfold s'.
  destruct (processBatchRequest_starts formData generationMode Hin)
    as (delay & ->).
  destruct (runBatch_run delay items s Hne) as (_ & _ & O & C).
  fold items; split; assumption.
Qed.

(** The single submission closes its channel whatever the reply. *)
Lemma processRequest_closes_channel data s :
  let s' := snd (processRequest w data s) in
  opened (trace s') = opened (trace s) ++ [sockets_made s]
  /\ closed (trace s') = closed (trace s) ++ [sockets_made s].
Proof.
  destruct s as [ws sid wbr br sm ids fm tr].
  unfold processRequest; run_script.
  destruct (replies w fm) as [m|[|] [m|r]]; run_script;
    autorewrite with trace_db; cbn; split; reflexivity.
Qed.

End OrchestratorFacts.

(** C4 at a batch of one item whose submission is answered with a
    non-success HTTP status: the item is recorded as failed, its
    channel was opened and is never closed, the global handle still
    holds it at the end; the single submission closes its channel on
    the same reply. *)
Theorem failed_submission_leaves_channel_open :
  let s' :=
    snd (processBatchRequest all_rejected
           (simple_form (lit "https://x.com/u1")) (lit "auto") initial) in
  List.map success (batchResults s') = [false]
  /\ opened (trace s') = [0]
  /\ closed (trace s') = []
  /\ websocket s' = Some 0
  /\ closed (trace (snd (processRequest all_rejected one_request initial)))
     = [0].
Proof. vm_compute; repeat split; reflexivity. Qed.

Lemma batch_one_outcome_per_item_witness :
  let s' :=
    snd (processBatchRequest second_rejected (simple_form three_urls)
                             (lit "auto") initial) in
  List.length (batchResults s') = 3
  /\ List.map url (submitted (trace s'))
     = [lit "https://x.com/u1"; lit "https://x.com/u2";
        lit "https://x.com/u3"].
Proof.
  set (items := parsedItems (simple_form three_urls) (lit "auto")).
  assert (H1 : required_input_missing (simple_form three_urls) = false)
    by (vm_compute; reflexivity).
  assert (H3 : items <> []) by (vm_compute; discriminate).
  assert (H4 : forall i r,
             i < List.length items ->
             accepted_reply (replies second_rejected (fetches_made initial + i))
             = Some r ->
             scored r = true).
  { intros [|[|[|i]]] r Hi H; vm_compute in H; try discriminate;
      injection H as <-; reflexivity. }
  destruct (batch_one_outcome_per_item second_rejected
              (simple_form three_urls) (lit "auto") initial items
              H1 eq_refl H3 H4) as (S & L & _).
  cbv zeta; split; [exact L|].
  rewrite S; vm_compute; reflexivity.
Defined.

(** C1 at a batch of one item whose submission is accepted with a
    body that holds no result object: with the body [null], and with
    a score given as a string, the success is recorded, the success
    line then throws, and the handler records a failure for the same
    item, so the one item leaves two outcomes and the summary counts
    two pages; the rendering of the list throws in its turn, so the
    batch rejects and [window.batchResults] stays unset.  A network
    failure on the same item is recorded once, as a failure with its
    message. *)
Theorem reply_without_score_is_recorded_twice :
  let form := simple_form (lit "https://x.com/u1") in
  let run w := snd (processBatchRequest w form (lit "auto") initial) in
  let recorded w :=
    List.map (fun o => (success o, error o)) (batchResults (run w)) in
  List.length (parsedItems form (lit "auto")) = 1
  /\ recorded null_replies
     = [(true, None); (false, Some msg_null_validation)]
  /\ List.map success (batchResults (run text_score_replies))
     = [true; false]
  /\ summaries (trace (run null_replies)) = [(2, 1, 1)]
  /\ List.length (submitted (trace (run null_replies))) = 1
  /\ fst (processBatchRequest null_replies form (lit "auto") initial)
     = inl {| message := msg_null_validation |}
  /\ window_batchResults (run null_replies) = None
  /\ recorded network_down = [(false, Some (lit "Failed to fetch"))].
Proof. vm_compute; repeat split; reflexivity. Qed.

Lemma preflight_stop_witness :
  exists msg s',
    processBatchRequest all_rejected
      {| batchInputType := lit "simple"; batchDelay := None;
         urlList := None; keywordsList := None;
         batchBrandName := None; batchBusinessType := None;
         batchTargetAudience := None; csvFile := None;
         batchDataField := None |}
      (lit "auto") initial = (inr tt, s')
    /\ trace s' = [Alert msg].
Proof.
  destruct (preflight_stop all_rejected
              {| batchInputType := lit "simple"; batchDelay := None;
                 urlList := None; keywordsList := None;
                 batchBrandName := None; batchBusinessType := None;
                 batchTargetAudience := None; csvFile := None;
                 batchDataField := None |}
              (lit "auto") initial (or_introl eq_refl))
    as (msg & s' & E & T & _).
  exists msg, s'; split; [exact E | exact T].
Defined.

(* ================================================================== *)
(** * Sample runs                                                      *)
(* ================================================================== *)

(** Latin text with an English keyword is English; Cyrillic text falls
    to Ukrainian even on a Russian keyword, since a Cyrillic letter is
    not a word character and [\b] finds no boundary around the word;
    between two digits the Russian keyword is found. *)
Example detectLanguage_samples :
  detectLanguage (Some (lit "buy shoes")) = en
  /\ detectLanguage
       (Some [1082; 1091; 1087; 1080; 1090; 1100]%N) (* купить *) = uk
  /\ detectLanguage
       (Some [49; 1094; 1077; 1085; 1072; 50]%N) (* 1цена2 *) = ru.
Proof. vm_compute; repeat split; reflexivity. Qed.

(** Two URLs with blank keyword lines: the topics are derived from the
    last path segments. *)
Example parseSimpleList_derived_topics :
  List.map topic
    (parseSimpleList
       (text_of [lit "https://x.com/blue-widgets"; lit "https://x.com/q"])
       (Some (text_of [[]; []])) (lit "auto") None None [])
  = [lit "blue widgets"; lit "q"].
Proof. vm_compute; reflexivity. Qed.

(** A CSV line of four fields in [chatgpt] mode: the instruction holds
    the URL, the topic, the brand and the business type of the row. *)
Example parseCSV_row_with_brand :
  List.map user_query
    (parseCSV (lit "https://a.com,Shoes,BrandX,retail") (lit "chatgpt")
              None None [])
  = [chatgptQuery (lit "https://a.com") (lit "Shoes") (lit "BrandX")
                  (lit "retail") []].
Proof. vm_compute; reflexivity. Qed.

(** A run of three items whose second submission is rejected: three
    outcomes, the second failed, and the second channel left open. *)
Example batch_with_one_rejection :
  let s' :=
    snd (processBatchRequest second_rejected (simple_form three_urls)
                             (lit "auto") initial) in
  List.map success (batchResults s') = [true; false; true]
  /\ List.map url (submitted (trace s'))
     = [lit "https://x.com/u1"; lit "https://x.com/u2";
        lit "https://x.com/u3"]
  /\ opened (trace s') = [0; 1; 2]
  /\ closed (trace s') = [0; 2].
Proof. vm_compute; repeat split; reflexivity. Qed.

(** A run of two items whose first reply is accepted with the body
    [null]: three entries for two pages, the summary counts three,
    and the first channel is left open. *)
Example batch_with_null_body :
  let s' :=
    snd (processBatchRequest first_null
           (simple_form (text_of [lit "https://x.com/u1";
                                  lit "https://x.com/u2"]))
           (lit "auto") initial) in
  List.map success (batchResults s') = [true; false; true]
  /\ summaries (trace s') = [(3, 2, 1)]
  /\ opened (trace s') = [0; 1]
  /\ closed (trace s') = [1].
Proof. vm_compute; repeat split; reflexivity. Qed.

(* ================================================================== *)
(** * More on the domain-list exports                                  *)
(* ================================================================== *)

Section MoreExportFacts.
Context {cm : CaseMapping}.

Lemma filter_from_kept {A} (p : A -> nat -> bool) i l x :
  In x (filter_from p i l) -> exists j, i <= j /\ p x j = true.
Proof.
  revert i; induction l as [|y l IH]; simpl; intros i H; [tauto|].
  destruct (p y i) eqn:E.
  - destruct H as [<-|H]; [exists i; auto|].
    destruct (IH _ H) as (j & Hj & Hp); exists j; split; [lia | auto].
  - destruct (IH _ H) as (j & Hj & Hp); exists j; split; [lia | auto].
Qed.

Lemma filter_from_NoDup {A} (p : A -> nat -> bool) :
  (forall x i j, p x i = true -> p x j = true -> i = j) ->
  forall l i, NoDup (filter_from p i l).
Proof.
  intros Hp; induction l as [|y l IH]; intros i; simpl; [constructor|].
  destruct (p y i) eqn:E; auto.
  constructor; auto.
  intros H; apply filter_from_kept in H as (j & Hj & Hpj).
  specialize (Hp _ _ _ E Hpj); lia.
Qed.

(** Removing duplicates leaves none. *)
Lemma unique_NoDup l : NoDup (unique l).
Proof.
  unfold unique, filter_indexed; apply filter_from_NoDup.
  intros x i j; destruct (indexOf l x) as [k|]; [|discriminate].
  intros Hi Hj; apply Nat.eqb_eq in Hi, Hj; congruence.
Qed.

Lemma exported_nonempty (p : LinkDetail -> bool) links :
  ~ In [] (unique (filter_truthy (List.map domain (filter p links)))).
Proof. intros H; apply exported_iff in H as [H _]; congruence. Qed.

(** X1. None of the three domain lists holds a domain twice or an
    empty domain. *)
Theorem exports_without_duplicates_or_blanks links :
  (NoDup (toxicDomains links) /\ ~ In [] (toxicDomains links))
  /\ (NoDup (suspiciousDomains links)
      /\ ~ In [] (suspiciousDomains links))
  /\ (NoDup (toxicAndSuspiciousDomains links)
      /\ ~ In [] (toxicAndSuspiciousDomains links)).
Proof.
  repeat split; try apply unique_NoDup; apply exported_nonempty.
Qed.

Lemma Qle_bool_30_of_50 q : Qle_bool 50 q = true -> Qle_bool 30 q = true.
Proof.
  rewrite !Qle_bool_iff; intros H.
  apply Qle_trans with (y := 50%Q); [discriminate | assumption].
Qed.

Lemma combined_filter link :
  isToxicOrSuspicious link = isToxic link || isSuspicious link.
Proof.
  unfold isToxicOrSuspicious, isToxic, isSuspicious, riskScoreOf.
  destruct (eqb (recommendationOf link) (lit "disavow")); simpl; auto.
  destruct (eqb (recommendationOf link) (lit "attention")); simpl.
  - symmetry; apply orb_true_r.
  - destruct (risk_score link) as [| |q]; try reflexivity.
    destruct (Qle_bool 50 q) eqn:E50; simpl.
    + apply Qle_bool_30_of_50; assumption.
    + rewrite andb_true_r; reflexivity.
Qed.

(** X2. The combined export holds exactly the domains of the toxic
    export and those of the suspicious export. *)
Theorem combined_export_is_union links d :
  In d (toxicAndSuspiciousDomains links)
  <-> In d (toxicDomains links) \/ In d (suspiciousDomains links).
Proof.
  unfold toxicAndSuspiciousDomains.
  rewrite exported_iff, toxic_iff, suspicious_iff.
  split.
  - intros (Hd & link & Hin & Hl & Hp).
    rewrite combined_filter in Hp; apply orb_true_iff in Hp as [Hp|Hp];
      [left | right]; eauto 6.
  - intros [(Hd & link & Hin & Hl & Hp)|(Hd & link & Hin & Hl & Hp)];
      (split; [assumption|]); exists link; rewrite combined_filter, Hp;
      repeat split; auto using orb_true_r.
Qed.

(** X3. A link passes the toxic and the suspicious filter at once
    exactly when it is tagged [attention] and has a score of at least
    50; any other link is in at most one of the two classes. *)
Theorem toxic_and_suspicious_overlap link :
  isToxic link = true /\ isSuspicious link = true
  <-> recommendationOf link = lit "attention"
      /\ exists q, risk_score link = Num q /\ (50 <= q)%Q.
Proof.
  unfold isToxic, isSuspicious.
  destruct (eqb (recommendationOf link) (lit "disavow")) eqn:D;
    destruct (eqb (recommendationOf link) (lit "attention")) eqn:A;
    simpl.
  - apply eqb_eq in D, A; rewrite D in A; discriminate.
  - apply eqb_neq in A; split; [intros [_ H]; discriminate | tauto].
  - apply eqb_eq in A; destruct (risk_score link) as [| |q].
    + split; [intros [H _]; discriminate | intros [_ (q & H & _)]];
        discriminate.
    + split; [intros [H _]; discriminate | intros [_ (q & H & _)]];
        discriminate.
    + rewrite Qle_bool_iff; split.
      * intros [H _]; eauto.
      * intros [_ (q' & E & H)]; injection E as <-; auto.
  - apply eqb_neq in A; split; [|tauto].
    destruct (risk_score link) as [| |q]; try (intros [H _]; discriminate).
    intros [H1 H2]; rewrite H1, andb_false_r in H2; discriminate.
Qed.



End MoreExportFacts.

Section RecountFacts.
Context {cm : CaseMapping}.

Lemma existsb_eqb_In x (l : list jsstring) :
  existsb (eqb x) l = true <-> In x l.
Proof.
  rewrite existsb_exists; split.
  - intros (y & Hy & E); apply eqb_eq in E; subst; assumption.
  - intros H; exists x; split; [assumption | apply eqb_refl].
Qed.

Lemma set_add_In d x set : In d (set_add x set) <-> d = x \/ In d set.
Proof.
  unfold set_add; destruct (existsb (eqb x) set) eqn:E.
  - apply existsb_eqb_In in E; split; [auto|].
    intros [->|H]; assumption.
  - rewrite in_app_iff; simpl; intuition congruence.
Qed.

Lemma set_add_NoDup x set : NoDup set -> NoDup (set_add x set).
Proof.
  unfold set_add; destruct (existsb (eqb x) set) eqn:E; auto.
  intros H. apply NoDup_app; [assumption | repeat constructor; simpl; tauto|].
  intros y Hy [<-|[]].
  apply existsb_eqb_In in Hy; congruence.
Qed.

Lemma recountStep_classes sets link :
  recountStep sets link
  = let d := toLowerCase (or_else (domain link) []) in
    if truthy d then
      if isToxic link then (set_add d (fst sets), snd sets)
      else if isSuspicious link then (fst sets, set_add d (snd sets))
      else sets
    else sets.
Proof.
  unfold recountStep, isToxic, isSuspicious, riskScoreOf; cbv zeta.
  destruct (truthy _); auto.
  destruct (eqb (recommendationOf link) (lit "disavow")); simpl; auto.
  destruct (risk_score link) as [| |q]; reflexivity.
Qed.

Lemma recountStep_NoDup sets link :
  NoDup (fst sets) -> NoDup (snd sets) ->
  NoDup (fst (recountStep sets link))
  /\ NoDup (snd (recountStep sets link)).
Proof.
  intros Ht Hs; rewrite recountStep_classes; cbv zeta.
  destruct (truthy _); auto.
  destruct (isToxic link); simpl; auto using set_add_NoDup.
  destruct (isSuspicious link); simpl; auto using set_add_NoDup.
Qed.

Lemma recountStep_In sets link d :
  let L := toLowerCase (or_else (domain link) []) in
  (In d (fst (recountStep sets link))
   <-> In d (fst sets) \/ (d <> [] /\ L = d /\ isToxic link = true))
  /\ (In d (snd (recountStep sets link))
      <-> In d (snd sets)
          \/ (d <> [] /\ L = d /\ isSuspicious link = true
              /\ isToxic link = false)).
Proof.
  intros L; rewrite recountStep_classes; cbv zeta; fold L.
  destruct (truthy L) eqn:T.
  - assert (HL : L <> []) by (apply truthy_true; assumption).
    destruct (isToxic link), (isSuspicious link); simpl;
      rewrite ?set_add_In; split; split;
      intuition (subst; congruence).
  - assert (HL : L = []) by (destruct L; [reflexivity | discriminate]).
    split; split; intuition congruence.
Qed.

Lemma recount_fold link_details :
  forall sets,
    NoDup (fst sets) -> NoDup (snd sets) ->
    let r := fold_left recountStep link_details sets in
    let lower link := toLowerCase (or_else (domain link) []) in
    NoDup (fst r) /\ NoDup (snd r)
    /\ (forall d,
          In d (fst r)
          <-> In d (fst sets)
              \/ (d <> [] /\ exists link,
                    In link link_details /\ lower link = d
                    /\ isToxic link = true))
    /\ (forall d,
          In d (snd r)
          <-> In d (snd sets)
              \/ (d <> [] /\ exists link,
                    In link link_details /\ lower link = d
                    /\ isSuspicious link = true
                    /\ isToxic link = false)).
Proof.
  induction link_details as [|link l IH]; intros sets Ht Hs; cbv zeta.
  - simpl; repeat split; auto; try tauto;
      intros [H|(_ & x & [] & _)]; assumption.
  - simpl fold_left.
    destruct (recountStep_NoDup sets link Ht Hs) as [Ht' Hs'].
    destruct (IH _ Ht' Hs') as (N1 & N2 & I1 & I2).
    split; [exact N1|]; split; [exact N2|].
    split; intros d; [rewrite I1 | rewrite I2];
      destruct (recountStep_In sets link d) as [S1 S2];
      [rewrite S1 | rewrite S2]; clear; split.
    + intros [[H|(Hd & Hl & Hp)]|(Hd & x & Hin & Hx)]; auto.
      * right; split; [assumption|]; exists link; simpl; auto.
      * right; split; [assumption|]; exists x; simpl; auto.
    + intros [H|(Hd & x & [<-|Hin] & Hl & Hp)]; auto.
      right; split; [assumption|]; exists x; auto.
    + intros [[H|(Hd & Hl & Hp)]|(Hd & x & Hin & Hx)]; auto.
      * right; split; [assumption|]; exists link; simpl; auto.
      * right; split; [assumption|]; exists x; simpl; auto.
    + intros [H|(Hd & x & [<-|Hin] & Hl & Hp)]; auto.
      right; split; [assumption|]; exists x; auto.
Qed.

(** X5. The two counts of the result page count distinct lower-cased
    non-empty domains: a domain counts as toxic when one of its links
    passes the filter of the toxic export, and as suspicious when one
    of its links passes the filter of the suspicious export without
    passing the toxic one. *)
Theorem recount_follows_export_filters link_details :
  let sets := recountSets link_details in
  let lower link := toLowerCase (or_else (domain link) []) in
  recountDomains link_details
  = (List.length (fst sets), List.length (snd sets))
  /\ NoDup (fst sets) /\ NoDup (snd sets)
  /\ (forall d,
        In d (fst sets)
        <-> d <> [] /\ exists link,
              In link link_details /\ lower link = d
              /\ isToxic link = true)
  /\ (forall d,
        In d (snd sets)
        <-> d <> [] /\ exists link,
              In link link_details /\ lower link = d
              /\ isSuspicious link = true /\ isToxic link = false).
Proof.
  intros sets lower; split; [reflexivity|].
  destruct (recount_fold link_details ([], []) (NoDup_nil _) (NoDup_nil _))
    as (N1 & N2 & I1 & I2).
  subst sets; unfold recountSets.
  split; [exact N1|]; split; [exact N2|].
  split; intros d; [rewrite (I1 d) | rewrite (I2 d)]; simpl; tauto.
Qed.

End RecountFacts.

(* ================================================================== *)
(** * More on the orchestrator                                         *)
(* ================================================================== *)

Section MoreTraceFacts.

Lemma sleeps_app a b : sleeps (a ++ b) = sleeps a ++ sleeps b.
Proof.
  induction a as [|[] a IH]; simpl; auto.
  rewrite IH; reflexivity.
Qed.

Lemma channel_sessions_app a b :
  channel_sessions (a ++ b) = channel_sessions a ++ channel_sessions b.
Proof.
  induction a as [|[] a IH]; simpl; auto.
  rewrite IH; reflexivity.
Qed.

Lemma request_sessions_app a b :
  request_sessions (a ++ b) = request_sessions a ++ request_sessions b.
Proof.
  induction a as [|[| | |[]| |] a IH]; simpl; auto;
    rewrite IH; reflexivity.
Qed.

Lemma summaries_app a b : summaries (a ++ b) = summaries a ++ summaries b.
Proof.
  induction a as [|[| | | | |[| | |k []| | | | |]] a IH]; simpl; auto.
  rewrite IH; reflexivity.
Qed.

Lemma alerts_app a b : alerts (a ++ b) = alerts a ++ alerts b.
Proof.
  induction a as [|[] a IH]; simpl; auto.
  rewrite IH; reflexivity.
Qed.

Lemma single_requests_app a b :
  single_requests (a ++ b) = single_requests a ++ single_requests b.
Proof.
  induction a as [|[| | |[]| |] a IH]; simpl; auto.
  rewrite IH; reflexivity.
Qed.

Lemma beats_app a b : beats (a ++ b) = beats a ++ beats b.
Proof.
  induction a as [|[] a IH]; simpl; auto;
    rewrite IH; reflexivity.
Qed.

End MoreTraceFacts.

#[export] Hint Rewrite sleeps_app channel_sessions_app request_sessions_app
  summaries_app alerts_app single_requests_app beats_app : trace_db.

Section MoreOrchestratorFacts.
Context {cm : CaseMapping}.
Variable w : world.

Lemma batchTurn_more delay total i item s :
  exists s',
    batchTurn w delay total i item s = (inr tt, s')
    /\ ids_drawn s' = S (ids_drawn s)
    /\ sleeps (trace s')
       = sleeps (trace s)
         ++ (if i <? total - 1 then [(delay * 1000)%Z] else [])
    /\ beats (trace s')
       = beats (trace s)
         ++ Submission
            :: (if i <? total - 1 then [Pause (delay * 1000)] else [])
    /\ channel_sessions (trace s')
       = channel_sessions (trace s) ++ [session_ids w (ids_drawn s)]
    /\ request_sessions (trace s')
       = request_sessions (trace s) ++ [session_ids w (ids_drawn s)]
    /\ summaries (trace s') = summaries (trace s)
    /\ alerts (trace s') = alerts (trace s).
Proof.
  destruct s as [ws sid wbr br sm ids fm tr].
  unfold batchTurn; destruct (i <? total - 1); run_script;
    destruct (replies w fm) as [m|[|] [m|r]]; run_script;
    rewrite ?shown_score_run;
    try (destruct (scored r) eqn:Sc; run_script;
         rewrite ?shown_score_run, ?Sc; run_script);
    eexists; (split; [reflexivity|]);
    cbn -[scored printed_score score_error];
    autorewrite with trace_db; cbn -[scored printed_score score_error];
    rewrite <- ?app_assoc;
    repeat split; reflexivity.
Qed.

Lemma batchLoop_more delay total rest :
  forall i s,
    total = i + List.length rest ->
    exists s',
      batchLoop w delay total i rest s = (inr tt, s')
      /\ ids_drawn s' = ids_drawn s + List.length rest
      /\ sleeps (trace s')
         = sleeps (trace s)
           ++ repeat (delay * 1000)%Z (List.length rest - 1)
      /\ beats (trace s')
         = beats (trace s) ++ paced (delay * 1000) (List.length rest)
      /\ channel_sessions (trace s')
         = channel_sessions (trace s)
           ++ List.map (session_ids w)
                       (seq (ids_drawn s) (List.length rest))
      /\ request_sessions (trace s')
         = request_sessions (trace s)
           ++ List.map (session_ids w)
                       (seq (ids_drawn s) (List.length rest))
      /\ summaries (trace s') = summaries (trace s)
      /\ alerts (trace s') = alerts (trace s).
Proof.
  induction rest as [|item rest IH]; intros i s Ht.
  - exists s; cbn; autorewrite with trace_db.
    rewrite Nat.add_0_r; repeat split; reflexivity.
  - destruct (batchTurn_more delay total i item s)
      as (s1 & E1 & D1 & Z1 & B1 & C1 & R1 & U1 & A1).
    cbn [List.length] in Ht.
    destruct (IH (S i) s1 ltac:(lia))
      as (s2 & E2 & D2 & Z2 & B2 & C2 & R2 & U2 & A2).
    exists s2.
    split; [cbn [batchLoop]; unfold bind; rewrite E1; exact E2|].
    rewrite D2, Z2, B2, C2, R2, U2, A2, D1, Z1, B1, C1, R1, U1, A1.
    cbn [List.length seq List.map]; rewrite <- !app_assoc.
    assert (Hi : (i <? total - 1)
                 = match rest with [] => false | _ :: _ => true end).
    { destruct rest; [apply Nat.ltb_ge | apply Nat.ltb_lt];
        cbn in Ht; lia. }
    rewrite Hi.
    repeat split; try reflexivity; try lia; f_equal;
      destruct rest as [|item' rest]; try reflexivity.
    cbn [List.length].
    replace (S (S (List.length rest)) - 1)
      with (S (S (List.length rest) - 1)) by lia.
    reflexivity.
Qed.

Lemma count_partition (l : list outcome) :
  count_if success l + count_if (fun r => negb (success r)) l
  = List.length l.
Proof.
  unfold count_if; induction l as [|o l IH]; simpl; auto.
  destruct (success o); simpl; lia.
Qed.

Lemma count_if_app p (a b : list outcome) :
  count_if p (a ++ b) = count_if p a + count_if p b.
Proof. unfold count_if; rewrite filter_app, length_app; reflexivity. Qed.

(** How many entries a batch leaves, by the replies it got: an
    accepted reply counts as a success, any other as a failure, and
    an accepted reply without score line as a failure as well. *)
Lemma all_outcomes_counts items :
  forall k,
    let rs := replies_from w k (List.length items) in
    let l := all_outcomes_from w k items in
    List.length l
    = List.length items + List.length (filter spoiled rs)
    /\ count_if success l = List.length (filter is_accepted rs)
    /\ count_if (fun r => negb (success r)) l
       = List.length (filter (fun r => negb (is_accepted r)) rs)
         + List.length (filter spoiled rs).
Proof.
  induction items as [|item items IH]; intros k.
  - repeat split; reflexivity.
  - destruct (IH (S k)) as (L & A & B).
    cbv zeta; rewrite all_outcomes_from_cons.
    rewrite length_app, !count_if_app, L, A, B.
    unfold replies_from; cbn [List.length seq List.map filter].
    unfold outcomes_of, outcome_of, spoiled, is_accepted, accepted_reply,
      count_if.
    destruct (replies w k) as [m|[|] [m|r]]; cbn -[scored];
      try (destruct (scored r); cbn);
      repeat split; lia.
Qed.

Lemma accepted_or_rejected (rs : list fetch_reply) :
  List.length (filter is_accepted rs)
  + List.length (filter (fun r => negb (is_accepted r)) rs)
  = List.length rs.
Proof.
  induction rs as [|r rs IH]; simpl; auto.
  destruct (is_accepted r); simpl; lia.
Qed.

Lemma runBatch_more delay items s :
  items <> [] ->
  let s' := snd (runBatch w delay items s) in
  sleeps (trace s')
  = sleeps (trace s)
    ++ repeat (delay * 1000)%Z (List.length items - 1)
  /\ beats (trace s')
     = beats (trace s) ++ paced (delay * 1000) (List.length items)
  /\ channel_sessions (trace s')
     = channel_sessions (trace s)
       ++ List.map (session_ids w)
                   (seq (ids_drawn s) (List.length items))
  /\ request_sessions (trace s')
     = request_sessions (trace s)
       ++ List.map (session_ids w)
                   (seq (ids_drawn s) (List.length items))
  /\ summaries (trace s')
     = summaries (trace s)
       ++ [(List.length (batchResults s'),
            count_if success (batchResults s'),
            count_if (fun r => negb (success r)) (batchResults s'))]
  /\ alerts (trace s') = alerts (trace s).
Proof.
  intros Hne; unfold runBatch.
  destruct (List.length items =? 0) eqn:E0.
  { apply Nat.eqb_eq, length_zero_iff_nil in E0; contradiction. }
  destruct s as [ws sid wbr br sm ids fm tr].
  run_script.
  match goal with
  | |- context [batchLoop w ?d ?t ?i ?r ?s0] =>
      destruct (batchLoop_more d t r i s0 eq_refl)
        as (s1 & E1 & D1 & Z1 & B1 & C1 & R1 & U1 & A1)
  end.
  rewrite E1; destruct s1 as [ws1 sid1 wbr1 br1 sm1 ids1 fm1 tr1].
  cbn in D1, Z1, B1, C1, R1, U1, A1.
  run_script.
  match goal with
  | |- context [displayBatchResults ?l ?st] =>
      destruct (displayBatchResults_run l st) as [[e E]|E]; rewrite E
  end;
    cbn; autorewrite with trace_db; cbn;
    rewrite Z1, B1, C1, R1, U1, A1;
    autorewrite with trace_db; cbn; autorewrite with trace_db;
    repeat split; reflexivity.
Qed.

(** With its input present, [processBatchRequest] runs the batch on
    the parsed items with the delay of the form. *)
Lemma processBatchRequest_runs formData generationMode :
  required_input_missing formData = false ->
  processBatchRequest w formData generationMode
  = runBatch w (delay_seconds formData)
             (parsedItems formData generationMode).
Proof.
  unfold required_input_missing, processBatchRequest, parsedItems.
  intros H.
  replace (match batchDelay formData with
           | Some 0%Z | None => 2%Z
           | Some d => d
           end)
    with (delay_seconds formData)
    by (unfold delay_seconds; destruct (batchDelay formData) as [[| |]|];
        reflexivity).
  destruct (eqb (batchInputType formData) (lit "simple")).
  - apply negb_false_iff in H; rewrite H; reflexivity.
  - destruct (eqb (batchInputType formData) (lit "csv")).
    + destruct (csvFile formData) as [[|c t]|]; try discriminate;
        reflexivity.
    + apply negb_false_iff in H; rewrite H; reflexivity.
Qed.

(** X6. A batch of N items waits N-1 times, once between the
    submissions of every two consecutive items and not after the
    last, each time for the delay of the form in milliseconds (two
    seconds when the field does not parse or is zero). *)
Theorem batch_waits_between_items formData generationMode s :
  required_input_missing formData = false ->
  parsedItems formData generationMode <> [] ->
  let items := parsedItems formData generationMode in
  let s' := snd (processBatchRequest w formData generationMode s) in
  let wait := (delay_seconds formData * 1000)%Z in
  beats (trace s') = beats (trace s) ++ paced wait (List.length items)
  /\ sleeps (trace s')
     = sleeps (trace s) ++ repeat wait (List.length items - 1).
Proof.
  intros Hin Hne items s' wait; unfold s', wait.
  rewrite (processBatchRequest_runs formData generationMode Hin).
  destruct (runBatch_more (delay_seconds formData) items s Hne)
    as (Z & B & _).
  split; assumption.
Qed.

(** X7. In a batch every item gets a session identifier of its own,
    the next one drawn, and the submission of the item carries the
    identifier of the channel opened for it. *)
Theorem batch_sessions_match_channels formData generationMode s :
  required_input_missing formData = false ->
  parsedItems formData generationMode <> [] ->
  let items := parsedItems formData generationMode in
  let s' := snd (processBatchRequest w formData generationMode s) in
  let drawn :=
    List.map (session_ids w) (seq (ids_drawn s) (List.length items)) in
  channel_sessions (trace s') = channel_sessions (trace s) ++ drawn
  /\ request_sessions (trace s') = request_sessions (trace s) ++ drawn.
Proof.
  intros Hin Hne items s' drawn; unfold s', drawn.
  rewrite (processBatchRequest_runs formData generationMode Hin).
  destruct (runBatch_more (delay_seconds formData) items s Hne)
    as (_ & _ & C & R & _).
  split; assumption.
Qed.

(** X8. A batch that starts logs one summary line and raises no
    alert, whatever the replies.  Its succeeded count is the number
    of accepted replies; its failed count is the number of the other
    replies plus the number of accepted replies without score line,
    which are recorded a second time as failures; its total is the
    sum of the two, the number of items plus the number of replies
    recorded twice. *)
Theorem batch_summary_adds_up formData generationMode s :
  required_input_missing formData = false ->
  parsedItems formData generationMode <> [] ->
  let items := parsedItems formData generationMode in
  let s' := snd (processBatchRequest w formData generationMode s) in
  let rs := replies_from w (fetches_made s) (List.length items) in
  let accepted := List.length (filter is_accepted rs) in
  let rejected :=
    List.length (filter (fun r => negb (is_accepted r)) rs) in
  let twice := List.length (filter spoiled rs) in
  summaries (trace s')
  = summaries (trace s)
    ++ [(List.length items + twice, accepted, rejected + twice)]
  /\ accepted + rejected = List.length items
  /\ alerts (trace s') = alerts (trace s).
Proof.
  intros Hin Hne items s' rs accepted rejected twice.
  unfold s', accepted, rejected, twice, rs.
  rewrite (processBatchRequest_runs formData generationMode Hin).
  destruct (runBatch_more (delay_seconds formData) items s Hne)
    as (_ & _ & _ & _ & U & A).
  destruct (runBatch_run w (delay_seconds formData) items s Hne)
    as (B & _).
  destruct (all_outcomes_counts items (fetches_made s)) as (L & K & F).
  fold items in U, A, B |- *.
  rewrite U, B, L, K, F.
  split; [reflexivity|].
  split; [|exact A].
  rewrite accepted_or_rejected; unfold replies_from.
  rewrite length_map, length_seq; reflexivity.
Qed.


End MoreOrchestratorFacts.

Lemma batch_waits_between_items_witness :
  beats (trace (snd (processBatchRequest second_rejected
                       (simple_form three_urls) (lit "auto") initial)))
  = [Submission; Pause 2000; Submission; Pause 2000; Submission].
Proof.
  assert (H1 : required_input_missing (simple_form three_urls) = false)
    by (vm_compute; reflexivity).
  assert (H2 : parsedItems (simple_form three_urls) (lit "auto") <> [])
    by (vm_compute; discriminate).
  destruct (batch_waits_between_items second_rejected
              (simple_form three_urls) (lit "auto") initial H1 H2)
    as [B _].
  etransitivity; [exact B | vm_compute; reflexivity].
Defined.

Lemma batch_sessions_match_channels_witness :
  channel_sessions
    (trace (snd (processBatchRequest second_rejected
                   (simple_form three_urls) (lit "auto") initial)))
  = request_sessions
      (trace (snd (processBatchRequest second_rejected
                     (simple_form three_urls) (lit "auto") initial))).
Proof.
  assert (H1 : required_input_missing (simple_form three_urls) = false)
    by (vm_compute; reflexivity).
  assert (H2 : parsedItems (simple_form three_urls) (lit "auto") <> [])
    by (vm_compute; discriminate).
  destruct (batch_sessions_match_channels second_rejected
              (simple_form three_urls) (lit "auto") initial H1 H2)
    as [C R].
  rewrite C, R; reflexivity.
Defined.

Lemma batch_summary_adds_up_witness :
  summaries
    (trace (snd (processBatchRequest second_rejected
                   (simple_form three_urls) (lit "auto") initial)))
  = [(3, 2, 1)]
  /\ summaries
       (trace (snd (processBatchRequest null_replies
                      (simple_form three_urls) (lit "auto") initial)))
     = [(6, 3, 3)].
Proof.
  assert (H1 : required_input_missing (simple_form three_urls) = false)
    by (vm_compute; reflexivity).
  assert (H2 : parsedItems (simple_form three_urls) (lit "auto") <> [])
    by (vm_compute; discriminate).
  split.
  - destruct (batch_summary_adds_up second_rejected
                (simple_form three_urls) (lit "auto") initial H1 H2)
      as (U & _).
    etransitivity; [exact U | vm_compute; reflexivity].
  - destruct (batch_summary_adds_up null_replies
                (simple_form three_urls) (lit "auto") initial H1 H2)
      as (U & _).
    etransitivity; [exact U | vm_compute; reflexivity].
Defined.

(* ================================================================== *)
(** * The submit listener                                              *)
(* ================================================================== *)

Section SubmitFacts.
Context {cm : CaseMapping}.
Variable w : world.

Lemma single_branch f :
  f_processingMode f <> lit "batch" ->
  eqb (f_processingMode f) (lit "batch")
  && negb (eqb (f_generationMode f) (lit "link_analysis")) = false.
Proof. intros H; apply eqb_neq in H; rewrite H; reflexivity. Qed.

(** X10. In the [link_analysis] generation mode the submit listener
    does nothing, in the single and in the batch processing mode: no
    alert, no channel, no submission. *)
Theorem link_analysis_submit_does_nothing f s :
  f_generationMode f = lit "link_analysis" ->
  seoFormSubmit w f s = (inr tt, s).
Proof.
  intros H; unfold seoFormSubmit; rewrite H, eqb_refl.
  rewrite andb_false_r; reflexivity.
Qed.

Lemma replaceSpaceRuns_no_space b s :
  Forall (fun c => isWhiteSpace c = false) (replaceSpaceRuns b s).
Proof.
  revert b; induction s as [|c s IH]; intros b; simpl; [constructor|].
  destruct (isWhiteSpace c) eqn:E.
  - destruct b; [apply IH | constructor; [reflexivity | apply IH]].
  - constructor; [assumption | apply IH].
Qed.

(** X11. With the single processing mode, a missing required field
    stops the listener at one alert and nothing is submitted: in the
    [auto] mode when the URL or the topic is empty, in the other
    modes when the keyword, the brand or the business type is empty.
    In these other modes the default URL is built from the keyword
    before the check, so when the form has neither a URL nor a
    keyword field the listener throws before it alerts. *)
Theorem single_submit_preflight f s :
  f_processingMode f <> lit "batch" ->
  (f_generationMode f = lit "auto" ->
   truthy_opt (f_url f) = false \/ truthy_opt (f_topic f) = false ->
   seoFormSubmit w f s = alert msg_fill_url_and_topic s)
  /\ (f_generationMode f <> lit "auto" ->
      f_generationMode f <> lit "link_analysis" ->
      truthy_opt (f_chatgptUrl f) = true \/ f_h1Keyword f <> None ->
      truthy_opt (f_h1Keyword f) = false
      \/ truthy_opt (f_brandName f) = false
      \/ truthy_opt (f_businessType f) = false ->
      seoFormSubmit w f s = alert msg_fill_required s)
  /\ (f_generationMode f <> lit "auto" ->
      f_generationMode f <> lit "link_analysis" ->
      truthy_opt (f_chatgptUrl f) = false ->
      f_h1Keyword f = None ->
      seoFormSubmit w f s = (inl {| message := msg_null_toLowerCase |}, s)).
Proof.
  intros Hs; unfold seoFormSubmit; rewrite (single_branch f Hs).
  split; [|split].
  - intros -> H; cbn [eqb lit].
    replace (eqb (lit "auto") (lit "auto")) with true by reflexivity.
    destruct H as [H|H]; rewrite H; [|rewrite orb_true_r]; reflexivity.
  - intros Ha Hl Hu Hm.
    apply eqb_neq in Ha, Hl; rewrite Ha, Hl.
    assert (B : forall t, brandedSubmit w t f s = alert msg_fill_required s).
    { intros t; unfold brandedSubmit, chatgptUrlOrDefault, bind.
      assert (C : negb (truthy_opt (f_h1Keyword f))
                  || negb (truthy_opt (f_brandName f))
                  || negb (truthy_opt (f_businessType f)) = true).
      { destruct Hm as [H|[H|H]]; rewrite H; simpl;
          rewrite ?orb_true_r; reflexivity. }
      destruct (truthy_opt (f_chatgptUrl f)).
      - unfold ret; rewrite C; reflexivity.
      - destruct Hu as [Hu|Hu]; [discriminate|].
        destruct (f_h1Keyword f); [|congruence].
        unfold ret; rewrite C; reflexivity. }
    destruct (eqb (f_generationMode f) (lit "meta_only")); apply B.
  - intros Ha Hl Hu Hk.
    apply eqb_neq in Ha, Hl; rewrite Ha, Hl.
    assert (B : forall t, brandedSubmit w t f s
                          = (inl {| message := msg_null_toLowerCase |}, s)).
    { intros t; unfold brandedSubmit, chatgptUrlOrDefault, bind.
      rewrite Hu, Hk; reflexivity. }
    destruct (eqb (f_generationMode f) (lit "meta_only")); apply B.
Qed.

(** X12. With the single processing mode and all required fields
    filled in, the listener makes exactly the single submission of
    the data built from the form: in the [auto] mode the URL, the
    topic and the default instruction; in the other modes the given
    URL, or the default URL of the keyword when none is given, the
    keyword as topic and keyword, the detected language, and the
    [meta_only] instruction in that mode and the content instruction
    in any other. *)
Theorem valid_single_submit f s :
  f_processingMode f <> lit "batch" ->
  (forall u t,
     f_generationMode f = lit "auto" ->
     f_url f = Some u -> u <> [] -> f_topic f = Some t -> t <> [] ->
     seoFormSubmit w f s
     = processRequest w
         {| data_url := u; data_topic := t; data_keyword := None;
            data_target_audience := None; data_language := None;
            data_user_query := autoQuery u t |} s)
  /\ (forall h brand business,
        f_generationMode f <> lit "auto" ->
        f_generationMode f <> lit "link_analysis" ->
        f_h1Keyword f = Some h -> h <> [] ->
        f_brandName f = Some brand -> brand <> [] ->
        f_businessType f = Some business -> business <> [] ->
        let u := if truthy_opt (f_chatgptUrl f)
                 then or_else (f_chatgptUrl f) []
                 else defaultUrl h in
        let audience := or_else (f_targetAudience f) [] in
        seoFormSubmit w f s
        = processRequest w
            {| data_url := u; data_topic := h; data_keyword := Some h;
               data_target_audience := Some audience;
               data_language := Some (detectLanguage (Some h));
               data_user_query :=
                 if eqb (f_generationMode f) (lit "meta_only")
                 then metaOnlyQuery u h brand business audience
                 else chatgptQuery u h brand business audience |} s).
Proof.
  intros Hs; unfold seoFormSubmit; rewrite (single_branch f Hs).
  split.
  - intros u t -> Hu Hu' Ht Ht'.
    replace (eqb (lit "auto") (lit "auto")) with true by reflexivity.
    rewrite Hu, Ht.
    destruct u; [congruence|]; destruct t; [congruence|]; reflexivity.
  - intros h brand business Ha Hl Hh Hh' Hb Hb' Hk Hk'; cbv zeta.
    set (u := if truthy_opt (f_chatgptUrl f)
              then or_else (f_chatgptUrl f) []
              else defaultUrl h).
    set (audience := or_else (f_targetAudience f) []).
    apply eqb_neq in Ha, Hl; rewrite Ha, Hl.
    assert (B : forall t,
               brandedSubmit w t f s
               = processRequest w
                   {| data_url := u; data_topic := h;
                      data_keyword := Some h;
                      data_target_audience := Some audience;
                      data_language := Some (detectLanguage (Some h));
                      data_user_query := t u h brand business audience |}
                   s).
    { intros t; unfold brandedSubmit, chatgptUrlOrDefault, bind, u.
      rewrite Hh, Hb, Hk.
      destruct h; [congruence|]; destruct brand; [congruence|];
        destruct business; [congruence|].
      destruct (truthy_opt (f_chatgptUrl f)); reflexivity. }
    destruct (eqb (f_generationMode f) (lit "meta_only")); apply B.
Qed.

Lemma defaultUrl_spaceless h1Keyword :
  Forall (fun c => isWhiteSpace c = false) (defaultUrl h1Keyword).
Proof.
  unfold defaultUrl; apply Forall_app; split.
  - assert (F : forallb (fun c => negb (isWhiteSpace c))
                        (lit "https://example.com/") = true)
      by (vm_compute; reflexivity).
    rewrite forallb_forall in F.
    apply Forall_forall; intros c Hc; specialize (F c Hc).
    destruct (isWhiteSpace c); [discriminate | reflexivity].
  - apply replaceSpaceRuns_no_space.
Qed.

(** A word is copied, and ends a run when it is not empty. *)
Lemma replaceSpaceRuns_word word :
  spaceless word = true ->
  forall b rest,
    replaceSpaceRuns b (word ++ rest)
    = word
      ++ replaceSpaceRuns (match word with [] => b | _ :: _ => false end)
                          rest.
Proof.
  induction word as [|c word IH]; intros Hw b rest; [reflexivity|].
  cbn [spaceless forallb] in Hw; apply andb_true_iff in Hw as [Hc Hw].
  apply negb_true_iff in Hc.
  cbn [app replaceSpaceRuns]; rewrite Hc, (IH Hw false rest).
  destruct word; reflexivity.
Qed.

(** White space after white space leaves nothing. *)
Lemma replaceSpaceRuns_blank run :
  blank run = true ->
  forall rest,
    replaceSpaceRuns true (run ++ rest) = replaceSpaceRuns true rest.
Proof.
  induction run as [|c run IH]; intros Hr rest; [reflexivity|].
  cbn [blank forallb] in Hr; apply andb_true_iff in Hr as [Hc Hr].
  cbn [app replaceSpaceRuns]; rewrite Hc; apply IH; exact Hr.
Qed.

(** A run that follows a word leaves one hyphen. *)
Lemma replaceSpaceRuns_run run :
  truthy run = true -> blank run = true ->
  forall rest,
    replaceSpaceRuns false (run ++ rest)
    = 45%N :: replaceSpaceRuns true rest.
Proof.
  destruct run as [|c run]; [discriminate|]; intros _ Hr rest.
  cbn [blank forallb] in Hr; apply andb_true_iff in Hr as [Hc Hr].
  cbn [app replaceSpaceRuns]; rewrite Hc.
  f_equal; apply replaceSpaceRuns_blank; exact Hr.
Qed.

Lemma replaceSpaceRuns_spelled rest :
  forall first b,
    cut_at_runs first rest = true ->
    b = false \/ first <> [] \/ rest = [] ->
    replaceSpaceRuns b (spelled first rest) = hyphenated first rest.
Proof.
  unfold cut_at_runs, spelled, hyphenated.
  induction rest as [|[run word] rest IH]; intros first b Hc Hb;
    apply andb_true_iff in Hc as [Hf Hr].
  - cbn [List.map List.concat].
    rewrite (replaceSpaceRuns_word first Hf); destruct first; reflexivity.
  - cbn [runs_and_words] in Hr.
    apply andb_true_iff in Hr as [Hr Hrest].
    apply andb_true_iff in Hr as [Hr Hlast].
    apply andb_true_iff in Hr as [Hr Hword].
    apply andb_true_iff in Hr as [Hrun Hblank].
    cbn [List.map List.concat fst snd].
    rewrite (replaceSpaceRuns_word first Hf).
    replace (match first with [] => b | _ :: _ => false end) with false
      by (destruct first; [|reflexivity];
          destruct Hb as [->|[H|H]];
          [reflexivity | contradiction | discriminate]).
    rewrite <- app_assoc, (replaceSpaceRuns_run run Hrun Hblank).
    rewrite (IH word true).
    + reflexivity.
    + rewrite Hword, Hrest; reflexivity.
    + apply orb_true_iff in Hlast as [H|H].
      * right; left; destruct word; [discriminate H | discriminate].
      * right; right; destruct rest; [reflexivity | discriminate H].
Qed.

(** Every text can be cut at its runs of white space. *)
Lemma cut_exists s :
  exists first rest,
    s = spelled first rest /\ cut_at_runs first rest = true.
Proof.
  unfold cut_at_runs, spelled.
  induction s as [|c s (first & rest & E & Hc)].
  - exists [], []; split; reflexivity.
  - apply andb_true_iff in Hc as [Hf Hr].
    destruct (isWhiteSpace c) eqn:Ec.
    + destruct first as [|d first].
      * destruct rest as [|[run word] rest].
        -- exists [], [([c], [])]; split; [rewrite E; reflexivity|].
           cbn; rewrite Ec; reflexivity.
        -- exists [], ((c :: run, word) :: rest).
           split; [rewrite E; reflexivity|].
           destruct run as [|r run]; [discriminate Hr|].
           cbn [runs_and_words blank forallb truthy andb] in Hr |- *.
           rewrite Ec; exact Hr.
      * exists [], (([c], d :: first) :: rest).
        split; [rewrite E; reflexivity|].
        cbn [runs_and_words forallb blank truthy andb orb].
        rewrite Ec, Hf, Hr; reflexivity.
    + exists (c :: first), rest.
      split; [rewrite E; reflexivity|].
      change (spaceless (c :: first))
        with (negb (isWhiteSpace c) && spaceless first).
      rewrite Ec, Hf, Hr; reflexivity.
Qed.

(** X13. The default URL of a keyword is [https://example.com/]
    followed by the lower-cased keyword with every run of white space
    replaced by one hyphen: however the lower-cased keyword is cut at
    its runs of white space, and it can always be cut, the URL is the
    prefix and the words joined by single hyphens; it holds no white
    space. *)
Theorem defaultUrl_hyphenates_keyword h1Keyword :
  (forall first rest,
     toLowerCase h1Keyword = spelled first rest ->
     cut_at_runs first rest = true ->
     defaultUrl h1Keyword
     = lit "https://example.com/" ++ hyphenated first rest)
  /\ (exists first rest,
        toLowerCase h1Keyword = spelled first rest
        /\ cut_at_runs first rest = true)
  /\ Forall (fun c => isWhiteSpace c = false) (defaultUrl h1Keyword).
Proof.
  split; [|split; [apply cut_exists | apply defaultUrl_spaceless]].
  intros first rest Hlower Hcut.
  unfold defaultUrl; rewrite Hlower.
  rewrite (replaceSpaceRuns_spelled rest first false Hcut);
    [reflexivity | left; reflexivity].
Qed.

End SubmitFacts.

Lemma basic_case_ascii_closed : ascii_upper_closed basic_case.
Proof.
  intros c Hc; unfold Re.Canonicalize; cbn [toUpperCase basic_case List.map].
  replace (128 <=? c)%N with false by (symmetry; apply N.leb_gt; lia).
  cbn [andb]; unfold upper1.
  destruct ((97 <=? c) && (c <=? 122))%N; [lia|].
  destruct ((1072 <=? c) && (c <=? 1103))%N eqn:E1.
  { apply andb_true_iff in E1 as [E1 _]; apply N.leb_le in E1; lia. }
  destruct ((1104 <=? c) && (c <=? 1119))%N eqn:E2.
  { apply andb_true_iff in E2 as [E2 _]; apply N.leb_le in E2; lia. }
  destruct (c =? 1169)%N eqn:E3; [apply N.eqb_eq in E3; lia | assumption].
Qed.

Lemma defaultUrl_hyphenates_keyword_witness :
  defaultUrl (lit " Red  Shoes ") = lit "https://example.com/-red-shoes-".
Proof.
  assert (H1 : toLowerCase (lit " Red  Shoes ")
               = spelled [] [(lit " ", lit "red"); (lit "  ", lit "shoes");
                             (lit " ", [])])
    by (vm_compute; reflexivity).
  assert (H2 : cut_at_runs [] [(lit " ", lit "red"); (lit "  ", lit "shoes");
                               (lit " ", [])] = true)
    by (vm_compute; reflexivity).
  destruct (defaultUrl_hyphenates_keyword (lit " Red  Shoes ")) as [E _].
  etransitivity; [exact (E [] _ H1 H2) | vm_compute; reflexivity].
Defined.

Lemma link_analysis_submit_does_nothing_witness :
  seoFormSubmit all_rejected
    (single_form (lit "link_analysis") None None None) initial
  = (inr tt, initial).
Proof.
  apply (link_analysis_submit_does_nothing all_rejected
           (single_form (lit "link_analysis") None None None) initial).
  reflexivity.
Defined.

Lemma single_submit_preflight_witness :
  seoFormSubmit all_rejected
    (single_form (lit "chatgpt") (Some (lit "red shoes")) None None)
    initial
  = alert msg_fill_required initial
  /\ seoFormSubmit all_rejected
       (single_form (lit "chatgpt") None None None) initial
     = (inl {| message := msg_null_toLowerCase |}, initial).
Proof.
  split.
  - apply (single_submit_preflight all_rejected
             (single_form (lit "chatgpt") (Some (lit "red shoes")) None None)
             initial).
    + discriminate.
    + discriminate.
    + discriminate.
    + right; discriminate.
    + right; left; reflexivity.
  - apply (single_submit_preflight all_rejected
             (single_form (lit "chatgpt") None None None) initial).
    + discriminate.
    + discriminate.
    + discriminate.
    + reflexivity.
    + reflexivity.
Defined.

Lemma valid_single_submit_witness :
  seoFormSubmit second_rejected
    (single_form (lit "meta_only") (Some (lit "Red  Shoes"))
                 (Some (lit "Acme")) (Some (lit "shop"))) initial
  = processRequest second_rejected
      {| data_url := lit "https://example.com/red-shoes";
         data_topic := lit "Red  Shoes";
         data_keyword := Some (lit "Red  Shoes");
         data_target_audience := Some [];
         data_language := Some en;
         data_user_query :=
           metaOnlyQuery (lit "https://example.com/red-shoes")
                         (lit "Red  Shoes") (lit "Acme") (lit "shop") [] |}
      initial.
Proof.
  destruct (valid_single_submit second_rejected
              (single_form (lit "meta_only") (Some (lit "Red  Shoes"))
                           (Some (lit "Acme")) (Some (lit "shop")))
              initial) as [_ H]; [discriminate|].
  rewrite (H (lit "Red  Shoes") (lit "Acme") (lit "shop"));
    try discriminate; try reflexivity.
Defined.

(* ================================================================== *)
(** * More on the batch item parser                                    *)
(* ================================================================== *)

Section MoreStringFacts.

Lemma split_app_sep sep a b :
  split sep (a ++ sep :: b) = split sep a ++ split sep b.
Proof.
  induction a as [|c a IH]; simpl.
  - rewrite N.eqb_refl; reflexivity.
  - rewrite IH; destruct (N.eqb c sep); [reflexivity|].
    destruct (split_cons sep a) as (h & t & ->); reflexivity.
Qed.

Lemma trimEnd_keeps_head c s :
  isWhiteSpace c = false -> exists t, trimEnd (c :: s) = c :: t.
Proof.
  intros H; simpl; rewrite H.
  destruct (trimEnd s); eauto.
Qed.

Lemma trimEnd_cons c s :
  trimEnd (c :: s)
  = match trimEnd s with
    | [] => if isWhiteSpace c then [] else [c]
    | x :: t => c :: x :: t
    end.
Proof. reflexivity. Qed.

Lemma trimEnd_idempotent s : trimEnd (trimEnd s) = trimEnd s.
Proof.
  induction s as [|c s IH]; [reflexivity|].
  rewrite trimEnd_cons.
  destruct (trimEnd s) as [|x t] eqn:E.
  - destruct (isWhiteSpace c) eqn:W; [reflexivity|].
    rewrite trimEnd_cons, W; reflexivity.
  - rewrite trimEnd_cons, IH; reflexivity.
Qed.

Lemma trimStart_head s :
  trimStart s = []
  \/ exists c t, trimStart s = c :: t /\ isWhiteSpace c = false.
Proof.
  induction s as [|c s IH]; simpl; auto.
  destruct (isWhiteSpace c) eqn:W; eauto.
Qed.

(** Trimming twice is trimming once. *)
Lemma trim_idempotent s : trim (trim s) = trim s.
Proof.
  unfold trim.
  destruct (trimStart_head s) as [->|(c & t & -> & W)]; [reflexivity|].
  destruct (trimEnd_keeps_head c t W) as (t' & E).
  rewrite E; simpl trimStart; rewrite W, <- E.
  apply trimEnd_idempotent.
Qed.




End MoreStringFacts.

Section MoreParserFacts.
Context {cm : CaseMapping}.
Variables (generationMode : jsstring)
          (brandName businessType : option jsstring)
          (targetAudience : jsstring).

(** X14. [parseCSV] works line by line: the items of two texts joined
    by a line feed are the items of the first followed by the items
    of the second. *)
Theorem parseCSV_concat a b :
  parseCSV (a ++ newline :: b) generationMode brandName businessType
           targetAudience
  = parseCSV a generationMode brandName businessType targetAudience
    ++ parseCSV b generationMode brandName businessType targetAudience.
Proof.
  rewrite !parseCSV_rows, split_app_sep, map_app, filter_app, map_app.
  reflexivity.
Qed.

(** Every item of [parseSimpleList] is built from a trimmed non-empty
    URL line. *)
Lemma parseSimpleList_item urlList keywordsList item :
  In item (parseSimpleList urlList keywordsList generationMode brandName
                           businessType targetAudience) ->
  exists keywords u index,
    item = simpleItem keywords generationMode brandName businessType
                      targetAudience (trim u) index
    /\ truthy (trim u) = true
    /\ Forall (fun k => truthy (trim k) = true) keywords.
Proof.
  unfold parseSimpleList.
  rewrite forEach_simpleRow by apply nonblank_filtered.
  cbn [app]; intros H; apply in_map_iff in H as ([i u] & <- & Hin).
  apply in_combine_r in Hin; apply filter_In in Hin as [_ Hu].
  eexists _, u, i; split; [reflexivity|]; split; [exact Hu|].
  destruct (truthy_opt keywordsList);
    [apply nonblank_filtered | constructor].
Qed.

(** X15. The instruction of an item of [parseSimpleList] follows the
    generation mode only when both the brand and the business type of
    the form are filled in: then the [chatgpt] mode gives the content
    phrasing and the [meta_only] mode the meta-tags phrasing; in every
    other case the item gets the default phrasing with its URL and
    topic alone. *)
Theorem parseSimpleList_instruction urlList keywordsList item :
  In item (parseSimpleList urlList keywordsList generationMode brandName
                           businessType targetAudience) ->
  let branded := truthy_opt brandName && truthy_opt businessType in
  let brand := firstNonEmpty [brandName] [] in
  let business := firstNonEmpty [businessType] [] in
  let audience :=
    match targetAudience with
    | [] => []
    | _ :: _ => utf16 " Цільова аудиторія: " ++ targetAudience ++ lit "."
    end in
  (branded = true -> generationMode = lit "chatgpt" ->
   user_query item
   = utf16 "Створи контент для " ++ url item
     ++ utf16 " з ключовим словом " ++ quote ++ topic item ++ quote
     ++ utf16 " для бренду " ++ brand
     ++ lit " (" ++ business ++ lit ")" ++ audience)
  /\ (branded = true -> generationMode = lit "meta_only" ->
      user_query item
      = utf16 "Створи тільки мета-теги (Title та Description) для "
        ++ url item
        ++ utf16 " з ключовим словом " ++ quote ++ topic item ++ quote
        ++ utf16 " для бренду " ++ brand
        ++ lit " (" ++ business
        ++ utf16 "). Без генерації тексту контенту." ++ audience)
  /\ (branded = false
      \/ (generationMode <> lit "chatgpt"
          /\ generationMode <> lit "meta_only") ->
      user_query item
      = utf16 "Згенеруй текст для " ++ url item
        ++ utf16 " про " ++ topic item).
Proof.
  intros H branded brand business audience.
  destruct (parseSimpleList_item _ _ _ H) as (kws & u & i & -> & _ & _).
  unfold simpleItem; cbn [user_query url topic].
  rewrite autoQuery_text, chatgptQuery_text, metaOnlyQuery_text.
  replace (or_else brandName []) with brand
    by (unfold brand; destruct brandName as [[|]|]; reflexivity).
  replace (or_else businessType []) with business
    by (unfold business; destruct businessType as [[|]|]; reflexivity).
  rewrite <- !andb_assoc; fold branded.
  split; [|split].
  - intros -> E; rewrite E; reflexivity.
  - intros -> E; rewrite E; reflexivity.
  - intros [->|[H1 H2]]; [rewrite !andb_false_r; reflexivity|].
    apply eqb_neq in H1, H2; rewrite H1, H2; reflexivity.
Qed.

Lemma derivedTopic_trimmed u : trim (derivedTopic u) = derivedTopic u.
Proof.
  unfold derivedTopic, or_else.
  set (replaced := List.map _ _).
  destruct (trim replaced) eqn:E; [reflexivity|].
  rewrite <- E; apply trim_idempotent.
Qed.


(** X17. Every item of [parseSimpleList] has a non-empty URL and a
    non-empty topic, both without white space at either end; every
    item of [parseCSV] has its URL and topic trimmed, either of which
    can be empty; and every item of both has its topic as keyword,
    the language detected from its topic, and the target audience of
    the form exactly when that is not empty. *)
Theorem parsed_items_are_normalized :
  let common item :=
    keyword item = topic item
    /\ item_language item = detectLanguage (Some (topic item))
    /\ target_audience item
       = (if truthy targetAudience then Some targetAudience else None)
    /\ trim (url item) = url item
    /\ trim (topic item) = topic item in
  (forall urlList keywordsList item,
     In item (parseSimpleList urlList keywordsList generationMode
                brandName businessType targetAudience) ->
     common item /\ url item <> [] /\ topic item <> [])
  /\ (forall csvText item,
        In item (parseCSV csvText generationMode brandName businessType
                          targetAudience) ->
        common item)
  /\ (exists item,
        In item (parseCSV [comma] generationMode brandName businessType
                          targetAudience)
        /\ url item = [] /\ topic item = []).
Proof.
  intros common; split; [|split].
  - intros urlList keywordsList item H.
    destruct (parseSimpleList_item _ _ _ H) as (kws & u & i & -> & Hu & Hk).
    unfold common, simpleItem;
      cbn [keyword topic item_language target_audience url].
    assert (T : let t := match nth_error kws i with
                         | Some k =>
                             if truthy k && truthy (trim k) then trim k
                             else derivedTopic (trim u)
                         | None => derivedTopic (trim u)
                         end in
                trim t = t /\ t <> []).
    { cbv zeta; destruct (nth_error kws i) as [k|] eqn:E.
      - apply nth_error_In in E; rewrite Forall_forall in Hk.
        rewrite (Hk k E), (trim_nonempty _ (Hk k E)); cbn [andb].
        split; [apply trim_idempotent | apply truthy_true, Hk, E].
      - split; [apply derivedTopic_trimmed | apply derivedTopic_nonempty]. }
    destruct T as [T1 T2].
    repeat split; auto using trim_idempotent.
    apply truthy_true; assumption.
  - intros csvText item H; rewrite parseCSV_rows in H.
    apply in_map_iff in H as (line & <- & _).
    unfold common, csvItem, fields;
      cbn [keyword topic item_language target_audience url].
    assert (N : forall k, trim (nth k (List.map trim (split comma line)) [])
                          = nth k (List.map trim (split comma line)) []).
    { intros k.
      destruct (nth_in_or_default k (List.map trim (split comma line)) [])
        as [Hin | ->]; [|reflexivity].
      apply in_map_iff in Hin as (x & <- & _); apply trim_idempotent. }
    repeat split; auto.
  - exists (csvItem generationMode brandName businessType targetAudience
                    (fields [comma])).
    split; [rewrite parseCSV_rows; left; reflexivity|].
    split; reflexivity.
Qed.

End MoreParserFacts.

Lemma parseSimpleList_instruction_witness :
  exists item,
    In item (parseSimpleList (lit "https://x.com/u1") None (lit "chatgpt")
                             (Some (lit "Acme")) None [])
    /\ user_query item
       = utf16 "Згенеруй текст для https://x.com/u1 про u1".
Proof.
  assert (H : In (simpleItem [] (lit "chatgpt") (Some (lit "Acme")) None []
                             (lit "https://x.com/u1") 0)
                 (parseSimpleList (lit "https://x.com/u1") None
                                  (lit "chatgpt") (Some (lit "Acme")) None []))
    by (vm_compute; left; reflexivity).
  eexists; split; [exact H|].
  destruct (parseSimpleList_instruction _ _ _ _ _ _ _ H) as (_ & _ & A).
  rewrite A; [vm_compute; reflexivity | left; reflexivity].
Defined.

(* ================================================================== *)
(** * More on the language detector                                    *)
(* ================================================================== *)

Section MoreLanguageFacts.
Context {cm : CaseMapping}.

Lemma range_In lo hi c :
  (lo <= c)%N -> (c <= hi)%N -> In c (Re.range lo hi).
Proof.
  intros H1 H2; unfold Re.range; apply in_map_iff.
  exists (N.to_nat (c - lo)); split; [lia|].
  apply in_seq; lia.
Qed.

Lemma class_i_member members c : In c members -> Re.class_i members c = true.
Proof.
  intros H; unfold Re.class_i; apply existsb_exists.
  exists c; split; [assumption | apply N.eqb_refl].
Qed.

Lemma some_in_class_In members text c :
  In c text -> In c members -> Re.some_in_class members text = true.
Proof.
  intros Ht Hm; unfold Re.some_in_class; apply existsb_exists.
  exists c; split; [assumption | apply class_i_member; assumption].
Qed.

(** A non-ASCII code unit never folds to an ASCII one. *)
Lemma Canonicalize_non_ascii ch :
  (128 <= ch)%N -> (128 <= Re.Canonicalize ch)%N.
Proof.
  intros H; unfold Re.Canonicalize.
  match goal with
  | |- context [match ?t with _ => _ end] => destruct t as [|cu rest]
  end; auto.
  destruct rest; auto.
  replace (128 <=? ch)%N with true by (symmetry; apply N.leb_le; lia).
  cbn [andb]; destruct (cu <? 128)%N eqn:E; auto.
  apply N.ltb_ge in E; assumption.
Qed.

Lemma class_i_ascii members c :
  ascii_upper_closed cm ->
  forallb (fun a => (128 <=? a)%N) members = true ->
  (c < 128)%N -> Re.class_i members c = false.
Proof.
  intros Hcm Hm Hc; unfold Re.class_i.
  apply not_true_is_false; intros H.
  apply existsb_exists in H as (a & Ha & E).
  rewrite forallb_forall in Hm; specialize (Hm a Ha).
  apply N.leb_le, Canonicalize_non_ascii in Hm.
  apply N.eqb_eq in E; specialize (Hcm c Hc); lia.
Qed.

Lemma some_in_class_ascii members text :
  ascii_upper_closed cm ->
  forallb (fun a => (128 <=? a)%N) members = true ->
  Forall (fun c => (c < 128)%N) text ->
  Re.some_in_class members text = false.
Proof.
  intros Hcm Hm Ht; unfold Re.some_in_class.
  apply not_true_is_false; intros H.
  apply existsb_exists in H as (c & Hc & E).
  rewrite Forall_forall in Ht.
  rewrite (class_i_ascii members c Hcm Hm (Ht c Hc)) in E; discriminate.
Qed.

Lemma word_here_ascii w before text k :
  ascii_upper_closed cm ->
  (128 <= k)%N ->
  Forall (fun c => (c < 128)%N) text ->
  Re.word_here (k :: w) before text = false.
Proof.
  intros Hcm Hk Ht; destruct text as [|c t]; simpl; auto.
  inversion Ht as [|? ? Hc _]; subst.
  apply Canonicalize_non_ascii in Hk; specialize (Hcm c Hc).
  replace (Re.Canonicalize k =? Re.Canonicalize c)%N with false
    by (symmetry; apply N.eqb_neq; lia).
  reflexivity.
Qed.

Lemma words_i_ascii ws text :
  ascii_upper_closed cm ->
  forallb (fun w => match w with
                    | k :: _ => (128 <=? k)%N
                    | [] => false
                    end) ws = true ->
  Forall (fun c => (c < 128)%N) text ->
  forall before, Re.words_i ws before text = false.
Proof.
  intros Hcm Hws Ht.
  assert (E : forall before t,
             Forall (fun c => (c < 128)%N) t ->
             existsb (fun w => Re.word_here w before t) ws = false).
  { intros before t Ft; apply not_true_is_false; intros H.
    apply existsb_exists in H as (x & Hx & Hw).
    rewrite forallb_forall in Hws; specialize (Hws x Hx).
    destruct x as [|k x]; [discriminate|].
    apply N.leb_le in Hws; cbv beta in Hw.
    exact (eq_true_false_abs _ Hw
             (word_here_ascii x before t k Hcm Hws Ft)). }
  induction Ht as [|c t Hc Ht IH]; intros before; simpl.
  - rewrite E by constructor; rewrite andb_false_r; reflexivity.
  - rewrite E by (constructor; assumption).
    rewrite andb_false_r; apply IH.
Qed.

Lemma detectLanguage_nonempty (text : jsstring) :
  text <> [] ->
  detectLanguage (Some text)
  = if (enChars text || enKeywords text)
       && negb (ukChars text) && negb (ruChars text)
    then en
    else if matches ukPatterns text <? matches ruPatterns text then ru
    else uk.
Proof.
  intros Hne; unfold detectLanguage.
  destruct text as [|c t]; [congruence|].
  rewrite !score_matches, en_matched.
  destruct (0 <? matches ukPatterns (c :: t)); reflexivity.
Qed.

Lemma matches_two (p q : jsstring -> bool) text :
  matches [p; q] text
  = (if p text then 1 else 0) + (if q text then 1 else 0).
Proof. unfold matches; simpl; destruct (p text), (q text); reflexivity. Qed.

(** X18. A non-empty text of ASCII code units matches no Ukrainian
    and no Russian pattern, so it is never classified as Russian: it
    is English when one of the English patterns matches and Ukrainian
    otherwise (for an engine whose upper-casing keeps ASCII within
    ASCII). *)
Theorem ascii_text_is_english_or_default (text : jsstring) :
  ascii_upper_closed cm ->
  text <> [] ->
  Forall (fun c => (c < 128)%N) text ->
  matches ukPatterns text = 0 /\ matches ruPatterns text = 0
  /\ detectLanguage (Some text)
     = if enChars text || enKeywords text then en else uk.
Proof.
  intros Hcm Hne Ht.
  assert (U0 : ukChars text = false)
    by (apply some_in_class_ascii; auto).
  assert (R0 : ruChars text = false)
    by (apply some_in_class_ascii; auto).
  assert (U1 : ukKeywords text = false)
    by (apply words_i_ascii; auto).
  assert (R1 : ruKeywords text = false)
    by (apply words_i_ascii; auto).
  assert (MU : matches ukPatterns text = 0)
    by (unfold ukPatterns; rewrite matches_two, U0, U1; reflexivity).
  assert (MR : matches ruPatterns text = 0)
    by (unfold ruPatterns; rewrite matches_two, R0, R1; reflexivity).
  split; [exact MU|]; split; [exact MR|].
  rewrite (detectLanguage_nonempty text Hne), MU, MR, U0, R0.
  destruct (enChars text || enKeywords text); reflexivity.
Qed.

(** X19. A text that holds a lower-case letter of the range U+0430 to
    U+044F matches both character-range patterns, so it is never
    classified as English: it is Russian when a Russian keyword
    pattern matches and no Ukrainian one does, and Ukrainian
    otherwise. *)
Theorem cyrillic_text_is_never_english (text : jsstring) (c : code_unit) :
  In c text -> (1072 <= c)%N -> (c <= 1103)%N ->
  ukChars text = true /\ ruChars text = true
  /\ detectLanguage (Some text)
     = if ruKeywords text && negb (ukKeywords text) then ru else uk.
Proof.
  intros Hin H1 H2.
  assert (U0 : ukChars text = true).
  { apply (some_in_class_In _ _ c Hin), in_or_app; left.
    apply range_In; assumption. }
  assert (R0 : ruChars text = true).
  { apply (some_in_class_In _ _ c Hin), in_or_app; left.
    apply range_In; assumption. }
  split; [exact U0|]; split; [exact R0|].
  assert (Hne : text <> []) by (intros ->; destruct Hin).
  rewrite (detectLanguage_nonempty text Hne), U0, R0.
  rewrite andb_false_r; cbn [andb negb].
  unfold ukPatterns, ruPatterns; rewrite !matches_two, U0, R0.
  destruct (ukKeywords text), (ruKeywords text); reflexivity.
Qed.

End MoreLanguageFacts.

Lemma ascii_text_is_english_or_default_witness :
  detectLanguage (Some (lit "blue widgets 42")) = uk
  /\ detectLanguage (Some (lit "blue widgets")) = en.
Proof.
  split.
  - destruct (ascii_text_is_english_or_default (lit "blue widgets 42")
                basic_case_ascii_closed) as (_ & _ & E).
    + discriminate.
    + vm_compute; repeat constructor.
    + rewrite E; vm_compute; reflexivity.
  - destruct (ascii_text_is_english_or_default (lit "blue widgets")
                basic_case_ascii_closed) as (_ & _ & E).
    + discriminate.
    + vm_compute; repeat constructor.
    + rewrite E; vm_compute; reflexivity.
Defined.

Lemma cyrillic_text_is_never_english_witness :
  detectLanguage (Some [1082; 1091; 1087; 1080; 1090; 1100]%N) = uk.
Proof.
  destruct (cyrillic_text_is_never_english
              [1082; 1091; 1087; 1080; 1090; 1100]%N 1082%N)
    as (_ & _ & E).
  - left; reflexivity.
  - vm_compute; discriminate.
  - vm_compute; discriminate.
  - etransitivity; [exact E | vm_compute; reflexivity].
Defined.

(* ================================================================== *)
(** * The mode toggles                                                 *)
(* ================================================================== *)

Section ToggleFacts.

Ltac toggle_stage :=
  cbv beta iota zeta delta
    [do_all show hide set_display generationMode_value
     processingMode_value batchInputType_checked displayed element_eqb
     andb negb orb].

Ltac literal_tests :=
  repeat match goal with
         | |- context [eqb (lit ?a) (lit ?b)] =>
             let v := eval vm_compute in (eqb (lit a) (lit b)) in
             replace (eqb (lit a) (lit b)) with v by reflexivity
         end.

(** The tests of a toggle on the selected modes, decided beforehand. *)
Ltac decide_modes gm ty :=
  destruct (eqb gm (lit "auto")) eqn:?A;
  destruct (eqb gm (lit "meta_only")) eqn:?M;
  destruct (eqb gm (lit "link_analysis")) eqn:?L;
  destruct (eqb gm (lit "chatgpt")) eqn:?C;
  destruct (eqb ty (lit "simple")) eqn:?S;
  destruct (eqb ty (lit "csv")) eqn:?V.

Ltac known_tests :=
  literal_tests;
  repeat match goal with
         | H : eqb ?a ?b = _ |- context [eqb ?a ?b] => rewrite H
         end.

Ltac toggle_eval :=
  unfold toggleProcessingMode; toggle_stage; known_tests; toggle_stage;
  unfold toggleBatchInput; toggle_stage; known_tests; toggle_stage;
  unfold toggleGenerationMode; toggle_stage; known_tests; toggle_stage;
  repeat (progress (known_tests; toggle_stage)).

Ltac clash :=
  match goal with
  | H1 : eqb ?a ?x = true, H2 : eqb ?a ?y = true |- _ =>
      apply eqb_eq in H1, H2; rewrite H1 in H2; discriminate H2
  end.

(** X20. In the single processing mode [toggleProcessingMode] shows
    the single-page block, hides the batch block, and shows exactly
    one of the three mode panels: the auto fields in the [auto] mode,
    the link builder fields in the [link_analysis] mode and the
    keyword fields in every other mode; the other blocks keep their
    display. *)
Theorem single_mode_shows_one_panel page :
  processingMode_value page = lit "single" ->
  let mode := generationMode_value page in
  let after := toggleProcessingMode page in
  displayed after singlePageFields = true
  /\ displayed after batchModeFields = false
  /\ displayed after autoModeFields = eqb mode (lit "auto")
  /\ displayed after linkBuilderFields = eqb mode (lit "link_analysis")
  /\ displayed after chatgptSingleFields
     = negb (eqb mode (lit "auto"))
       && negb (eqb mode (lit "link_analysis"))
  /\ (forall e,
        In e [batchBusinessFields; simpleInputField; keywordsInputField;
              csvUploadField; manualInputField] ->
        displayed after e = displayed page e).
Proof.
  destruct page as [gm pm ty d]; cbn [processingMode_value]; intros ->.
  decide_modes gm ty; try clash; toggle_eval;
    repeat split; try reflexivity;
    intros e [<-|[<-|[<-|[<-|[<-|[]]]]]]; reflexivity.
Qed.

(** X21. In the batch processing mode [toggleProcessingMode] hides
    the single-page block and the panels of the single mode.  With a
    generation mode other than [link_analysis] it shows the batch
    block, hides the link builder fields, shows the business fields
    exactly in the [chatgpt] and [meta_only] modes, and of the input
    blocks shows those of the checked input type only: the URL and
    keyword lists for [simple], the file upload for [csv], the manual
    text for any other.  With [link_analysis] it shows the link
    builder fields and hides the batch block and all four input
    blocks. *)
Theorem batch_mode_shows_checked_input page :
  processingMode_value page = lit "batch" ->
  let mode := generationMode_value page in
  let inputType := batchInputType_checked page in
  let after := toggleProcessingMode page in
  (displayed after singlePageFields = false
   /\ displayed after autoModeFields = false
   /\ displayed after chatgptSingleFields = false)
  /\ (mode <> lit "link_analysis" ->
      displayed after batchModeFields = true
      /\ displayed after linkBuilderFields = false
      /\ displayed after batchBusinessFields
         = (eqb mode (lit "chatgpt") || eqb mode (lit "meta_only"))
      /\ displayed after simpleInputField = eqb inputType (lit "simple")
      /\ displayed after keywordsInputField = eqb inputType (lit "simple")
      /\ displayed after csvUploadField
         = negb (eqb inputType (lit "simple"))
           && eqb inputType (lit "csv")
      /\ displayed after manualInputField
         = negb (eqb inputType (lit "simple"))
           && negb (eqb inputType (lit "csv")))
  /\ (mode = lit "link_analysis" ->
      displayed after linkBuilderFields = true
      /\ forall e,
           In e [batchModeFields; simpleInputField; keywordsInputField;
                 csvUploadField; manualInputField] ->
           displayed after e = false).
Proof.
  destruct page as [gm pm ty d]; cbn [processingMode_value]; intros ->.
  decide_modes gm ty; try clash; toggle_eval;
    (split; [repeat split; reflexivity|]);
    (split; intros H;
     [try (exfalso; apply H; apply eqb_eq; assumption)
     |try (apply eqb_neq in L; contradiction)]);
    repeat split; try reflexivity;
    intros e [<-|[<-|[<-|[<-|[<-|[]]]]]]; reflexivity.
Qed.

(** X22. The toggles are idempotent on the displays: running
    [toggleProcessingMode] a second time changes no block (and none
    of them changes the selected modes). *)
Theorem toggleProcessingMode_idempotent page :
  let once := toggleProcessingMode page in
  let twice := toggleProcessingMode once in
  generationMode_value once = generationMode_value page
  /\ processingMode_value once = processingMode_value page
  /\ batchInputType_checked once = batchInputType_checked page
  /\ forall e, displayed twice e = displayed once e.
Proof.
  destruct page as [gm pm ty d].
  destruct (eqb pm (lit "single")) eqn:P1;
    destruct (eqb pm (lit "batch")) eqn:P2;
    decide_modes gm ty; try clash;
    (eassert (E : toggleProcessingMode
                    {| generationMode_value := gm;
                       processingMode_value := pm;
                       batchInputType_checked := ty;
                       displayed := d |}
                  = {| generationMode_value := gm;
                       processingMode_value := pm;
                       batchInputType_checked := ty;
                       displayed := _ |})
       by (toggle_eval; reflexivity));
    cbv zeta; rewrite E; toggle_eval;
    (split; [reflexivity|]); (split; [reflexivity|]);
    (split; [reflexivity|]);
    intros e; destruct e; reflexivity.
Qed.

End ToggleFacts.

Lemma single_mode_shows_one_panel_witness :
  let page := hidden_page (lit "link_analysis") (lit "single") (lit "csv") in
  let after := toggleProcessingMode page in
  processingMode_value page = lit "single"
  /\ displayed after singlePageFields = true
  /\ displayed after linkBuilderFields = true
  /\ displayed after autoModeFields = false
  /\ displayed after chatgptSingleFields = false
  /\ displayed after csvUploadField = false.
Proof.
  cbv zeta; split; [reflexivity|].
  destruct (single_mode_shows_one_panel
              (hidden_page (lit "link_analysis") (lit "single") (lit "csv"))
              eq_refl) as (S & _ & A & L & C & K).
  exact (conj S (conj L (conj A (conj C
           (K csvUploadField
              (or_intror (or_intror (or_intror (or_introl eq_refl))))))))).
Defined.

Lemma batch_mode_shows_checked_input_witness :
  let page := hidden_page (lit "chatgpt") (lit "batch") (lit "csv") in
  let after := toggleProcessingMode page in
  processingMode_value page = lit "batch"
  /\ displayed after singlePageFields = false
  /\ displayed after batchModeFields = true
  /\ displayed after batchBusinessFields = true
  /\ displayed after csvUploadField = true
  /\ displayed after simpleInputField = false
  /\ displayed after manualInputField = false.
Proof.
  cbv zeta; split; [reflexivity|].
  destruct (batch_mode_shows_checked_input
              (hidden_page (lit "chatgpt") (lit "batch") (lit "csv"))
              eq_refl) as ((S & _ & _) & H & _).
  destruct H as (B & _ & U & I & _ & V & M); [discriminate|].
  exact (conj S (conj B (conj U (conj V (conj I M))))).
Defined.
